(** * Degree planner: a shallow embedding of the planner's core and its properties

    Part I embeds the Python sources, file by file:
    - [models.py]   : modules [Requirement], [Course], [Plan];
    - [utils.py]    : the requirement validator, module [Utils];
    - [parsers.py]  : the keyword based tagger, module [Parsers];
    - [scripts/parsers.py] : the header driven extraction pipeline, module
      [ScriptsParsers];
    - [backend/parse_courses.py] : the positional variant, module [ParseCourses].
    It ends with the vocabulary of the specification (module [Spec]) and
    worked data (module [Scenario]).  Part II states and proves the
    properties.

    Conventions of the embedding.
    - Python [str] is [string]; the character level functions ([strip],
      [lower], [upper], the regular expression class [\s]) are modelled on
      code points below 128.  Paths are POSIX paths.
    - A Python [float] of [models.py] and [utils.py] (credits, minima,
      totals, deficits, percentages) is an IEEE 754 binary64 number, the
      primitive [PrimFloat.float]: [+], [-], [*], [/] round to nearest as
      the hardware does, [<=?] and [<?] are the IEEE comparisons, and
      infinities and NaN are values like the others.  Sums are written in
      the order in which the code adds; no law of the rationals is used.
      The credits that the two extraction pipelines scrape are kept as the
      number their reader returns, a rational.
    - A Python [dict] whose iteration order is observable is an association
      list in insertion order ([PyDict]); a dict that is only looked up is a
      [gmap]; a Python [set] of strings is a [gset string].
    - A Python exception is a value of [exn]; a function that can raise
      returns a [result].
    - Objects mutated in place are passed through: an operation returns the
      object after the call.  Two positions of a list stand for two objects.
      [datetime.now()], the file system and the PDF and RTF readers are
      explicit arguments. *)

From Stdlib Require Import Ascii String QArith Qminmax.
From Stdlib Require Floats Uint63.
From stdpp Require Import base option list strings gmap.
Import (notations) PrimFloat.
Import PrimFloat.PrimFloatNotations.

Set Default Proof Using "Type".
Local Open Scope string_scope.
Local Open Scope list_scope.

(** ** Exceptions *)

Inductive exn : Type :=
  | KeyError (key : string)
  | IndexError
  | ValueError (msg : string)
  | RuntimeError (msg : string)
  | FileNotFoundError (path : string)
  | ZeroDivisionError
  | ReaderError (msg : string).

Inductive result (A : Type) : Type :=
  | Ok (a : A)
  | Raise (e : exn).
Arguments Ok {A} a.
Arguments Raise {A} e.

#[global] Instance result_ret : MRet result := @Ok.
#[global] Instance result_bind : MBind result := λ A B f m,
  match m with
  | Ok a => f a
  | Raise e => Raise e
  end.

(** [l[0]] *)
Definition item0 {A} (l : list A) : result A :=
  match l with
  | x :: _ => Ok x
  | [] => Raise IndexError
  end.

(** [d[name]] on a dictionary read key by key: [KeyError] when absent. *)
Definition required {A} (name : string) (value : option A) : result A :=
  match value with
  | Some a => Ok a
  | None => Raise (KeyError name)
  end.

(** ** Insertion ordered dictionaries with string keys *)

Module PyDict.

Definition dict (V : Type) : Type := list (string * V).

(** [d.get(k)] *)
Fixpoint get {V} (k : string) (d : dict V) : option V :=
  match d with
  | [] => None
  | (k', v) :: d' => if decide (k = k') then Some v else get k d'
  end.

(** [k in d] *)
Definition mem {V} (k : string) (d : dict V) : bool :=
  match get k d with Some _ => true | None => false end.

(** [d[k]], raising [KeyError] *)
Definition getitem {V} (k : string) (d : dict V) : result V :=
  match get k d with Some v => Ok v | None => Raise (KeyError k) end.

(** [d[k] = v]: an existing key keeps its position, a new key goes last. *)
Fixpoint set {V} (k : string) (v : V) (d : dict V) : dict V :=
  match d with
  | [] => [(k, v)]
  | (k', v') :: d' =>
      if decide (k = k') then (k', v) :: d' else (k', v') :: set k v d'
  end.

Definition keys {V} (d : dict V) : list string := d.*1.
Definition values {V} (d : dict V) : list V := d.*2.

End PyDict.

(** ** Strings: the [str], [re] and [os.path] functions the sources call *)

Module Str.

(** [str.isspace] and the class [\s] on code points below 128:
    TAB, LF, VT, FF, CR, FS, GS, RS, US and SPACE. *)
Definition is_space (c : ascii) : bool :=
  let n := nat_of_ascii c in
  ((9 <=? n)%nat && (n <=? 13)%nat) || ((28 <=? n)%nat && (n <=? 32)%nat).

Definition is_digit (c : ascii) : bool :=
  let n := nat_of_ascii c in (48 <=? n)%nat && (n <=? 57)%nat.

Definition lower_char (c : ascii) : ascii :=
  let n := nat_of_ascii c in
  if (65 <=? n)%nat && (n <=? 90)%nat then ascii_of_nat (n + 32) else c.

Definition upper_char (c : ascii) : ascii :=
  let n := nat_of_ascii c in
  if (97 <=? n)%nat && (n <=? 122)%nat then ascii_of_nat (n - 32) else c.

Fixpoint map_chars (f : ascii → ascii) (s : string) : string :=
  match s with
  | EmptyString => EmptyString
  | String c s' => String (f c) (map_chars f s')
  end.

(** [s.lower()], [s.upper()] *)
Definition lower : string → string := map_chars lower_char.
Definition upper : string → string := map_chars upper_char.

(** [s.lstrip()], [s.rstrip()], [s.strip()] *)
Fixpoint lstrip (s : string) : string :=
  match s with
  | EmptyString => EmptyString
  | String c s' => if is_space c then lstrip s' else s
  end.

Fixpoint rstrip (s : string) : string :=
  match s with
  | EmptyString => EmptyString
  | String c s' =>
      match rstrip s' with
      | EmptyString => if is_space c then EmptyString else String c EmptyString
      | r => String c r
      end
  end.

Definition strip (s : string) : string := lstrip (rstrip s).

(** [needle in hay] *)
Fixpoint contains (needle hay : string) : bool :=
  String.prefix needle hay ||
  match hay with
  | EmptyString => false
  | String _ hay' => contains needle hay'
  end.

(** [s.endswith(suffix)] *)
Fixpoint endswith (s suffix : string) : bool :=
  String.eqb s suffix ||
  match s with
  | EmptyString => false
  | String _ s' => endswith s' suffix
  end.

(** Splitting at every character satisfying [sep]: [s.split(c)] for a one
    character separator, [re.split(r"\s", s)] for [is_space].  The result
    is never empty. *)
Fixpoint split_at (sep : ascii → bool) (s : string) : list string :=
  match s with
  | EmptyString => [EmptyString]
  | String c s' =>
      if sep c then EmptyString :: split_at sep s'
      else match split_at sep s' with
           | p :: ps => String c p :: ps
           | [] => [String c EmptyString]
           end
  end.

(** [re.split(r"\s", s)] *)
Definition re_split_space (s : string) : list string := split_at is_space s.

(** [s.split("\n")] *)
Definition split_lines (s : string) : list string :=
  split_at (λ c, bool_decide (c = ascii_of_nat 10)) s.

(** [s.split()]: the maximal runs of characters that are not whitespace. *)
Fixpoint split (s : string) : list string :=
  match s with
  | EmptyString => []
  | String c s' =>
      if is_space c then split s'
      else match s' with
           | EmptyString => [String c EmptyString]
           | String c' _ =>
               if is_space c' then String c EmptyString :: split s'
               else match split s' with
                    | t :: ts => String c t :: ts
                    | [] => [String c EmptyString]
                    end
           end
  end.

(** [re.split(r"\s{2,}", s)]: cut at every maximal run of two or more
    whitespace characters.  [skipping] is set while such a run is being
    consumed; the pair is the part in progress and the parts after it. *)
Fixpoint split_runs (skipping : bool) (s : string) : string * list string :=
  match s with
  | EmptyString => (EmptyString, [])
  | String c s' =>
      if is_space c then
        if skipping then split_runs true s'
        else match s' with
             | String c' _ =>
                 if is_space c' then
                   let '(p, ps) := split_runs true s' in (EmptyString, p :: ps)
                 else
                   let '(p, ps) := split_runs false s' in (String c p, ps)
             | EmptyString => (String c EmptyString, [])
             end
      else let '(p, ps) := split_runs false s' in (String c p, ps)
  end.

Definition re_split_space2 (s : string) : list string :=
  let '(p, ps) := split_runs false s in p :: ps.

(** [sep.join(parts)] *)
Definition join (sep : string) (parts : list string) : string :=
  String.concat sep parts.

(** [os.path.basename] (POSIX): what follows the last slash. *)
Definition basename (p : string) : string :=
  List.last (split_at (λ c, bool_decide (c = "/"%char)) p) EmptyString.

(** [os.path.join(a, b)] (POSIX) *)
Definition path_join (a b : string) : string :=
  if String.prefix "/" b then b
  else if bool_decide (a = EmptyString) || endswith a "/" then a ++ b
  else a ++ "/" ++ b.

(** A decimal literal [[+-]digits[.digits]] with at least one digit, read
    as an exact rational.  It serves as the number reader in the worked
    examples; the pipeline takes its reader as an argument. *)
Fixpoint digits_value (acc : Z) (s : string) : option Z :=
  match s with
  | EmptyString => Some acc
  | String c s' =>
      if is_digit c
      then digits_value (10 * acc + Z.of_nat (nat_of_ascii c - 48))%Z s'
      else None
  end.

Definition unsigned_decimal (s : string) : option Q :=
  match split_at (λ c, bool_decide (c = "."%char)) s with
  | [i] =>
      if bool_decide (i = EmptyString) then None
      else n ← digits_value 0 i; Some (inject_Z n)
  | [i; f] =>
      if bool_decide (i = EmptyString) && bool_decide (f = EmptyString) then None
      else
        n ← digits_value 0 i;
        m ← digits_value 0 f;
        Some (inject_Z n + inject_Z m / inject_Z (10 ^ Z.of_nat (String.length f)))%Q
  | _ => None
  end.

Definition decimal (s : string) : option Q :=
  match s with
  | String "-" s' => q ← unsigned_decimal s'; Some (- q)%Q
  | String "+" s' => unsigned_decimal s'
  | _ => unsigned_decimal s
  end.

(** [s.split(sep, 1)] for a one character separator: at most one cut, at
    the first separator. *)
Fixpoint split1 (sep : ascii) (s : string) : list string :=
  match s with
  | EmptyString => [EmptyString]
  | String c s' =>
      if bool_decide (c = sep) then [EmptyString; s']
      else match split1 sep s' with
           | p :: ps => String c p :: ps
           | [] => [String c EmptyString]
           end
  end.

End Str.


(** ** models.py *)

(** A [datetime] value; only its identity matters here. *)
Definition datetime : Type := Z.

Module Requirement.

Record t : Type := mk {
  id : string;
  label : string;
  min_credits : PrimFloat.float;
  satisfied_by : gset string
}.

(** [req.satisfied_by.add(course_id)] *)
Definition add_satisfied_by (course_id : string) (self : t) : t :=
  mk (id self) (label self) (min_credits self) ({[course_id]} ∪ satisfied_by self).


(** A dictionary as [to_dict] writes it and [from_dict] reads it: a key may
    be absent, a value that is present has the type [to_dict] gives it. *)
Record Dict : Type := mkDict {
  d_id : option string;
  d_label : option string;
  d_min_credits : option PrimFloat.float;
  d_satisfied_by : option (list string)
}.

(** [Requirement.to_dict]; [list(self.satisfied_by)] lists the set in the
    order [elements] gives. *)
Definition to_dict (self : t) : Dict :=
  mkDict (Some (id self)) (Some (label self)) (Some (min_credits self))
         (Some (elements (satisfied_by self))).

(** [Requirement.from_dict] *)
Definition from_dict (data : Dict) : result t :=
  id ← required "id" (d_id data);
  label ← required "label" (d_label data);
  min_credits ← required "min_credits" (d_min_credits data);
  Ok (mk id label min_credits (list_to_set (default [] (d_satisfied_by data)))).

End Requirement.

Module Course.

Record t : Type := mk {
  id : string;
  code : string;
  title : string;
  faculty : string;
  credits : PrimFloat.float;
  days : string;
  time : string;
  semester : string;
  delivery_mode : string;
  description : string;
  satisfies : gset string
}.

(** [course.satisfies.add(req_id)] *)
Definition add_satisfies (req_id : string) (self : t) : t :=
  mk (id self) (code self) (title self) (faculty self) (credits self)
     (days self) (time self) (semester self) (delivery_mode self)
     (description self) ({[req_id]} ∪ satisfies self).


(** The dictionary form of a course, as for [Requirement.Dict]. *)
Record Dict : Type := mkDict {
  d_id : option string;
  d_code : option string;
  d_title : option string;
  d_faculty : option string;
  d_credits : option PrimFloat.float;
  d_days : option string;
  d_time : option string;
  d_semester : option string;
  d_delivery_mode : option string;
  d_description : option string;
  d_satisfies : option (list string)
}.

(** [Course.to_dict] *)
Definition to_dict (self : t) : Dict :=
  mkDict (Some (id self)) (Some (code self)) (Some (title self))
         (Some (faculty self)) (Some (credits self)) (Some (days self))
         (Some (time self)) (Some (semester self)) (Some (delivery_mode self))
         (Some (description self)) (Some (elements (satisfies self))).

(** [Course.from_dict] *)
Definition from_dict (data : Dict) : result t :=
  id ← required "id" (d_id data);
  code ← required "code" (d_code data);
  title ← required "title" (d_title data);
  faculty ← required "faculty" (d_faculty data);
  credits ← required "credits" (d_credits data);
  days ← required "days" (d_days data);
  time ← required "time" (d_time data);
  semester ← required "semester" (d_semester data);
  delivery_mode ← required "delivery_mode" (d_delivery_mode data);
  description ← required "description" (d_description data);
  Ok (mk id code title faculty credits days time semester delivery_mode
         description (list_to_set (default [] (d_satisfies data)))).

End Course.

Module Plan.

Record t : Type := mk {
  selections : PyDict.dict (list string);
  notes : string;
  created_at : datetime;
  updated_at : datetime
}.

(** [Plan()] at clock value [now]. *)
Definition fresh (now : datetime) : t := mk [] EmptyString now now.

Definition with_selections (self : t) (s : PyDict.dict (list string)) : t :=
  mk s (notes self) (created_at self) (updated_at self).

Definition with_updated_at (self : t) (now : datetime) : t :=
  mk (selections self) (notes self) (created_at self) now.

(** [l.remove(x)]: drops the first occurrence, [ValueError] when absent. *)
Fixpoint list_remove (x : string) (l : list string) : result (list string) :=
  match l with
  | [] => Raise (ValueError "list.remove(x): x not in list")
  | y :: l' =>
      if decide (x = y) then Ok l'
      else l'' ← list_remove x l'; Ok (y :: l'')
  end.

(** [Plan.add_course].  [now] is the value [datetime.now()] returns if it
    is called. *)
Definition add_course (now : datetime) (semester course_id : string) (self : t)
  : result t :=
  let self :=
    if PyDict.mem semester (selections self) then self
    else with_selections self (PyDict.set semester [] (selections self)) in
  ids ← PyDict.getitem semester (selections self);
  if decide (course_id ∈ ids) then Ok self
  else
    let self := with_selections self
                  (PyDict.set semester (ids ++ [course_id]) (selections self)) in
    Ok (with_updated_at self now).

(** [Plan.remove_course] *)
Definition remove_course (now : datetime) (semester course_id : string) (self : t)
  : result t :=
  if PyDict.mem semester (selections self) then
    ids ← PyDict.getitem semester (selections self);
    if decide (course_id ∈ ids) then
      ids' ← list_remove course_id ids;
      let self := with_selections self
                    (PyDict.set semester ids' (selections self)) in
      Ok (with_updated_at self now)
    else Ok self
  else Ok self.

(** [Plan.get_courses_for_semester] *)
Definition get_courses_for_semester (self : t) (semester : string) : list string :=
  default [] (PyDict.get semester (selections self)).


(** The dictionary form of a plan; the time stamps are ISO strings. *)
Record Dict : Type := mkDict {
  d_selections : option (PyDict.dict (list string));
  d_notes : option string;
  d_created_at : option string;
  d_updated_at : option string
}.

(** [Plan.to_dict]; [isoformat] is [datetime.isoformat]. *)
Definition to_dict (isoformat : datetime → string) (self : t) : Dict :=
  mkDict (Some (selections self)) (Some (notes self))
         (Some (isoformat (created_at self)))
         (Some (isoformat (updated_at self))).

(** [Plan.from_dict]; [fromisoformat] is [datetime.fromisoformat], which
    raises [ValueError] on a string it cannot read.  The default of each
    time stamp reads the clock, whether the key is present or not: [now1]
    and [now2] are the two readings. *)
Definition from_dict (isoformat : datetime → string)
    (fromisoformat : string → result datetime) (now1 now2 : datetime)
    (data : Dict) : result t :=
  let selections := default [] (d_selections data) in
  let notes := default EmptyString (d_notes data) in
  created_at ← fromisoformat (default (isoformat now1) (d_created_at data));
  updated_at ← fromisoformat (default (isoformat now2) (d_updated_at data));
  Ok (mk selections notes created_at updated_at).

End Plan.

(** ** utils.py *)

Module Utils.

(** One entry of the dictionary [validate_requirements] returns.  The
    ['status'] text, a rendering of [is_met] and [deficit], is left out. *)
Record ValidationResult : Type := mkResult {
  requirement : Requirement.t;
  selected_courses : list Course.t;
  total_credits : PrimFloat.float;
  min_credits : PrimFloat.float;
  is_met : bool;
  deficit : PrimFloat.float
}.

(** [{course.id: course for course in courses}]: a later course replaces
    an earlier one with the same id. *)
Definition course_lookup (courses : list Course.t) : gmap string Course.t :=
  foldl (λ m c, <[Course.id c := c]> m) ∅ courses.

(** The body of the two inner loops for one course id;
    [total_credits += course.credits] is a float addition. *)
Definition scan_course (lookup : gmap string Course.t) (req_id : string)
    (acc : list Course.t * PrimFloat.float) (course_id : string)
  : list Course.t * PrimFloat.float :=
  match lookup !! course_id with
  | Some course =>
      if decide (req_id ∈ Course.satisfies course)
      then (acc.1 ++ [course], (acc.2 + Course.credits course)%float)
      else acc
  | None => acc
  end.

(** [for semester, course_ids in plan.selections.items(): for course_id in course_ids: ...],
    from [selected_courses = []] and [total_credits = 0.0]. *)
Definition scan_plan (lookup : gmap string Course.t) (req_id : string)
    (plan : Plan.t) : list Course.t * PrimFloat.float :=
  foldl (λ acc item, foldl (scan_course lookup req_id) acc item.2)
        ([], 0%float) (Plan.selections plan).

(** The builtin [max(a, b)]: [b] when [b > a], else [a].  (In
    [max(0, x)] the first argument is the integer 0, which compares and
    prints as the float 0.0 stands for here.) *)
Definition max (a b : PrimFloat.float) : PrimFloat.float :=
  if (a <? b)%float then b else a.

(** The body of the loop over the requirements;
    [total_credits >= requirement.min_credits] is the IEEE comparison. *)
Definition validate_one (lookup : gmap string Course.t) (plan : Plan.t)
    (requirement : Requirement.t) : ValidationResult :=
  let '(selected_courses, total_credits) :=
    scan_plan lookup (Requirement.id requirement) plan in
  let is_met := (Requirement.min_credits requirement <=? total_credits)%float in
  let deficit := max 0%float (Requirement.min_credits requirement - total_credits)%float in
  mkResult requirement selected_courses total_credits
           (Requirement.min_credits requirement) is_met deficit.

Definition validate_requirements (plan : Plan.t) (courses : list Course.t)
    (requirements : list Requirement.t) : PyDict.dict ValidationResult :=
  let lookup := course_lookup courses in
  foldl (λ validation_results requirement,
           PyDict.set (Requirement.id requirement)
                      (validate_one lookup plan requirement) validation_results)
        [] requirements.

(** [calculate_total_credits]; [semester] is [None] by default and the
    test [if semester:] also fails on the empty string.  [total] starts at
    [0.0] and [total += ...] is a float addition. *)
Definition calculate_total_credits (plan : Plan.t) (courses : list Course.t)
    (semester : option string) : PrimFloat.float :=
  let lookup := course_lookup courses in
  let course_ids :=
    match semester with
    | Some (String c s) => Plan.get_courses_for_semester plan (String c s)
    | _ => foldl (λ ids semester_courses, ids ++ semester_courses) []
                 (PyDict.values (Plan.selections plan))
    end in
  foldl (λ total course_id,
           match lookup !! course_id with
           | Some course => (total + Course.credits course)%float
           | None => total
           end) 0%float course_ids.

(** An [int] that is a count (a length, a number of results) as a float.
    Counts stay far below 2^53, where the conversion is exact. *)
Definition float_of_int (n : nat) : PrimFloat.float :=
  PrimFloat.of_uint63 (Uint63.of_Z (Z.of_nat n)).

(** [a / b] on two [int]s: the quotient as a float, correctly rounded,
    which for counts is the float division of the two converted numbers. *)
Definition truediv (a b : nat) : result PrimFloat.float :=
  if (b =? 0)%nat then Raise ZeroDivisionError
  else Ok (float_of_int a / float_of_int b)%float.

Record Progress : Type := mkProgress {
  total_requirements : nat;
  met_requirements : nat;
  progress_percentage : PrimFloat.float;
  validation_results : PyDict.dict ValidationResult
}.

(** [get_requirement_progress]; in [met / total * 100] the [int] 100 is
    converted to a float before the multiplication, and the [0] of the
    other branch is the integer 0, which the float 0.0 stands for. *)
Definition get_requirement_progress (plan : Plan.t) (courses : list Course.t)
    (requirements : list Requirement.t) : result Progress :=
  let validation := validate_requirements plan courses requirements in
  let total_requirements := length requirements in
  let met_requirements :=
    length (filter (λ r, is_met r) (PyDict.values validation)) in
  percentage ←
    (if (0 <? total_requirements)%nat then
       ratio ← truediv met_requirements total_requirements;
       Ok (ratio * float_of_int 100)%float
     else Ok 0%float);
  Ok (mkProgress total_requirements met_requirements percentage validation).

(** The linking loop that ends [create_sample_data]:
    [for course in courses: for req in requirements:
       if req.id in course.satisfies: req.satisfied_by.add(course.id)] *)
Definition link_sample_data (courses : list Course.t)
    (requirements : list Requirement.t) : list Requirement.t :=
  foldl (λ reqs course,
           (λ req, if decide (Requirement.id req ∈ Course.satisfies course)
                   then Requirement.add_satisfied_by (Course.id course) req
                   else req) <$> reqs)
        requirements courses.

(** [get_courses_by_requirement], [get_courses_by_semester] *)
Definition get_courses_by_requirement (courses : list Course.t)
    (requirement_id : string) : list Course.t :=
  filter (λ course, requirement_id ∈ Course.satisfies course) courses.

Definition get_courses_by_semester (courses : list Course.t)
    (semester : string) : list Course.t :=
  filter (λ course, Course.semester course = semester) courses.

(** [format_time_slot]; [start, end = time_str.split('-', 1)] raises
    [ValueError] when the split does not give two parts. *)
Definition format_time_slot (time_str : string) : result string :=
  match time_str with
  | EmptyString => Ok "TBD"
  | _ =>
      let time_str := Str.strip time_str in
      if Str.contains "-" time_str then
        match Str.split1 "-" time_str with
        | [start; end_] => Ok (Str.strip start ++ " - " ++ Str.strip end_)%string
        | _ => Raise (ValueError "not enough values to unpack (expected 2, got 1)")
        end
      else Ok time_str
  end.

(** [day_map] of [format_days], in source order. *)
Definition day_map : list (ascii * string) :=
  [ ("M"%char, "Mon"); ("T"%char, "Tue"); ("W"%char, "Wed");
    ("R"%char, "Thu"); ("F"%char, "Fri") ].

(** [day_map[day]] for [day in day_map] *)
Definition day_name (day : ascii) : option string :=
  snd <$> List.find (λ entry, bool_decide (entry.1 = day)) day_map.

(** [format_days] *)
Definition format_days (days_str : string) : string :=
  match days_str with
  | EmptyString => "TBD"
  | _ =>
      let formatted_days :=
        omap day_name (list_ascii_of_string (Str.strip days_str)) in
      match formatted_days with
      | [] => days_str
      | _ => Str.join ", " formatted_days
      end
  end.

End Utils.

(** ** parsers.py *)

Module Parsers.

(** The table [mapping] of [link_courses_to_requirements], in source order. *)
Definition mapping : list (string * list string) :=
  [ ("bible", ["BIBL"; "BIBLE"; "SCRIPTURE"]);
    ("historical", ["HIST"; "HISTORY"; "CHURCH"]);
    ("interreligious", ["INTER"; "RELIGION"; "DIVERSITY"]);
    ("practical", ["PRAC"; "MINISTRY"; "PASTORAL"]);
    ("theology_ethics", ["THEO"; "ETHICS"; "MORAL"]);
    ("field_ed", ["FIELD"; "INTERN"; "PRACTICUM"]);
    ("mssw_core", ["MSSW"; "SOCIAL"]);
    ("integrative_seminar", ["SEMINAR"; "INTEGRATIVE"]);
    ("social_work_practice", ["PRACTICE"; "CLINICAL"]);
    ("social_work_research", ["RESEARCH"; "METHODS"]);
    ("social_work_policy", ["POLICY"; "ADVOCACY"]) ].

(** [f"{course.code} {course.title}".upper()] *)
Definition course_text (course : Course.t) : string :=
  Str.upper (Course.code course ++ " " ++ Course.title course)%string.

(** [any(keyword in course_text for keyword in keywords)] *)
Definition any_keyword (text : string) (keywords : list string) : bool :=
  existsb (λ keyword, Str.contains keyword text) keywords.

(** [for req in requirements: if req.id == req_id: req.satisfied_by.add(course_id); break] *)
Fixpoint add_to_first (req_id course_id : string)
    (requirements : list Requirement.t) : list Requirement.t :=
  match requirements with
  | [] => []
  | req :: rest =>
      if decide (Requirement.id req = req_id)
      then Requirement.add_satisfied_by course_id req :: rest
      else req :: add_to_first req_id course_id rest
  end.

(** The body of the loop over [mapping.items()] for one course.  The text
    is computed once, before the loop. *)
Definition link_entry (text : string)
    (st : Course.t * list Requirement.t) (entry : string * list string)
  : Course.t * list Requirement.t :=
  if any_keyword text entry.2
  then (Course.add_satisfies entry.1 st.1,
        add_to_first entry.1 (Course.id st.1) st.2)
  else st.

Definition link_course (course : Course.t) (requirements : list Requirement.t)
  : Course.t * list Requirement.t :=
  foldl (link_entry (course_text course)) (course, requirements) mapping.

(** [link_courses_to_requirements]: the two lists after the call. *)
Definition link_courses_to_requirements (courses : list Course.t)
    (requirements : list Requirement.t) : list Course.t * list Requirement.t :=
  foldl (λ st course,
           let '(course', requirements') := link_course course st.2 in
           (st.1 ++ [course'], requirements'))
        ([], requirements) courses.

(** What the regular expressions of the module find; the expressions
    themselves are not modelled. *)
Record Match : Type := mkMatch {
  group1 : string; group2 : string; group3 : string; group4 : string;
  group5 : string; group6 : string; group7 : string; group8 : string
}.

Record Engine : Type := mkEngine {
  (** [course_pattern.finditer(text)]: the groups of the matches, in order *)
  course_matches : string → list Match;
  (** [requirement_patterns[req_id].finditer(text)]: [start()] and [end()]
      of the matches, in order *)
  finditer : string → string → list (nat * nat);
  (** [credit_pattern.search(context)], and [group(1)] of the match *)
  credit_search : string → option string;
  (** [float]; [None] stands for [ValueError] *)
  float_of_string : string → option PrimFloat.float
}.

(** [with pdfplumber.open(filepath) as pdf: text = ""; for page in pdf.pages:
    text += page.extract_text() + "\n"].  The argument is [None] when the
    file cannot be opened, a page is [None] when it has no text; in both
    cases an exception leaves the [with] block, which is [None] here. *)
Definition read_text (pages : option (list (option string))) : option string :=
  ps ← pages;
  foldl (λ text page,
           t ← text; p ← page;
           Some (t ++ p ++ String (ascii_of_nat 10) EmptyString)%string)
        (Some EmptyString) ps.

(** The body of the loop over the matches in [parse_schedule_pdf]; [None]
    when [float] raises [ValueError] or [faculty.split()[0]] raises
    [IndexError], and the match is skipped. *)
Definition course_of_match (E : Engine) (semester : string) (m : Match)
  : option Course.t :=
  let code := Str.strip (group1 m) in
  let title := Str.strip (group2 m) in
  let faculty := Str.strip (group3 m) in
  credits ← float_of_string E (group4 m);
  let days := Str.strip (group5 m) in
  let time := Str.strip (group6 m) in
  let delivery_mode := Str.strip (group7 m) in
  let description := String.substring 0 200 (Str.strip (group8 m)) in
  first ← head (Str.split faculty);
  let course_id := (code ++ "_" ++ semester ++ "_" ++ first)%string in
  Some (Course.mk course_id code title faculty credits days time semester
                  delivery_mode description ∅).

(** [CourseScheduleParser.parse_schedule_pdf] *)
Definition parse_schedule_pdf (E : Engine) (pages : option (list (option string)))
    (semester : string) : list Course.t :=
  match read_text pages with
  | Some text => omap (course_of_match E semester) (course_matches E text)
  | None => []
  end.

(** The keys of [requirement_patterns] *)
Definition requirement_patterns : list string :=
  [ "bible"; "historical"; "interreligious"; "practical"; "theology_ethics";
    "field_ed"; "electives" ].

Definition core_requirements : list (string * string * PrimFloat.float) :=
  [ ("bible", "Bible/Sacred Texts", 12%float);
    ("historical", "Historical Studies", 9%float);
    ("interreligious", "Interreligious Engagement", 6%float);
    ("practical", "Practical Theology", 12%float);
    ("theology_ethics", "Theology & Ethics", 12%float);
    ("field_ed", "Field Education", 6%float);
    ("electives", "Electives", 15%float) ].

(** [text[start:end]] for [start <= end <= len(text)] *)
Definition slice (text : string) (start end_ : nat) : string :=
  String.substring start (end_ - start) text.

(** The part of the loop body that follows the search of the text:
    [if not any(r.id == req_id for r in requirements): requirements.append(...)] *)
Definition append_default (req_id label : string) (default_credits : PrimFloat.float)
    (requirements : list Requirement.t) : list Requirement.t :=
  if existsb (λ r, bool_decide (Requirement.id r = req_id)) requirements
  then requirements
  else requirements ++ [Requirement.mk req_id label default_credits ∅].

(** One turn of the loop over [core_requirements]; [None] when [float]
    raises, which happens before anything is appended. *)
Definition core_iteration (E : Engine) (text : string)
    (requirements : list Requirement.t) (core : string * string * PrimFloat.float)
  : option (list Requirement.t) :=
  let '(req_id, label, default_credits) := core in
  let first_match :=
    if decide (req_id ∈ requirement_patterns)
    then head (finditer E req_id text) else None in
  match first_match with
  | Some (match_start, match_end) =>
      let start := Nat.max 0 (match_start - 200) in
      let end_ := Nat.min (String.length text) (match_end + 200) in
      let context := slice text start end_ in
      credits ← match credit_search E context with
                | Some group => float_of_string E group
                | None => Some default_credits
                end;
      Some (append_default req_id label default_credits
              (requirements ++ [Requirement.mk req_id label credits ∅]))
  | None => Some (append_default req_id label default_credits requirements)
  end.

(** The loop; an exception ends it, and [except Exception] leaves the list
    as it is by then. *)
Fixpoint core_loop (E : Engine) (text : string)
    (requirements : list Requirement.t) (cores : list (string * string * PrimFloat.float))
  : list Requirement.t :=
  match cores with
  | [] => requirements
  | core :: rest =>
      match core_iteration E text requirements core with
      | Some requirements' => core_loop E text requirements' rest
      | None => requirements
      end
  end.

(** [MDivRequirementParser.parse_mdiv_requirements] *)
Definition parse_mdiv_requirements (E : Engine)
    (pages : option (list (option string))) : list Requirement.t :=
  match read_text pages with
  | Some text => core_loop E text [] core_requirements
  | None => []
  end.

Definition mssw_requirements : list (string * string * PrimFloat.float) :=
  [ ("mssw_core", "MSSW Core Courses", 30%float);
    ("integrative_seminar", "Integrative Seminar", 3%float);
    ("social_work_practice", "Social Work Practice", 12%float);
    ("social_work_research", "Social Work Research", 6%float);
    ("social_work_policy", "Social Work Policy", 6%float) ].

(** [DualDegreeParser.parse_dual_degree_requirements] *)
Definition parse_dual_degree_requirements
    (pages : option (list (option string))) : list Requirement.t :=
  match read_text pages with
  | Some _ =>
      (λ '(req_id, label, credits), Requirement.mk req_id label credits ∅)
        <$> mssw_requirements
  | None => []
  end.

(** [parse_all_data]; the four arguments after the engine are what
    [pdfplumber] reads from the four files the function names. *)
Definition parse_all_data (E : Engine)
    (fall spring mdiv dual : option (list (option string)))
  : list Course.t * list Requirement.t :=
  let courses :=
    parse_schedule_pdf E fall "Fall 2025" ++
    parse_schedule_pdf E spring "Spring 2026" in
  let requirements :=
    parse_mdiv_requirements E mdiv ++ parse_dual_degree_requirements dual in
  link_courses_to_requirements courses requirements.

End Parsers.

(** ** scripts/parsers.py *)

Module ScriptsParsers.

(** What [pdfplumber] yields for one page: [page.extract_tables()] (cells
    may be [None]) and [page.extract_text()] (may be [None]). *)
Record Page : Type := mkPage {
  extract_tables : list (list (list (option string)));
  extract_text : option string
}.

(** The environment the module runs in. *)
Record Env : Type := mkEnv {
  (** [os.getenv("DATA_DIR", "./_context")] at import time *)
  DATA_DIR : string;
  (** [os.path.exists] *)
  path_exists : string → bool;
  (** [os.listdir] *)
  listdir : string → result (list string);
  (** [pdfplumber.open(path)] read to the end: its pages, or the failure *)
  pdf_pages : string → result (list Page);
  (** [rtf_to_text is not None] *)
  striprtf_installed : bool;
  (** [rtf_to_text(open(path).read())], or the failure *)
  rtf_text : string → result string;
  (** the builtin [float] on a string; [None] when it raises [ValueError] *)
  float_of_string : string → option Q
}.

Definition REQ_MAP : PyDict.dict (list string) :=
  [ ("BX", ["Bible/Sacred Texts"]);
    ("BIBL", ["Bible/Sacred Texts"]);
    ("HB", ["Bible/Sacred Texts"]);
    ("NT", ["Bible/Sacred Texts"]);
    ("CH", ["Historical Studies"]);
    ("HS", ["Historical Studies"]);
    ("PR", ["Practical Theology"]);
    ("PT", ["Practical Theology"]);
    ("TH", ["Theology & Ethics"]);
    ("ETH", ["Theology & Ethics"]);
    ("IE", ["Interreligious Engagement"]);
    ("SW", ["MSSW Core Courses"]) ].

(** [float(s)] *)
Definition float (env : Env) (s : string) : result Q :=
  match float_of_string env s with
  | Some q => Ok q
  | None => Raise (ValueError ("could not convert string to float: " ++ s)%string)
  end.

(** [str(cell).strip()] is not empty, for a cell that is not [None]. *)
Definition cell_filled (cell : option string) : bool :=
  match cell with
  | Some s => negb (bool_decide (Str.strip s = EmptyString))
  | None => false
  end.

(** [_table_rows_from_pdf]: a failure of the reader is logged and the rows
    collected so far, none in this model, are returned. *)
Definition _table_rows_from_pdf (env : Env) (path : string) : list (list string) :=
  match pdf_pages env path with
  | Ok pages =>
      page ← pages;
      tbl ← extract_tables page;
      r ← tbl;
      if existsb cell_filled r
      then [ (λ cell, match cell with Some s => Str.strip s | None => EmptyString end) <$> r ]
      else []
  | Raise _ => []
  end.

Definition _fallback_rows_from_text (text : string) : list (list string) :=
  raw_line ← Str.split_lines text;
  let line := Str.rstrip raw_line in
  let parts := Str.re_split_space2 line in
  let parts :=
    Str.strip <$> filter (λ p, Str.strip p ≠ EmptyString) parts in
  match parts with
  | [] => []
  | _ => [parts]
  end.

(** The path [extract_rows] and [parse_file] work on. *)
Definition resolve (env : Env) (path : string) : string :=
  Str.path_join (DATA_DIR env) (Str.basename path).

Definition extract_rows (env : Env) (path : string) : result (list (list string)) :=
  let path := resolve env path in
  if negb (path_exists env path) then Raise (FileNotFoundError path)
  else if Str.endswith (Str.lower path) ".pdf" then
    match _table_rows_from_pdf env path with
    | (_ :: _) as rows => Ok rows
    | [] =>
        pages ← pdf_pages env path;
        let text :=
          Str.join (String (ascii_of_nat 10) EmptyString)
                   ((λ page, default EmptyString (extract_text page)) <$> pages) in
        Ok (_fallback_rows_from_text text)
    end
  else if Str.endswith (Str.lower path) ".rtf" then
    if negb (striprtf_installed env)
    then Raise (RuntimeError "striprtf is required for RTF parsing")
    else
      text ← rtf_text env path;
      Ok (_fallback_rows_from_text text)
  else Raise (ValueError ("Unsupported file format: " ++ path)%string).

(** [_HEADER_KEYWORDS.items()], in source order. *)
Definition _HEADER_KEYWORDS : list (string * string) :=
  [ ("course code", "Course Code");
    ("course title", "Course Title");
    ("credits", "Credits");
    ("instructor", "Instructor");
    ("days", "Days/Times");
    ("days/times", "Days/Times");
    ("description", "Description") ].

Definition is_header_row (row : list string) : bool :=
  let row_join := Str.join " " (Str.lower <$> row) in
  Str.contains "course" row_join && Str.contains "code" row_join.

Fixpoint find_header_from (i : nat) (rows : list (list string)) : result nat :=
  match rows with
  | [] => Raise (RuntimeError "Header row with 'Course Code' not found.")
  | row :: rows' => if is_header_row row then Ok i else find_header_from (S i) rows'
  end.

Definition _find_header_row (rows : list (list string)) : result nat :=
  find_header_from 0 rows.

(** The inner loop of [_build_col_index]: the canonical name of the first
    keyword, in table order, that occurs in the cell. *)
Definition first_keyword (cell_clean : string) : option string :=
  snd <$> List.find (λ entry, Str.contains entry.1 cell_clean) _HEADER_KEYWORDS.

(** The outer loop: [mapping[canonical] = idx] for every cell with a keyword. *)
Definition build_mapping (header_row : list string) : gmap string nat :=
  foldl (λ mapping item,
           match first_keyword (Str.lower (Str.strip item.2)) with
           | Some canonical => <[canonical := item.1]> mapping
           | None => mapping
           end)
        ∅ (imap pair header_row).

Definition _build_col_index (header_row : list string) : result (gmap string nat) :=
  let mapping := build_mapping header_row in
  match List.find (λ req, bool_decide (mapping !! req = None))
                  ["Course Code"; "Course Title"; "Credits"] with
  | Some req =>
      Raise (RuntimeError ("Required column '" ++ req ++ "' missing from header.")%string)
  | None => Ok mapping
  end.

(** A scraped course: the dictionary [row_to_course] builds, with the key
    ["fields"] that [parse_file] adds (empty until then). *)
Record CourseDict : Type := mkCourseDict {
  code : string;
  title : string;
  credits : Q;
  professor : string;
  schedule : string;
  description : string;
  fields : list string
}.

(** The local function [_get] of [row_to_course]. *)
Definition _get (row : list string) (col_index : gmap string nat) (col : string)
  : string :=
  match col_index !! col with
  | Some idx => default EmptyString (row !! idx)
  | None => EmptyString
  end.

Definition row_to_course (env : Env) (row : list string)
    (col_index : gmap string nat) : result CourseDict :=
  let code_raw := _get row col_index "Course Code" in
  credits ←
    (if bool_decide (_get row col_index "Credits" = EmptyString) then Ok 0%Q
     else
       token ← item0 (Str.re_split_space (_get row col_index "Credits"));
       float env token);
  Ok (mkCourseDict (Str.strip code_raw)
        (Str.strip (_get row col_index "Course Title"))
        credits
        (Str.strip (_get row col_index "Instructor"))
        (Str.strip (_get row col_index "Days/Times"))
        (Str.strip (_get row col_index "Description"))
        []).

Definition append_description (text : string) (c : CourseDict) : CourseDict :=
  mkCourseDict (code c) (title c) (credits c) (professor c) (schedule c)
               (description c ++ text)%string (fields c).

Definition with_fields (fs : list string) (c : CourseDict) : CourseDict :=
  mkCourseDict (code c) (title c) (credits c) (professor c) (schedule c)
               (description c) fs.

(** The text a continuation row adds to the previous course. *)
Definition continuation_text (raw_row : list string) (col_index : gmap string nat)
  : string :=
  match col_index !! "Description" with
  | Some idx =>
      match raw_row !! idx with
      | Some cell => (" " ++ cell)%string
      | None => (" " ++ Str.join " " raw_row)%string
      end
  | None => (" " ++ Str.join " " raw_row)%string
  end.

(** [l[-1] = f(l[-1])] on a list that is not empty. *)
Fixpoint alter_last {A} (f : A → A) (l : list A) : list A :=
  match l with
  | [] => []
  | [x] => [f x]
  | x :: l' => x :: alter_last f l'
  end.

(** The loop over the rows that follow the header.  [prev_course] is the
    last element of [courses] whenever it is not [None]. *)
Fixpoint assemble (env : Env) (col_index : gmap string nat)
    (courses : list CourseDict) (rows : list (list string))
  : result (list CourseDict) :=
  match rows with
  | [] => Ok courses
  | raw_row :: rows' =>
      match raw_row with
      | [] => assemble env col_index courses rows'
      | _ =>
          code_idx ← match col_index !! "Course Code" with
                     | Some idx => Ok idx
                     | None => Raise (KeyError "Course Code")
                     end;
          let course_code := default EmptyString (raw_row !! code_idx) in
          if bool_decide (Str.strip course_code = EmptyString) then
            assemble env col_index
              (alter_last (append_description (continuation_text raw_row col_index))
                          courses)
              rows'
          else
            course ← row_to_course env raw_row col_index;
            assemble env col_index (courses ++ [course]) rows'
      end
  end.

(** The lookup prefix of a course code: [re.split(r"\s", c["code"])[0]]. *)
Definition prefix_of (code : string) : result string :=
  item0 (Str.re_split_space code).

(** [for f in fields: totals[f] += credits] on a [defaultdict(float)] *)
Definition add_credits (credits : Q) (totals : PyDict.dict Q) (fs : list string)
  : PyDict.dict Q :=
  foldl (λ totals f,
           PyDict.set f (default 0%Q (PyDict.get f totals) + credits)%Q totals)
        totals fs.

(** The requirement mapping and credit tally of [parse_file]. *)
Fixpoint tag_and_tally (courses : list CourseDict) (totals : PyDict.dict Q)
  : result (list CourseDict * PyDict.dict Q) :=
  match courses with
  | [] => Ok ([], totals)
  | c :: courses' =>
      prefix ← prefix_of (code c);
      let fs := default [] (PyDict.get prefix REQ_MAP) in
      '(tagged, totals') ← tag_and_tally courses' (add_credits (credits c) totals fs);
      Ok (with_fields fs c :: tagged, totals')
  end.

Record Parsed : Type := mkParsed {
  courses : list CourseDict;
  totals : PyDict.dict Q
}.

(** [parse_file]; its handler logs the exception and raises it again. *)
Definition parse_file (env : Env) (path : string) : result Parsed :=
  let path := resolve env path in
  rows ← extract_rows env path;
  header_idx ← _find_header_row rows;
  header ← match rows !! header_idx with
           | Some row => Ok row
           | None => Raise IndexError
           end;
  col_index ← _build_col_index header;
  assembled ← assemble env col_index [] (drop (S header_idx) rows);
  '(tagged, totals) ← tag_and_tally assembled [];
  Ok (mkParsed tagged totals).

(** The first loop of [parse_directory]: every exception of [parse_file]
    is caught and the file skipped. *)
Definition parse_each (env : Env) (directory : string) (names : list string)
  : list Parsed :=
  foldl (λ data fname,
           if Str.endswith (Str.lower fname) ".pdf"
              || Str.endswith (Str.lower fname) ".rtf"
           then match parse_file env (Str.path_join directory fname) with
                | Ok d => data ++ [d]
                | Raise _ => data
                end
           else data)
        [] names.

(** The second loop: course lists concatenated, totals summed per key. *)
Definition aggregate (data : list Parsed) : Parsed :=
  foldl (λ agg d,
           mkParsed (courses agg ++ courses d)
                    (foldl (λ agg_totals item,
                              PyDict.set item.1
                                (default 0%Q (PyDict.get item.1 agg_totals) + item.2)%Q
                                agg_totals)
                           (totals agg) (totals d)))
        (mkParsed [] []) data.

(** [parse_directory(directory)]; [directory or DATA_DIR] also replaces
    the empty string. *)
Definition parse_directory (env : Env) (directory : option string) : result Parsed :=
  let directory :=
    match directory with
    | Some (String c s) => String c s
    | _ => DATA_DIR env
    end in
  names ← listdir env directory;
  Ok (aggregate (parse_each env directory names)).

End ScriptsParsers.

(** ** backend/parse_courses.py *)

Module ParseCourses.

Definition REQ_MAP : PyDict.dict (list string) :=
  [ ("BX", ["Bible/Sacred Texts"]);
    ("NT", ["Bible/Sacred Texts"; "Cross-Testament"]);
    ("CH", ["Historical Studies"]);
    ("HB", ["Bible/Sacred Texts"]);
    ("OT", ["Bible/Sacred Texts"]);
    ("TH", ["Theological Studies"]);
    ("PT", ["Practical Theology"]);
    ("ET", ["Ethics"]);
    ("SW", ["Social Work"]);
    ("MSSW", ["Social Work"]) ].

Record CourseDict : Type := mkCourseDict {
  code : string;
  title : string;
  credits : Q;
  professor : string;
  schedule : string;
  description : string;
  fields : list string;
  delivery : string
}.

Definition with_fields (fs : list string) (c : CourseDict) : CourseDict :=
  mkCourseDict (code c) (title c) (credits c) (professor c) (schedule c)
               (description c) fs (delivery c).

(** [s.replace('.', '', 1)] *)
Fixpoint remove_first_dot (s : string) : string :=
  match s with
  | EmptyString => EmptyString
  | String c s' => if bool_decide (c = "."%char) then s' else String c (remove_first_dot s')
  end.

Fixpoint all_digits (s : string) : bool :=
  match s with
  | EmptyString => true
  | String c s' => Str.is_digit c && all_digits s'
  end.

(** [s.isdigit()] *)
Definition isdigit (s : string) : bool :=
  negb (bool_decide (s = EmptyString)) && all_digits s.

(** [row_to_course(row)]: the fields by position; [float] is the reader of
    the builtin, [None] when it raises. *)
Definition row_to_course (float_of_string : string → option Q) (row : list string)
  : result CourseDict :=
  credits ←
    match row !! 2%nat with
    | Some cell =>
        if isdigit (remove_first_dot cell) then
          match float_of_string cell with
          | Some q => Ok q
          | None => Raise (ValueError ("could not convert string to float: " ++ cell)%string)
          end
        else Ok 0%Q
    | None => Ok 0%Q
    end;
  Ok (mkCourseDict (default EmptyString (row !! 0%nat))
        (default EmptyString (row !! 1%nat))
        credits
        (default EmptyString (row !! 3%nat))
        (default EmptyString (row !! 4%nat))
        (default EmptyString (row !! 5%nat))
        [] EmptyString).

(** [re.match(r"^[A-Z]{2,4}\d{2,4}[A-Z]?", first_col)], the test by which
    [parse_pdf_to_json] takes a row for a course: two to four capitals and
    then at least two digits. *)
Definition is_capital (c : ascii) : bool :=
  let n := nat_of_ascii c in (65 <=? n)%nat && (n <=? 90)%nat.

Fixpoint capitals_then_digits (n : nat) (s : string) : bool :=
  match s with
  | String c s' =>
      if is_capital c then
        match n with
        | S (S (S (S _))) => false
        | _ => capitals_then_digits (S n) s'
        end
      else
        (2 <=? n)%nat && Str.is_digit c &&
        match s' with
        | String c' _ => Str.is_digit c'
        | EmptyString => false
        end
  | EmptyString => false
  end.

Definition looks_like_course_code (first_col : string) : bool :=
  capitals_then_digits 0 first_col.

(** The lookup prefix: [course["code"].split()[0] if course["code"] else ""]. *)
Definition prefix_of (code : string) : result string :=
  if bool_decide (code = EmptyString) then Ok EmptyString
  else item0 (Str.split code).

(** [assign_fields_and_tally(courses, req_map)]: the tagged courses and
    [dict(field_credits)]. *)
Fixpoint tally (req_map : PyDict.dict (list string)) (courses : list CourseDict)
    (field_credits : PyDict.dict Q) : result (list CourseDict * PyDict.dict Q) :=
  match courses with
  | [] => Ok ([], field_credits)
  | course :: courses' =>
      prefix ← prefix_of (code course);
      let fs := default [] (PyDict.get prefix req_map) in
      '(tagged, field_credits') ←
        tally req_map courses'
              (ScriptsParsers.add_credits (credits course) field_credits fs);
      Ok (with_fields fs course :: tagged, field_credits')
  end.

Definition assign_fields_and_tally (courses : list CourseDict)
    (req_map : PyDict.dict (list string))
  : result (list CourseDict * PyDict.dict Q) :=
  tally req_map courses [].

(** [re.sub(r"\s+", " ", s)]: every maximal run of whitespace becomes one
    blank. *)
Fixpoint collapse_spaces (s : string) : string :=
  match s with
  | EmptyString => EmptyString
  | String c s' =>
      if Str.is_space c then
        match s' with
        | String c' _ =>
            if Str.is_space c' then collapse_spaces s'
            else String " " (collapse_spaces s')
        | EmptyString => String " " EmptyString
        end
      else String c (collapse_spaces s')
  end.

Definition with_description (text : string) (c : CourseDict) : CourseDict :=
  mkCourseDict (code c) (title c) (credits c) (professor c) (schedule c)
               text (fields c) (delivery c).

(** One turn of the loop over the rows in [parse_pdf_to_json]; [courses]
    is the list built so far and [last_course], when it is not [None], its
    last element. *)
Definition scan_row (float_of_string : string → option Q)
    (courses : list CourseDict) (row : list string) : result (list CourseDict) :=
  if negb (existsb (λ cell, negb (bool_decide (Str.strip cell = EmptyString))) row)
  then Ok courses
  else
    let first_col := match row with cell :: _ => Str.strip cell | [] => EmptyString end in
    if looks_like_course_code first_col then
      course ← row_to_course float_of_string row;
      Ok (courses ++ [course])
    else
      match courses with
      | [] => Ok courses
      | _ =>
          if bool_decide (first_col = EmptyString) then Ok courses
          else
            let text :=
              if (1 <? length row)%nat
              then (" " ++ Str.strip (Str.join " " row))%string
              else (" " ++ first_col)%string in
            Ok (ScriptsParsers.alter_last
                  (λ c, with_description (description c ++ text)%string c) courses)
      end.

Fixpoint scan_rows (float_of_string : string → option Q)
    (courses : list CourseDict) (rows : list (list string))
  : result (list CourseDict) :=
  match rows with
  | [] => Ok courses
  | row :: rows' =>
      courses' ← scan_row float_of_string courses row;
      scan_rows float_of_string courses' rows'
  end.

Record Output : Type := mkOutput {
  semester : string;
  totals : PyDict.dict Q;
  courses : list CourseDict
}.

(** [parse_pdf_to_json], from the rows that [extract_rows(pdf_path)]
    returned. *)
Definition parse_pdf_to_json (float_of_string : string → option Q)
    (rows : list (list string)) (semester : string)
    (req_map : PyDict.dict (list string)) : result Output :=
  courses ← scan_rows float_of_string [] rows;
  let valid_courses :=
    (λ course,
       with_description (Str.strip (collapse_spaces (description course))) course)
      <$> filter (λ course, code course ≠ EmptyString ∧ title course ≠ EmptyString)
                 courses in
  '(tagged, totals) ← assign_fields_and_tally valid_courses req_map;
  Ok (mkOutput semester totals tagged).

End ParseCourses.

(** ** The vocabulary of the specification

    Predicates and reference functions that the statements of Part II use.
    They follow the wording of the specification and are compared with
    the embedded code there. *)

Module Spec.

(** A course identity is selected in a semester of a plan. *)
Definition selected (p : Plan.t) (semester course_id : string) : Prop :=
  ∃ ids, PyDict.get semester (Plan.selections p) = Some ids ∧ course_id ∈ ids.

(** "No course identity appears twice within the same semester's sequence." *)
Definition no_duplicates (p : Plan.t) : Prop :=
  ∀ semester ids,
    PyDict.get semester (Plan.selections p) = Some ids → NoDup ids.

(** The plans that a fresh plan reaches by adding and removing courses. *)
Inductive reachable : Plan.t → Prop :=
  | reachable_fresh now : reachable (Plan.fresh now)
  | reachable_add now semester course_id p p' :
      reachable p →
      Plan.add_course now semester course_id p = Ok p' →
      reachable p'
  | reachable_remove now semester course_id p p' :
      reachable p →
      Plan.remove_course now semester course_id p = Ok p' →
      reachable p'.

(** The catalog course an identity denotes: the last course of the catalog
    that carries it. *)
Definition catalog_course (courses : list Course.t) (course_id : string)
  : option Course.t :=
  List.find (λ c, bool_decide (Course.id c = course_id)) (reverse courses).

(** Every selected identity, semester after semester, with repetitions. *)
Definition selected_ids (p : Plan.t) : list string :=
  concat (PyDict.values (Plan.selections p)).

(** The selected catalog courses that satisfy a requirement, one for every
    occurrence of their identity in the selections. *)
Definition counted (courses : list Course.t) (req_id : string) (ids : list string)
  : list Course.t :=
  omap (λ course_id,
          c ← catalog_course courses course_id;
          if decide (req_id ∈ Course.satisfies c) then Some c else None)
       ids.

(** The credits of a list of courses added to a running total, one
    after the other in the order of the list, each addition rounded as a
    float addition is. *)
Definition accumulate (total : PrimFloat.float) (cs : list Course.t)
  : PrimFloat.float :=
  foldl (λ total c, (total + Course.credits c)%float) total cs.

(** "The sum of credits" of a list of courses: accumulated from 0.0. *)
Definition sum_credits (cs : list Course.t) : PrimFloat.float :=
  accumulate 0%float cs.

(** The credits a plan collects for a requirement. *)
Definition satisfied_credits (p : Plan.t) (courses : list Course.t)
    (req_id : string) : PrimFloat.float :=
  sum_credits (counted courses req_id (selected_ids p)).

(** The courses the claim sums over: the catalog courses whose id appears
    in the selections and whose [satisfies] set contains the requirement
    id, each course once, in catalog order. *)
Definition catalog_selected (p : Plan.t) (courses : list Course.t) (req_id : string)
  : list Course.t :=
  filter (λ c, Course.id c ∈ selected_ids p ∧ req_id ∈ Course.satisfies c) courses.

(** The credits of the catalog courses that a sequence of identities
    denotes, one for every occurrence. *)
Definition catalog_credits (courses : list Course.t) (ids : list string)
  : PrimFloat.float :=
  sum_credits (omap (catalog_course courses) ids).

(** Number of occurrences of an identity in a sequence. *)
Definition occurrences (course_id : string) (ids : list string) : nat :=
  length (filter (λ x, x = course_id) ids).

(** A requirement is met by a plan. *)
Definition met (p : Plan.t) (courses : list Course.t) (r : Requirement.t) : Prop :=
  (Requirement.min_credits r <=? satisfied_credits p courses (Requirement.id r))%float
  = true.

(** "Count of requirements with [is_met == true]." *)
Definition met_count (p : Plan.t) (courses : list Course.t)
    (requirements : list Requirement.t) : nat :=
  length (List.filter
            (λ r, (Requirement.min_credits r
                   <=? satisfied_credits p courses (Requirement.id r))%float)
            requirements).

(** A header cell names a canonical field: some keyword of the table occurs
    in the cell, compared without regard to case and surrounding blanks, and
    the first such keyword in table order stands for that field. *)
Definition cell_names (cell canonical : string) : Prop :=
  ∃ k key,
    ScriptsParsers._HEADER_KEYWORDS !! k = Some (key, canonical) ∧
    Str.contains key (Str.lower (Str.strip cell)) = true ∧
    ∀ k' entry,
      (k' < k)%nat → ScriptsParsers._HEADER_KEYWORDS !! k' = Some entry →
      Str.contains entry.1 (Str.lower (Str.strip cell)) = false.

(** "First cell wins ties for a keyword already mapped": a mapped field
    points at the first cell of the header that names it. *)
Definition first_cell_wins (header : list string) (mapping : gmap string nat) : Prop :=
  ∀ canonical i j cell,
    mapping !! canonical = Some i →
    header !! j = Some cell → cell_names cell canonical → (i ≤ j)%nat.

(** The opposite policy: a mapped field points at the last such cell. *)
Definition last_cell_wins (header : list string) (mapping : gmap string nat) : Prop :=
  ∀ canonical i j cell,
    mapping !! canonical = Some i →
    header !! j = Some cell → cell_names cell canonical → (j ≤ i)%nat.

(** The lookup prefix as the specification words it: the leading
    alphabetic run of the course code, before the first digit. *)
Definition is_alpha (c : ascii) : bool :=
  let n := nat_of_ascii c in
  ((65 <=? n)%nat && (n <=? 90)%nat) || ((97 <=? n)%nat && (n <=? 122)%nat).

Fixpoint alpha_prefix (code : string) : string :=
  match code with
  | String c code' => if is_alpha c then String c (alpha_prefix code') else EmptyString
  | EmptyString => EmptyString
  end.

(** The two sides of the tag relation agree on two lists: "every course id
    in [satisfied_by] has that requirement id in its own [satisfies] set,
    and vice versa". *)
Definition consistent (courses : list Course.t) (requirements : list Requirement.t)
  : Prop :=
  ∀ c r, c ∈ courses → r ∈ requirements →
    (Course.id c ∈ Requirement.satisfied_by r ↔
     Requirement.id r ∈ Course.satisfies c).

(** Both lists start with empty [satisfies] and [satisfied_by] sets. *)
Definition untagged (courses : list Course.t) (requirements : list Requirement.t)
  : Prop :=
  (∀ c, c ∈ courses → Course.satisfies c = ∅) ∧
  (∀ r, r ∈ requirements → Requirement.satisfied_by r = ∅).

(** A keyword of the entries [entries] for the requirement id occurs in
    the text. *)
Definition keyword_match (entries : list (string * list string))
    (text req_id : string) : Prop :=
  ∃ keywords, (req_id, keywords) ∈ entries ∧
              Parsers.any_keyword text keywords = true.

(** A tagging step keeps the identity of a course and the text that the
    keywords are searched in. *)
Definition same_course (c c' : Course.t) : Prop :=
  Course.id c' = Course.id c ∧ Parsers.course_text c' = Parsers.course_text c.

(** A string holds a decimal digit. *)
Fixpoint has_digit (s : string) : bool :=
  match s with
  | String c s' => Str.is_digit c || has_digit s'
  | EmptyString => false
  end.

(** What a second pass of [format_days] makes of a day name: the first
    letter of [Thu] is the key of [Tue]. *)
Definition second_pass (n : string) : string :=
  if decide (n = "Thu") then "Tue" else n.

(** The course side of one turn of the loop over the mapping in
    [link_courses_to_requirements]. *)
Definition tag_entry (text : string) (c : Course.t) (entry : string * list string)
  : Course.t :=
  if Parsers.any_keyword text entry.2 then Course.add_satisfies entry.1 c else c.

(** A requirement after tagging steps: all but [satisfied_by] is kept,
    [satisfied_by] has grown, and only by ids that [S] allows for the
    requirement id. *)
Definition grown (S : string → string → Prop) (r r' : Requirement.t) : Prop :=
  Requirement.id r' = Requirement.id r ∧
  Requirement.label r' = Requirement.label r ∧
  Requirement.min_credits r' = Requirement.min_credits r ∧
  Requirement.satisfied_by r ⊆ Requirement.satisfied_by r' ∧
  ∀ x, x ∈ Requirement.satisfied_by r' →
       x ∈ Requirement.satisfied_by r ∨ S x (Requirement.id r).

(** A row as both extraction steps of [scripts/parsers.py] leave it: some
    cell is not empty, and no cell has blanks at its ends. *)
Definition clean_row (row : list string) : Prop :=
  (∃ cell, cell ∈ row ∧ cell ≠ EmptyString) ∧
  Forall (λ cell, Str.strip cell = cell) row.

(** The credits of the scraped courses that carry a field label. *)
Definition field_credits (f : string) (cs : list ScriptsParsers.CourseDict) : Q :=
  foldr Qplus 0%Q
        (ScriptsParsers.credits <$> filter (λ c, f ∈ ScriptsParsers.fields c) cs).

(** The totals of a parse result are those of its courses: a label has a
    total exactly when some course carries it, the total is the sum of the
    credits of these courses, and no label has two totals. *)
Definition totals_agree (parsed : ScriptsParsers.Parsed) : Prop :=
  NoDup (PyDict.keys (ScriptsParsers.totals parsed)) ∧
  ∀ f, (is_Some (PyDict.get f (ScriptsParsers.totals parsed)) ↔
        ∃ c, c ∈ ScriptsParsers.courses parsed ∧ f ∈ ScriptsParsers.fields c) ∧
       (default 0%Q (PyDict.get f (ScriptsParsers.totals parsed)) ==
        field_credits f (ScriptsParsers.courses parsed))%Q.

(** The field labels [parse_file] gives a scraped course: the entry of the
    first token of its code in [REQ_MAP], or none. *)
Definition fields_of (c : ScriptsParsers.CourseDict) : list string :=
  default [] (PyDict.get (hd EmptyString (Str.re_split_space (ScriptsParsers.code c)))
                         ScriptsParsers.REQ_MAP).

End Spec.

(** ** Worked data

    The scenario of the specification: the requirement [bible] with a
    minimum of 12 credits and two satisfying courses of 6 credits, selected
    in different semesters.  [repeated] selects one of them in both. *)

Module Scenario.

Definition bible : Requirement.t :=
  Requirement.mk "bible" "Bible/Sacred Texts" 12%float ∅.

Definition historical : Requirement.t :=
  Requirement.mk "historical" "Historical Studies" 9%float ∅.

Definition bibl101 : Course.t :=
  Course.mk "BIBL101_Fall2025_Smith" "BIBL 101" "Introduction to Biblical Studies"
            "Dr. Smith" 6%float "MW" "10:00-11:30" "Fall 2025" "In Person"
            "An introduction to the study of biblical texts." {["bible"]}.

Definition bibl201 : Course.t :=
  Course.mk "BIBL201_Spring2026_Smith" "BIBL 201" "Prophets"
            "Dr. Smith" 6%float "TR" "10:00-11:30" "Spring 2026" "In Person"
            "The prophetic literature." {["bible"]}.

Definition catalog : list Course.t := [bibl101; bibl201].

Definition requirements : list Requirement.t := [bible; historical].

Definition plan : Plan.t :=
  Plan.mk [ ("Fall 2025", ["BIBL101_Fall2025_Smith"]);
            ("Spring 2026", ["BIBL201_Spring2026_Smith"]) ]
          EmptyString 0%Z 0%Z.

Definition repeated : Plan.t :=
  Plan.mk [ ("Fall 2025", ["BIBL101_Fall2025_Smith"]);
            ("Spring 2026", ["BIBL101_Fall2025_Smith"]) ]
          EmptyString 0%Z 0%Z.

(** A header row in which two cells name the field [Credits]. *)
Definition header_two_credits : list string :=
  ["Course Code"; "Course Title"; "Credits"; "Credits Earned"].

(** A column mapping for rows of the form code, title, credits. *)
Definition col_index : gmap string nat :=
  ScriptsParsers.build_mapping ["Course Code"; "Course Title"; "Credits"].

(** A row whose credits cell is not a number. *)
Definition row_tbd : list string := ["BIBL 101"; "Intro to Biblical Studies"; "TBD"].

(** An environment holding one PDF, [./_context/fall.pdf], with one table:
    a header, two courses and the row above. *)
Definition env_tbd : ScriptsParsers.Env :=
  ScriptsParsers.mkEnv "./_context"
    (λ p, bool_decide (p = "./_context/fall.pdf"))
    (λ _, Ok ["fall.pdf"])
    (λ _, Ok [ScriptsParsers.mkPage
                [[ [Some "Course Code"; Some "Course Title"; Some "Credits"];
                   [Some "HB 101"; Some "Hebrew"; Some "3"];
                   Some <$> row_tbd;
                   [Some "NT 101"; Some "Greek"; Some "3"] ]]
                None])
    true (λ _, Raise (ReaderError "not an RTF file")) Str.decimal.

(** Scraped courses with and without a blank in the code. *)
Definition scraped (code : string) (credits : Q) : ScriptsParsers.CourseDict :=
  ScriptsParsers.mkCourseDict code "Title" credits "" "" "" [].

Definition scraped_backend (code : string) (credits : Q) : ParseCourses.CourseDict :=
  ParseCourses.mkCourseDict code "Title" credits "" "" "" [] "".

(** A data directory with four entries: [fall.pdf], whose parse raises on
    the row above; [spring.pdf], well formed; [gone.rtf], listed but
    missing; and [notes.txt]. *)
Definition env_dir : ScriptsParsers.Env :=
  ScriptsParsers.mkEnv "./_context"
    (λ p, bool_decide (p = "./_context/fall.pdf")
          || bool_decide (p = "./_context/spring.pdf")
          || bool_decide (p = "./_context/notes.txt"))
    (λ _, Ok ["fall.pdf"; "gone.rtf"; "spring.pdf"; "notes.txt"])
    (λ p, if bool_decide (p = "./_context/spring.pdf")
          then Ok [ScriptsParsers.mkPage
                     [[ [Some "Course Code"; Some "Course Title"; Some "Credits"];
                        [Some "CH 101"; Some "Church History"; Some "3"] ]]
                     None]
          else ScriptsParsers.pdf_pages env_tbd p)
    true (λ _, Raise (ReaderError "not an RTF file")) Str.decimal.

(** Two requirement objects with one id, and two course objects with one
    id and different titles. *)
Definition bible_again : Requirement.t :=
  Requirement.mk "bible" "Bible/Sacred Texts (dual degree)" 6%float ∅.

Definition untagged_course (id code title : string) : Course.t :=
  Course.mk id code title "Dr. Smith" 3%float "MW" "10:00-11:30" "Fall 2025"
            "In Person" "" ∅.

Definition topics_a : Course.t :=
  untagged_course "TS 300_Fall 2025_Dr." "TS 300" "Topics: Pastoral Care".

Definition topics_b : Course.t :=
  untagged_course "TS 300_Fall 2025_Dr." "TS 300" "Topics: Liberation".

Definition practical : Requirement.t :=
  Requirement.mk "practical" "Practical Theology" 12%float ∅.

Definition intro_bible : Course.t :=
  untagged_course "BIBL 101_Fall 2025_Dr." "BIBL 101" "Introduction".

(** Credits that binary64 does not hold exactly: two courses of 0.1 and
    0.7 credits, selected in this order, against a minimum of 0.8; and a
    course of 1.1 credits between two selections of the first. *)
Definition reading : Requirement.t :=
  Requirement.mk "reading" "Reading Groups" (8 / 10)%float ∅.

Definition reading_group (id code : string) (credits : PrimFloat.float) : Course.t :=
  Course.mk id code "Reading Group" "Dr. Lee" credits "F" "12:00-12:30"
            "Fall 2025" "In Person" "" {["reading"]}.

Definition rg_tenth : Course.t := reading_group "RG101" "RG 101" (1 / 10)%float.
Definition rg_seven_tenths : Course.t := reading_group "RG107" "RG 107" (7 / 10)%float.
Definition rg_eleven_tenths : Course.t := reading_group "RG111" "RG 111" (11 / 10)%float.

Definition reading_catalog : list Course.t :=
  [rg_tenth; rg_seven_tenths; rg_eleven_tenths].

Definition fractions : Plan.t :=
  Plan.mk [ ("Fall 2025", ["RG101"; "RG107"]) ] EmptyString 0%Z 0%Z.

Definition fractions_repeated : Plan.t :=
  Plan.mk [ ("Fall 2025", ["RG101"; "RG111"]); ("Spring 2026", ["RG101"]) ]
          EmptyString 0%Z 0%Z.

End Scenario.

(** * Part II: properties *)

(** ** Dictionaries *)

Section dict_facts.
Context {V : Type}.
Implicit Types (k : string) (v : V) (d : PyDict.dict V).

Lemma dict_get_set_eq k v d : PyDict.get k (PyDict.set k v d) = Some v.
Proof.
  induction d as [|[k' v'] d IH]; simpl.
  - by rewrite decide_True.
  - destruct (decide (k = k')) as [->|Hne]; simpl.
    + by rewrite decide_True.
    + by rewrite decide_False.
Qed.

Lemma dict_get_set_ne k k' v d :
  k ≠ k' → PyDict.get k' (PyDict.set k v d) = PyDict.get k' d.
Proof.
  intros Hne. induction d as [|[k0 v0] d IH]; simpl.
  - by rewrite decide_False.
  - destruct (decide (k = k0)) as [->|Hne0]; simpl.
    + by rewrite !decide_False.
    + by rewrite IH.
Qed.

Lemma dict_get_set k k' v d :
  PyDict.get k' (PyDict.set k v d) = if decide (k = k') then Some v else PyDict.get k' d.
Proof.
  destruct (decide (k = k')) as [->|Hne];
    [apply dict_get_set_eq | by apply dict_get_set_ne].
Qed.

Lemma dict_mem_true k d : PyDict.mem k d = true ↔ is_Some (PyDict.get k d).
Proof.
  unfold PyDict.mem. destruct (PyDict.get k d) as [v|]; split; intros H;
    first [done | by exists v | by destruct H].
Qed.

Lemma dict_mem_false k d : PyDict.mem k d = false ↔ PyDict.get k d = None.
Proof. unfold PyDict.mem. by destruct (PyDict.get k d). Qed.

Lemma dict_getitem_Some k v d : PyDict.get k d = Some v → PyDict.getitem k d = Ok v.
Proof. unfold PyDict.getitem. by intros ->. Qed.

Lemma dict_get_None_keys k d : PyDict.get k d = None ↔ k ∉ PyDict.keys d.
Proof.
  unfold PyDict.keys. induction d as [|[k0 v0] d IH]; simpl.
  - split; [intros _; apply not_elem_of_nil | done].
  - rewrite not_elem_of_cons. destruct (decide (k = k0)) as [->|Hne].
    + split; [done | by intros [? _]].
    + rewrite IH. split; [by intros ? | by intros [_ ?]].
Qed.

(** A new key is appended, with its value. *)
Lemma dict_set_fresh k v d :
  PyDict.get k d = None → PyDict.set k v d = d ++ [(k, v)].
Proof.
  induction d as [|[k0 v0] d IH]; simpl; [done|].
  destruct (decide (k = k0)); [done|]. intros H. by rewrite IH.
Qed.

Lemma dict_set_set k v w d :
  PyDict.set k w (PyDict.set k v d) = PyDict.set k w d.
Proof.
  induction d as [|[k0 v0] d IH]; simpl.
  - by rewrite decide_True.
  - destruct (decide (k = k0)) as [->|Hne]; simpl.
    + by rewrite decide_True.
    + by rewrite decide_False, IH.
Qed.

Lemma dict_get_app_fresh k k' v d :
  PyDict.get k d = None →
  PyDict.get k' (d ++ [(k, v)]) = if decide (k = k') then Some v else PyDict.get k' d.
Proof. intros H. rewrite <- dict_set_fresh by done. apply dict_get_set. Qed.

End dict_facts.

(** ** [Plan.add_course] and [Plan.remove_course] *)

Section plan_facts.
Implicit Types (p : Plan.t) (ids : list string).

Lemma list_remove_elem cid ids :
  cid ∈ ids →
  ∃ l1 l2, ids = l1 ++ (cid :: l2) ∧ (cid ∉ l1) ∧
           Plan.list_remove cid ids = Ok (l1 ++ l2).
Proof.
  induction ids as [|y ids IH]; [by intros ?%elem_of_nil|].
  intros Hin. simpl. destruct (decide (cid = y)) as [->|Hne].
  - exists [], ids. split_and!; [done | apply not_elem_of_nil | done].
  - apply elem_of_cons in Hin as [?|Hin]; [done|].
    destruct (IH Hin) as (l1 & l2 & -> & Hl1 & ->).
    exists (y :: l1), l2. split_and!; [done | | done].
    rewrite not_elem_of_cons. done.
Qed.

Lemma fresh_no_duplicates now : Spec.no_duplicates (Plan.fresh now).
Proof. intros sem ids. simpl. done. Qed.

(** Replacing one semester's sequence by a duplicate free one keeps the
    invariant. *)
Lemma no_duplicates_set p sem ids now :
  Spec.no_duplicates p → NoDup ids →
  Spec.no_duplicates
    (Plan.mk (PyDict.set sem ids (Plan.selections p))
             (Plan.notes p) (Plan.created_at p) now).
Proof.
  intros Hp Hids sem' ids'. simpl. rewrite dict_get_set.
  destruct (decide (sem = sem')); [by intros [= <-] | apply Hp].
Qed.

(** The outcome of [add_course], by cases on the plan before the call. *)
Lemma add_course_cases now sem cid p :
  (Spec.selected p sem cid ∧ Plan.add_course now sem cid p = Ok p) ∨
  (¬ Spec.selected p sem cid ∧
   Plan.add_course now sem cid p =
     Ok (Plan.mk
           (PyDict.set sem (default [] (PyDict.get sem (Plan.selections p)) ++ [cid])
                       (Plan.selections p))
           (Plan.notes p) (Plan.created_at p) now)).
Proof.
  unfold Plan.add_course, Spec.selected.
  destruct (PyDict.mem sem (Plan.selections p)) eqn:Hmem.
  - apply dict_mem_true in Hmem as [ids Hids].
    rewrite (dict_getitem_Some _ _ _ Hids). simpl.
    destruct (decide (cid ∈ ids)) as [Hin|Hnin].
    + left. split; [by exists ids | done].
    + right. split.
      * intros (ids' & Hids' & Hin'). congruence.
      * by rewrite Hids.
  - apply dict_mem_false in Hmem. right. split.
    + intros (ids' & Hids' & _). congruence.
    + simpl. rewrite (dict_getitem_Some sem [] _) by apply dict_get_set_eq.
      simpl. unfold Plan.with_updated_at, Plan.with_selections. simpl.
      by rewrite dict_set_set, Hmem.
Qed.

Lemma add_course_selected now sem cid p p' :
  Plan.add_course now sem cid p = Ok p' → Spec.selected p' sem cid.
Proof.
  destruct (add_course_cases now sem cid p) as [[Hsel ->]|[_ ->]].
  - by intros [= <-].
  - intros [= <-]. eexists. simpl. rewrite dict_get_set_eq. split; [done|].
    apply elem_of_app. right. apply list_elem_of_singleton. done.
Qed.

Lemma add_course_no_duplicates now sem cid p p' :
  Plan.add_course now sem cid p = Ok p' →
  Spec.no_duplicates p → Spec.no_duplicates p'.
Proof.
  destruct (add_course_cases now sem cid p) as [[Hsel ->]|[Hnsel ->]].
  - by intros [= <-].
  - intros [= <-] Hp. apply (no_duplicates_set p sem _ now Hp).
    destruct (PyDict.get sem (Plan.selections p)) as [ids|] eqn:Hids; simpl.
    + apply NoDup_app. split_and!.
      * by apply (Hp sem).
      * intros x Hx ->%list_elem_of_singleton. apply Hnsel. by exists ids.
      * apply NoDup_singleton.
    + apply NoDup_singleton.
Qed.

(** The outcome of [remove_course], by cases on the plan before the call. *)
Lemma remove_course_cases now sem cid p :
  (¬ Spec.selected p sem cid ∧ Plan.remove_course now sem cid p = Ok p) ∨
  (∃ l1 l2,
     PyDict.get sem (Plan.selections p) = Some (l1 ++ (cid :: l2)) ∧ (cid ∉ l1) ∧
     Plan.remove_course now sem cid p =
       Ok (Plan.mk (PyDict.set sem (l1 ++ l2) (Plan.selections p))
                   (Plan.notes p) (Plan.created_at p) now)).
Proof.
  unfold Plan.remove_course, Spec.selected.
  destruct (PyDict.mem sem (Plan.selections p)) eqn:Hmem.
  - apply dict_mem_true in Hmem as [ids Hids].
    rewrite (dict_getitem_Some _ _ _ Hids). simpl.
    destruct (decide (cid ∈ ids)) as [Hin|Hnin].
    + right. destruct (list_remove_elem _ _ Hin) as (l1 & l2 & -> & Hl1 & ->).
      by exists l1, l2.
    + left. split; [|done]. intros (ids' & Hids' & Hin'). congruence.
  - apply dict_mem_false in Hmem. left. split; [|done].
    intros (ids' & Hids' & _). congruence.
Qed.

Lemma remove_course_no_duplicates now sem cid p p' :
  Plan.remove_course now sem cid p = Ok p' →
  Spec.no_duplicates p → Spec.no_duplicates p'.
Proof.
  destruct (remove_course_cases now sem cid p)
    as [[_ ->]|(l1 & l2 & Hget & _ & ->)].
  - by intros [= <-].
  - intros [= <-] Hp. apply (no_duplicates_set p sem _ now Hp).
    specialize (Hp _ _ Hget). apply NoDup_app in Hp as (H1 & H12 & H2).
    apply NoDup_cons in H2 as [_ H2]. apply NoDup_app. split_and!; [done| |done].
    intros x Hx1 Hx2. apply (H12 x Hx1). by apply elem_of_cons; right.
Qed.

(** Every plan built from a fresh one by the two operations is duplicate
    free. *)
Lemma reachable_no_duplicates p : Spec.reachable p → Spec.no_duplicates p.
Proof.
  induction 1 as [now | now sem cid p p' _ IH Hadd | now sem cid p p' _ IH Hrem].
  - apply fresh_no_duplicates.
  - by eapply add_course_no_duplicates.
  - by eapply remove_course_no_duplicates.
Qed.

(** C7.  For every plan, semester and course id, [add_course] returns
    normally and leaves the id selected in the semester; a second
    [add_course] of the same id, at any later clock value, returns the very
    same plan, so [selections] and [updated_at] are as the first call left
    them; and the call creates no duplicate: a plan without a repeated id in
    any semester stays so, and so does every plan built from a fresh one by
    [add_course] and [remove_course]. *)
Theorem add_course_idempotent (now1 now2 : datetime) (sem cid : string) (p : Plan.t) :
  ∃ p1,
    Plan.add_course now1 sem cid p = Ok p1 ∧
    Spec.selected p1 sem cid ∧
    Plan.add_course now2 sem cid p1 = Ok p1 ∧
    (Spec.no_duplicates p → Spec.no_duplicates p1) ∧
    (Spec.reachable p → Spec.no_duplicates p1).
Proof.
  assert (∃ p1, Plan.add_course now1 sem cid p = Ok p1) as [p1 H1].
  { destruct (add_course_cases now1 sem cid p) as [[_ ->]|[_ ->]]; by eexists. }
  exists p1. pose proof (add_course_selected _ _ _ _ _ H1) as Hsel.
  split_and!; [done | done | | by eapply add_course_no_duplicates |].
  - destruct (add_course_cases now2 sem cid p1) as [[_ ->]|[Hn _]]; done.
  - intros Hp. eapply add_course_no_duplicates; [done|].
    by apply reachable_no_duplicates.
Qed.

(** C8.  For every plan, [remove_course] returns normally.  When the id is
    not selected in the semester (or the semester is absent) the plan is
    returned as it was: [selections], [updated_at] and the rest.  Hence a
    changed timestamp means that the id was selected; in that case its first
    occurrence is gone from the semester's sequence and [updated_at] is the
    clock value of the call. *)
Theorem remove_course_absent_noop (now : datetime) (sem cid : string) (p : Plan.t) :
  ∃ p',
    Plan.remove_course now sem cid p = Ok p' ∧
    (¬ Spec.selected p sem cid → p' = p) ∧
    (Plan.updated_at p' ≠ Plan.updated_at p → Spec.selected p sem cid) ∧
    (Spec.selected p sem cid →
       ∃ l1 l2,
         PyDict.get sem (Plan.selections p) = Some (l1 ++ (cid :: l2)) ∧ (cid ∉ l1) ∧
         PyDict.get sem (Plan.selections p') = Some (l1 ++ l2) ∧
         Plan.updated_at p' = now).
Proof.
  destruct (remove_course_cases now sem cid p)
    as [[Hn ->]|(l1 & l2 & Hget & Hl1 & ->)].
  - exists p. split_and!; [done | done | done | done].
  - assert (Spec.selected p sem cid) as Hsel.
    { exists (l1 ++ (cid :: l2)). split; [done|].
      apply elem_of_app. right. apply elem_of_cons. by left. }
    eexists. split_and!; [done | done | done |].
    intros _. exists l1, l2. simpl. by rewrite dict_get_set_eq.
Qed.

End plan_facts.

(** ** The requirement validator *)

Section validator_facts.
Implicit Types (courses : list Course.t) (c : Course.t) (cid rid : string)
  (ids : list string) (plan : Plan.t) (r : Requirement.t).

Lemma catalog_course_snoc courses c cid :
  Spec.catalog_course (courses ++ [c]) cid =
  if decide (Course.id c = cid) then Some c else Spec.catalog_course courses cid.
Proof.
  unfold Spec.catalog_course. rewrite reverse_snoc. simpl.
  unfold bool_decide. by destruct (decide_rel eq (Course.id c) cid).
Qed.

(** The dictionary comprehension and the reference lookup agree. *)
Lemma course_lookup_spec courses cid :
  Utils.course_lookup courses !! cid = Spec.catalog_course courses cid.
Proof.
  unfold Utils.course_lookup.
  induction courses as [|c courses IH] using rev_ind; [done|].
  rewrite foldl_app, catalog_course_snoc. simpl.
  rewrite lookup_insert. destruct (decide (Course.id c = cid)); [done | apply IH].
Qed.

(** A looked up course carries the identity it was looked up by. *)
Lemma catalog_course_Some courses cid c :
  Spec.catalog_course courses cid = Some c → Course.id c = cid ∧ c ∈ courses.
Proof.
  induction courses as [|c' courses IH] using rev_ind; [done|].
  rewrite catalog_course_snoc. destruct (decide (Course.id c' = cid)) as [Heq|Hne].
  - intros [= ->]. split; [done|]. apply elem_of_app. right. by apply list_elem_of_singleton.
  - intros H. destruct (IH H) as [? ?]. split; [done|]. apply elem_of_app. by left.
Qed.

Lemma counted_cons courses rid cid ids :
  Spec.counted courses rid (cid :: ids) =
  match Spec.catalog_course courses cid with
  | Some c => if decide (rid ∈ Course.satisfies c)
              then c :: Spec.counted courses rid ids
              else Spec.counted courses rid ids
  | None => Spec.counted courses rid ids
  end.
Proof.
  unfold Spec.counted. simpl.
  destruct (Spec.catalog_course courses cid) as [c|]; simpl; [|done].
  by destruct (decide (rid ∈ Course.satisfies c)).
Qed.

Lemma counted_app courses rid ids1 ids2 :
  Spec.counted courses rid (ids1 ++ ids2) =
  Spec.counted courses rid ids1 ++ Spec.counted courses rid ids2.
Proof.
  induction ids1 as [|cid ids1 IH]; [done|].
  rewrite <- app_comm_cons, !counted_cons, IH.
  destruct (Spec.catalog_course courses cid) as [c|]; [|done].
  by destruct (decide (rid ∈ Course.satisfies c)).
Qed.

Lemma accumulate_app (total : PrimFloat.float) cs1 cs2 :
  Spec.accumulate total (cs1 ++ cs2) = Spec.accumulate (Spec.accumulate total cs1) cs2.
Proof. unfold Spec.accumulate. apply foldl_app. Qed.

(** The inner loop: the courses appended and the credits added for one
    semester's sequence, in the order of the sequence. *)
Lemma scan_course_foldl courses rid ids acc :
  (foldl (Utils.scan_course (Utils.course_lookup courses) rid) acc ids).1 =
    acc.1 ++ Spec.counted courses rid ids ∧
  (foldl (Utils.scan_course (Utils.course_lookup courses) rid) acc ids).2 =
    Spec.accumulate acc.2 (Spec.counted courses rid ids).
Proof.
  revert acc. induction ids as [|cid ids IH]; intros acc.
  - simpl. split; [by rewrite app_nil_r | done].
  - rewrite counted_cons. cbn [foldl].
    destruct (IH (Utils.scan_course (Utils.course_lookup courses) rid acc cid))
      as [-> ->].
    unfold Utils.scan_course.
    rewrite course_lookup_spec.
    destruct (Spec.catalog_course courses cid) as [c|]; [|done].
    destruct (decide (rid ∈ Course.satisfies c)); simpl.
    + split; [by rewrite <- app_assoc | done].
    + done.
Qed.

(** Both loops: every identity of every semester, in order. *)
Lemma scan_plan_spec courses rid plan :
  (Utils.scan_plan (Utils.course_lookup courses) rid plan).1 =
    Spec.counted courses rid (Spec.selected_ids plan) ∧
  (Utils.scan_plan (Utils.course_lookup courses) rid plan).2 =
    Spec.satisfied_credits plan courses rid.
Proof.
  unfold Utils.scan_plan, Spec.satisfied_credits, Spec.sum_credits,
    Spec.selected_ids, PyDict.values.
  generalize (Plan.selections plan). intros d.
  assert (∀ acc,
    (foldl (λ acc item,
       foldl (Utils.scan_course (Utils.course_lookup courses) rid) acc item.2) acc d).1
      = acc.1 ++ Spec.counted courses rid (concat d.*2) ∧
    (foldl (λ acc item,
       foldl (Utils.scan_course (Utils.course_lookup courses) rid) acc item.2) acc d).2
      = Spec.accumulate acc.2 (Spec.counted courses rid (concat d.*2))) as H.
  { induction d as [|[sem ids] d IH]; intros acc; simpl.
    - split; [by rewrite app_nil_r | done].
    - destruct (IH (foldl (Utils.scan_course (Utils.course_lookup courses) rid) acc ids))
        as [-> ->].
      destruct (scan_course_foldl courses rid ids acc) as [-> ->].
      rewrite counted_app, accumulate_app. split; [by rewrite <- app_assoc | done]. }
  destruct (H ([], 0%float)) as [-> ->]. done.
Qed.


(** What the loop over the requirements leaves under a requirement's id:
    the entry of the last requirement of the list with that id. *)
Lemma validate_loop_get {V} (f : Requirement.t → V) (rs : list Requirement.t) r :
  r ∈ rs →
  ∃ r', r' ∈ rs ∧ Requirement.id r' = Requirement.id r ∧
        PyDict.get (Requirement.id r)
          (foldl (λ d x, PyDict.set (Requirement.id x) (f x) d) [] rs) = Some (f r') ∧
        (NoDup (Requirement.id <$> rs) → r' = r).
Proof.
  induction rs as [|x rs IH] using rev_ind; [by intros ?%elem_of_nil|].
  intros Hin. rewrite foldl_app. simpl. rewrite dict_get_set.
  destruct (decide (Requirement.id x = Requirement.id r)) as [Heq|Hne].
  - exists x. split_and!; [| done | done |].
    + apply elem_of_app. right. by apply list_elem_of_singleton.
    + rewrite fmap_app. simpl. intros (_ & Hdisj & _)%NoDup_app.
      apply elem_of_app in Hin as [Hin|Hin%list_elem_of_singleton]; [|done].
      exfalso. apply (Hdisj (Requirement.id r)).
      * by apply list_elem_of_fmap_2.
      * rewrite <- Heq. by apply list_elem_of_singleton.
  - apply elem_of_app in Hin as [Hin|Hin%list_elem_of_singleton]; [|by subst].
    destruct (IH Hin) as (r' & Hr' & Hid & Hget & Hnd).
    exists r'. split_and!; [| done | done |].
    + apply elem_of_app. by left.
    + rewrite fmap_app. intros (Hnd' & _)%NoDup_app. by apply Hnd.
Qed.

(** With pairwise distinct ids the dictionary lists the requirements in
    order, one entry each. *)
Lemma validate_loop_NoDup {V} (f : Requirement.t → V) (rs : list Requirement.t) :
  NoDup (Requirement.id <$> rs) →
  foldl (λ d x, PyDict.set (Requirement.id x) (f x) d) [] rs =
  (λ x, (Requirement.id x, f x)) <$> rs.
Proof.
  induction rs as [|x rs IH] using rev_ind; [done|].
  rewrite !fmap_app. simpl. intros (Hnd & Hdisj & _)%NoDup_app.
  rewrite foldl_app. simpl. rewrite IH by done.
  apply dict_set_fresh. apply dict_get_None_keys. unfold PyDict.keys.
  rewrite <- list_fmap_compose. intros Hin. apply (Hdisj _ Hin).
  by apply list_elem_of_singleton.
Qed.

(** [max(0, x)] is never below zero, whatever float [x] is: a number
    above zero is returned as it is, and zero stands in for every other
    value, NaN included. *)
Lemma max_zero_nonneg (x : PrimFloat.float) :
  (0 <=? Utils.max 0 x)%float = true.
Proof.
  unfold Utils.max. destruct (0 <? x)%float eqn:Hlt; [|done].
  rewrite FloatAxioms.ltb_spec in Hlt. rewrite FloatAxioms.leb_spec.
  unfold SpecFloat.SFltb in Hlt. unfold SpecFloat.SFleb.
  change (FloatOps.Prim2SF 0) with (SpecFloat.S754_zero false) in *.
  destruct (FloatOps.Prim2SF x) as [sg|sg| |sg m e]; simpl in *;
    try done; by destruct sg.
Qed.

(** With distinct ids every catalog course is the one its id denotes. *)
Lemma catalog_course_distinct courses c :
  NoDup (Course.id <$> courses) → c ∈ courses →
  Spec.catalog_course courses (Course.id c) = Some c.
Proof.
  induction courses as [|c' courses IH] using rev_ind; [by intros _ ?%elem_of_nil|].
  rewrite fmap_app. intros (Hnd & Hdisj & _)%NoDup_app Hin.
  rewrite catalog_course_snoc.
  apply elem_of_app in Hin as [Hin|Hin%list_elem_of_singleton]; [|subst c'].
  - rewrite decide_False; [by apply IH|]. intros Heq.
    apply (Hdisj (Course.id c)); [by apply list_elem_of_fmap_2|].
    rewrite <- Heq. simpl. apply list_elem_of_here.
  - by rewrite decide_True.
Qed.

Lemma elem_of_counted courses rid ids c :
  c ∈ Spec.counted courses rid ids ↔
  ∃ cid, cid ∈ ids ∧ Spec.catalog_course courses cid = Some c ∧
         rid ∈ Course.satisfies c.
Proof.
  induction ids as [|x ids IH].
  - split; [by intros ?%elem_of_nil | by intros (cid & ?%elem_of_nil & _)].
  - rewrite counted_cons. split.
    + intros Hin.
      destruct (Spec.catalog_course courses x) as [c'|] eqn:Hx.
      * destruct (decide (rid ∈ Course.satisfies c')) as [Hs|Hs].
        -- apply elem_of_cons in Hin as [->|Hin].
           ++ exists x. split_and!; [apply list_elem_of_here | done | done].
           ++ apply IH in Hin as (cid & Hcid & Hc & Hr). exists cid.
              split_and!; [by apply list_elem_of_further | done | done].
        -- apply IH in Hin as (cid & Hcid & Hc & Hr). exists cid.
           split_and!; [by apply list_elem_of_further | done | done].
      * apply IH in Hin as (cid & Hcid & Hc & Hr). exists cid.
        split_and!; [by apply list_elem_of_further | done | done].
    + intros (cid & [->|Hcid]%elem_of_cons & Hc & Hr).
      * rewrite Hc, decide_True by done. apply list_elem_of_here.
      * assert (c ∈ Spec.counted courses rid ids) as Hin by (apply IH; by exists cid).
        destruct (Spec.catalog_course courses x) as [c'|]; [|done].
        destruct (decide (rid ∈ Course.satisfies c')); [|done].
        by apply list_elem_of_further.
Qed.

Lemma counted_NoDup courses rid ids :
  NoDup ids → NoDup (Spec.counted courses rid ids).
Proof.
  induction 1 as [|x ids Hx _ IH]; [constructor|].
  rewrite counted_cons.
  destruct (Spec.catalog_course courses x) as [c|] eqn:Hc; [|done].
  destruct (decide (rid ∈ Course.satisfies c)); [|done].
  constructor; [|done]. intros (cid & Hcid & Hc' & _)%elem_of_counted.
  apply catalog_course_Some in Hc as [<- _]. apply catalog_course_Some in Hc' as [<- _].
  done.
Qed.

(** When no id is selected twice and the catalog ids are distinct, the
    courses counted for a requirement are the catalog courses whose id is
    selected and that satisfy it, each once; the order is the order of
    selection. *)
Lemma counted_catalog_selected plan courses rid :
  NoDup (Course.id <$> courses) → NoDup (Spec.selected_ids plan) →
  Spec.counted courses rid (Spec.selected_ids plan)
  ≡ₚ Spec.catalog_selected plan courses rid.
Proof.
  intros Hcs Hids. unfold Spec.catalog_selected.
  apply NoDup_Permutation.
  - by apply counted_NoDup.
  - apply NoDup_filter. by apply (NoDup_fmap_1 Course.id).
  - intros c. rewrite elem_of_counted, list_elem_of_filter. split.
    + intros (cid & Hcid & Hc & Hr). apply catalog_course_Some in Hc as [<- Hin]. done.
    + intros [[Hid Hr] Hin]. exists (Course.id c).
      split_and!; [done | by apply catalog_course_distinct | done].
Qed.

(** The result computed for one requirement. *)
Lemma validate_one_spec plan courses r :
  Utils.requirement (Utils.validate_one (Utils.course_lookup courses) plan r) = r ∧
  Utils.min_credits (Utils.validate_one (Utils.course_lookup courses) plan r) =
    Requirement.min_credits r ∧
  Utils.selected_courses (Utils.validate_one (Utils.course_lookup courses) plan r) =
    Spec.counted courses (Requirement.id r) (Spec.selected_ids plan) ∧
  Utils.total_credits (Utils.validate_one (Utils.course_lookup courses) plan r) =
    Spec.satisfied_credits plan courses (Requirement.id r).
Proof.
  unfold Utils.validate_one.
  destruct (scan_plan_spec courses (Requirement.id r) plan) as [Hsel Htot].
  by destruct (Utils.scan_plan (Utils.course_lookup courses) (Requirement.id r) plan).
Qed.

(** The result stored under the id of a requirement of the list. *)
Lemma validate_requirements_get plan courses (requirements : list Requirement.t) r :
  r ∈ requirements →
  ∃ r', r' ∈ requirements ∧ Requirement.id r' = Requirement.id r ∧
        PyDict.get (Requirement.id r)
                   (Utils.validate_requirements plan courses requirements)
          = Some (Utils.validate_one (Utils.course_lookup courses) plan r') ∧
        (NoDup (Requirement.id <$> requirements) → r' = r).
Proof. apply validate_loop_get. Qed.

(** C1.  For every plan, course catalog and requirement catalog, and every
    requirement of the catalog, [validate_requirements] holds a result under
    the requirement's id.  Its [selected_courses] are the selected catalog
    courses whose [satisfies] set contains the id, one for every occurrence of
    a course id in the plan's selections and in the order of selection; its
    [total_credits] is the sum of their credits, added up from 0.0 in that
    order with the float addition of the code; its [min_credits] is that of
    a requirement of the catalog with this id (of the requirement itself
    when ids are distinct); [is_met] is the float comparison
    [total_credits >= min_credits]; and [deficit] is
    [max(0, min_credits - total_credits)] on floats, which is never below
    zero.  When no id is selected twice and the catalog ids are distinct,
    the courses summed are exactly the catalog courses whose id is
    selected and that satisfy the requirement, each once. *)
Theorem validate_requirements_correct plan courses (requirements : list Requirement.t) r :
  r ∈ requirements →
  ∃ res,
    PyDict.get (Requirement.id r)
               (Utils.validate_requirements plan courses requirements) = Some res ∧
    Utils.selected_courses res =
      Spec.counted courses (Requirement.id r) (Spec.selected_ids plan) ∧
    Utils.total_credits res = Spec.sum_credits (Utils.selected_courses res) ∧
    (∃ r', r' ∈ requirements ∧ Requirement.id r' = Requirement.id r ∧
           Utils.requirement res = r' ∧
           Utils.min_credits res = Requirement.min_credits r') ∧
    (NoDup (Requirement.id <$> requirements) →
       Utils.requirement res = r ∧
       Utils.min_credits res = Requirement.min_credits r) ∧
    Utils.is_met res = (Utils.min_credits res <=? Utils.total_credits res)%float ∧
    Utils.deficit res =
      Utils.max 0 (Utils.min_credits res - Utils.total_credits res)%float ∧
    (0 <=? Utils.deficit res)%float = true ∧
    (NoDup (Course.id <$> courses) → NoDup (Spec.selected_ids plan) →
       Utils.selected_courses res
       ≡ₚ Spec.catalog_selected plan courses (Requirement.id r)).
Proof.
  intros Hin.
  destruct (validate_requirements_get plan courses requirements r Hin)
    as (r' & Hr' & Hid & Hget & Hnd).
  destruct (validate_one_spec plan courses r') as (Hreq & Hmin & Hsel & Htot).
  eexists. split; [exact Hget|]. rewrite Hid in Hsel, Htot.
  split_and!; [done | | by exists r' | | | | |].
  - by rewrite Htot, Hsel.
  - intros Hnodup. by rewrite Hreq, Hmin, (Hnd Hnodup).
  - unfold Utils.validate_one. by destruct (Utils.scan_plan _ _ plan).
  - unfold Utils.validate_one. by destruct (Utils.scan_plan _ _ plan).
  - unfold Utils.validate_one.
    destruct (Utils.scan_plan _ _ plan) as [sel tot]. apply max_zero_nonneg.
  - intros Hcs Hids. rewrite Hsel. by apply counted_catalog_selected.
Qed.

End validator_facts.

(** ** Repeated selections *)

Section multiplicity_facts.
Implicit Types (courses : list Course.t) (c : Course.t) (cid rid : string)
  (ids : list string) (plan : Plan.t) (r : Requirement.t).

Lemma occurrences_cons cid x ids :
  Spec.occurrences cid (x :: ids) =
  if decide (x = cid) then S (Spec.occurrences cid ids) else Spec.occurrences cid ids.
Proof.
  unfold Spec.occurrences. rewrite filter_cons. by destruct (decide (x = cid)).
Qed.

Lemma occurrences_app cid ids1 ids2 :
  Spec.occurrences cid (ids1 ++ ids2) =
  (Spec.occurrences cid ids1 + Spec.occurrences cid ids2)%nat.
Proof. unfold Spec.occurrences. by rewrite filter_app, length_app. Qed.

Lemma occurrences_elem cid ids : cid ∈ ids → (1 ≤ Spec.occurrences cid ids)%nat.
Proof.
  intros (l1 & l2 & ->)%list_elem_of_split.
  rewrite occurrences_app, occurrences_cons, decide_True by done. lia.
Qed.

(** A semester's sequence is part of the concatenation. *)
Lemma occurrences_get cid s ids (d : PyDict.dict (list string)) :
  PyDict.get s d = Some ids →
  (Spec.occurrences cid ids ≤ Spec.occurrences cid (concat d.*2))%nat.
Proof.
  induction d as [|[k v] d IH]; [done|].
  rewrite fmap_cons. cbn [concat snd PyDict.get].
  rewrite occurrences_app. destruct (decide (s = k)) as [->|Hne].
  - intros [= ->]. lia.
  - intros H. specialize (IH H). clear -IH. lia.
Qed.

(** Two different semesters are two different parts of it. *)
Lemma occurrences_get_two cid s1 s2 ids1 ids2 (d : PyDict.dict (list string)) :
  s1 ≠ s2 →
  PyDict.get s1 d = Some ids1 → PyDict.get s2 d = Some ids2 →
  (Spec.occurrences cid ids1 + Spec.occurrences cid ids2
     ≤ Spec.occurrences cid (concat d.*2))%nat.
Proof.
  intros Hne. induction d as [|[k v] d IH]; [done|].
  rewrite fmap_cons. cbn [concat snd PyDict.get].
  rewrite occurrences_app.
  destruct (decide (s1 = k)) as [->|H1], (decide (s2 = k)) as [->|H2]; [done| | |].
  - intros [= ->] H. pose proof (occurrences_get cid _ _ _ H) as Hle. clear -Hle. lia.
  - intros H [= ->]. pose proof (occurrences_get cid _ _ _ H) as Hle. clear -Hle. lia.
  - intros Ha Hb. specialize (IH Ha Hb). clear -IH. lia.
Qed.

(** Among the counted courses, those carrying [cid] are as many copies of
    its catalog course as [cid] has occurrences. *)
Lemma counted_filter_id courses rid cid c ids :
  Spec.catalog_course courses cid = Some c →
  rid ∈ Course.satisfies c →
  filter (λ c', Course.id c' = cid) (Spec.counted courses rid ids) =
  replicate (Spec.occurrences cid ids) c.
Proof.
  intros Hc Hsat. induction ids as [|x ids IH]; [done|].
  rewrite counted_cons, occurrences_cons.
  destruct (decide (x = cid)) as [->|Hne].
  - rewrite Hc, decide_True by done.
    rewrite filter_cons_True by by apply catalog_course_Some in Hc as [? _].
    simpl. by rewrite IH.
  - destruct (Spec.catalog_course courses x) as [c'|] eqn:Hc'; [|done].
    destruct (decide (rid ∈ Course.satisfies c')); [|done].
    rewrite filter_cons_False; [done|].
    apply catalog_course_Some in Hc' as [-> _]. done.
Qed.

(** Among the catalog courses of a sequence of identities, those carrying
    [cid] are as many copies of its catalog course as [cid] has
    occurrences. *)
Lemma catalog_filter_id courses cid c ids :
  Spec.catalog_course courses cid = Some c →
  filter (λ c', Course.id c' = cid) (omap (Spec.catalog_course courses) ids) =
  replicate (Spec.occurrences cid ids) c.
Proof.
  intros Hc. induction ids as [|x ids IH]; [done|].
  rewrite occurrences_cons. cbn [omap list_omap].
  destruct (decide (x = cid)) as [->|Hne].
  - rewrite Hc. rewrite filter_cons_True by by apply catalog_course_Some in Hc as [? _].
    simpl. f_equal. exact IH.
  - destruct (Spec.catalog_course courses x) as [c'|] eqn:Hc'; [|exact IH].
    rewrite filter_cons_False; [exact IH|].
    apply catalog_course_Some in Hc' as [-> _]. done.
Qed.

Lemma occurrences_absent cid ids : cid ∉ ids → Spec.occurrences cid ids = 0%nat.
Proof.
  induction ids as [|x ids IH]; [done|]. intros [Hne Hnin]%not_elem_of_cons.
  rewrite occurrences_cons, decide_False by done. by apply IH.
Qed.

(** An identity with two occurrences splits the sequence in three. *)
Lemma occurrences_two cid ids :
  (2 ≤ Spec.occurrences cid ids)%nat →
  ∃ before between after, ids = before ++ cid :: between ++ cid :: after.
Proof.
  intros Hocc.
  assert (cid ∈ ids) as Hin.
  { destruct (decide (cid ∈ ids)) as [?|Hnin]; [done|].
    rewrite (occurrences_absent _ _ Hnin) in Hocc. lia. }
  apply list_elem_of_split in Hin as (before & rest & ->).
  rewrite occurrences_app, occurrences_cons, decide_True in Hocc by done.
  destruct (decide (cid ∈ before)) as [Hb|Hb].
  - apply list_elem_of_split in Hb as (b1 & b2 & ->).
    exists b1, b2, rest. by rewrite <- app_assoc.
  - assert (cid ∈ rest) as Hr.
    { destruct (decide (cid ∈ rest)) as [?|Hnin]; [done|].
      rewrite (occurrences_absent _ _ Hb), (occurrences_absent _ _ Hnin) in Hocc. lia. }
    apply list_elem_of_split in Hr as (between & after & ->).
    by exists before, between, after.
Qed.

(** The credits added over a list in which a course stands at two
    places: its credits are added at both. *)
Lemma accumulate_twice (total : PrimFloat.float) c before between after :
  Spec.accumulate total (before ++ c :: between ++ c :: after) =
  Spec.accumulate
    (Spec.accumulate (Spec.accumulate total before + Course.credits c)%float between
     + Course.credits c)%float
    after.
Proof.
  rewrite accumulate_app. cbn [Spec.accumulate foldl].
  fold (Spec.accumulate (Spec.accumulate total before + Course.credits c)%float
          (between ++ c :: after)).
  by rewrite accumulate_app.
Qed.

(** [calculate_total_credits] adds the credits of the catalog course of
    every identity it walks over, once per occurrence and in order. *)
Lemma total_credits_foldl courses ids (acc : PrimFloat.float) :
  foldl (λ total course_id,
           match Utils.course_lookup courses !! course_id with
           | Some course => (total + Course.credits course)%float
           | None => total
           end) acc ids
  = Spec.accumulate acc (omap (Spec.catalog_course courses) ids).
Proof.
  revert acc. induction ids as [|x ids IH]; intros acc; cbn [foldl]; [done|].
  rewrite IH, course_lookup_spec. cbn [omap list_omap].
  by destruct (Spec.catalog_course courses x).
Qed.

Lemma extend_foldl (ls : list (list string)) (acc : list string) :
  foldl (λ ids semester_courses, ids ++ semester_courses) acc ls = acc ++ concat ls.
Proof.
  revert acc. induction ls as [|l ls IH]; intros acc; simpl.
  - by rewrite app_nil_r.
  - by rewrite IH, app_assoc.
Qed.

Lemma calculate_total_credits_spec plan courses semester :
  Utils.calculate_total_credits plan courses semester =
  Spec.catalog_credits courses
    match semester with
    | Some (String a s) => Plan.get_courses_for_semester plan (String a s)
    | _ => Spec.selected_ids plan
    end.
Proof.
  unfold Utils.calculate_total_credits. rewrite total_credits_foldl.
  unfold Spec.catalog_credits, Spec.sum_credits.
  destruct semester as [[|a s]|]; [|done|]; by rewrite extend_foldl.
Qed.

(** C10.  Let a course id be selected in two different semesters of a plan,
    and let its catalog course satisfy a requirement of the catalog.  Then
    the id occurs [n >= 2] times in the selections; the requirement's
    [selected_courses] holds exactly [n] entries with this id, all of them
    that course; [total_credits] is the float sum over [selected_courses]
    in order, in which the course stands at two places at least, so that
    its credits are added once at each; and [calculate_total_credits] over
    the whole plan likewise adds its credits once per occurrence. *)
Theorem course_in_two_semesters_counted_twice
    plan courses (requirements : list Requirement.t) r c cid s1 s2 ids1 ids2 :
  r ∈ requirements →
  Spec.catalog_course courses cid = Some c →
  Requirement.id r ∈ Course.satisfies c →
  s1 ≠ s2 →
  PyDict.get s1 (Plan.selections plan) = Some ids1 → cid ∈ ids1 →
  PyDict.get s2 (Plan.selections plan) = Some ids2 → cid ∈ ids2 →
  (2 ≤ Spec.occurrences cid (Spec.selected_ids plan))%nat ∧
  (∃ res,
     PyDict.get (Requirement.id r)
                (Utils.validate_requirements plan courses requirements) = Some res ∧
     filter (λ c', Course.id c' = cid) (Utils.selected_courses res) =
       replicate (Spec.occurrences cid (Spec.selected_ids plan)) c ∧
     Utils.total_credits res = Spec.sum_credits (Utils.selected_courses res) ∧
     ∃ before between after,
       Utils.selected_courses res = before ++ c :: between ++ c :: after ∧
       Utils.total_credits res =
         Spec.accumulate
           (Spec.accumulate (Spec.accumulate 0 before + Course.credits c)%float between
            + Course.credits c)%float
           after) ∧
  (∃ counted,
     counted = omap (Spec.catalog_course courses) (Spec.selected_ids plan) ∧
     filter (λ c', Course.id c' = cid) counted =
       replicate (Spec.occurrences cid (Spec.selected_ids plan)) c ∧
     Utils.calculate_total_credits plan courses None = Spec.sum_credits counted ∧
     ∃ before between after,
       counted = before ++ c :: between ++ c :: after ∧
       Utils.calculate_total_credits plan courses None =
         Spec.accumulate
           (Spec.accumulate (Spec.accumulate 0 before + Course.credits c)%float between
            + Course.credits c)%float
           after).
Proof.
  intros Hr Hc Hsat Hne Hs1 Hin1 Hs2 Hin2.
  assert (2 ≤ Spec.occurrences cid (Spec.selected_ids plan))%nat as Htwo.
  { pose proof (occurrences_get_two cid _ _ _ _ _ Hne Hs1 Hs2) as Hocc.
    pose proof (occurrences_elem _ _ Hin1). pose proof (occurrences_elem _ _ Hin2).
    unfold Spec.selected_ids, PyDict.values. clear -Hocc H H0. lia. }
  destruct (occurrences_two _ _ Htwo) as (a & b & d & Hsplit).
  split_and!; [done | |].
  - destruct (validate_requirements_get plan courses requirements r Hr)
      as (r' & _ & Hid & Hget & _).
    destruct (validate_one_spec plan courses r') as (_ & _ & Hsel & Htot).
    rewrite Hid in Hsel, Htot.
    eexists. split; [exact Hget|].
    set (res := Utils.validate_one (Utils.course_lookup courses) plan r') in *.
    assert (Utils.total_credits res = Spec.sum_credits (Utils.selected_courses res))
      as Hsum by by rewrite Htot, Hsel.
    split_and!; [rewrite Hsel; by apply counted_filter_id | done |].
    exists (Spec.counted courses (Requirement.id r) a),
           (Spec.counted courses (Requirement.id r) b),
           (Spec.counted courses (Requirement.id r) d).
    assert (Utils.selected_courses res =
            Spec.counted courses (Requirement.id r) a
              ++ c :: Spec.counted courses (Requirement.id r) b
              ++ c :: Spec.counted courses (Requirement.id r) d) as Hparts.
    { rewrite Hsel, Hsplit, counted_app, counted_cons, Hc, decide_True by done.
      by rewrite counted_app, counted_cons, Hc, decide_True by done. }
    split; [done|]. rewrite Hsum, Hparts. apply accumulate_twice.
  - eexists. split; [done|].
    assert (Utils.calculate_total_credits plan courses None =
            Spec.sum_credits (omap (Spec.catalog_course courses) (Spec.selected_ids plan)))
      as Hsum by apply (calculate_total_credits_spec plan courses None).
    split_and!; [by apply catalog_filter_id | done |].
    exists (omap (Spec.catalog_course courses) a),
           (omap (Spec.catalog_course courses) b),
           (omap (Spec.catalog_course courses) d).
    assert (omap (Spec.catalog_course courses) (Spec.selected_ids plan) =
            omap (Spec.catalog_course courses) a
              ++ c :: omap (Spec.catalog_course courses) b
              ++ c :: omap (Spec.catalog_course courses) d) as Hparts.
    { rewrite Hsplit, omap_app. cbn [omap list_omap]. rewrite Hc.
      rewrite omap_app. cbn [omap list_omap]. by rewrite Hc. }
    split; [done|]. rewrite Hsum, Hparts. apply accumulate_twice.
Qed.

End multiplicity_facts.

(** ** Aggregate progress *)

Section progress_facts.
Implicit Types (courses : list Course.t) (plan : Plan.t) (r : Requirement.t).

Lemma truediv_positive (a n : nat) :
  Utils.truediv a (S n) =
  Ok (Utils.float_of_int a / Utils.float_of_int (S n))%float.
Proof. done. Qed.

(** The verdict on one requirement is the float comparison of its minimum
    with the credits the plan collects for it. *)
Lemma is_met_validate_one plan courses r :
  Utils.is_met (Utils.validate_one (Utils.course_lookup courses) plan r) =
  (Requirement.min_credits r
   <=? Spec.satisfied_credits plan courses (Requirement.id r))%float.
Proof.
  unfold Utils.validate_one.
  destruct (scan_plan_spec courses (Requirement.id r) plan) as [_ Htot].
  destruct (Utils.scan_plan (Utils.course_lookup courses) (Requirement.id r) plan)
    as [sel tot]. simpl in *. by rewrite Htot.
Qed.

Lemma met_results_distinct plan courses (requirements : list Requirement.t) :
  NoDup (Requirement.id <$> requirements) →
  length (filter (λ res, Utils.is_met res)
            (PyDict.values (Utils.validate_requirements plan courses requirements)))
  = Spec.met_count plan courses requirements.
Proof.
  intros Hnd. unfold Utils.validate_requirements, PyDict.values, Spec.met_count.
  rewrite (validate_loop_NoDup _ _ Hnd), <- list_fmap_compose.
  clear Hnd. induction requirements as [|r rs IH]; [done|].
  rewrite fmap_cons, filter_cons. cbn [List.filter].
  rewrite <- is_met_validate_one.
  destruct (decide _) as [H|H]; cbn [compose snd] in H.
  - apply Is_true_true in H. rewrite H. simpl. by rewrite IH.
  - apply Is_true_false in H. rewrite H. apply IH.
Qed.

(** C9.  [get_requirement_progress] never divides by zero: it returns
    normally for every requirement list.  The percentage is 0 for the empty
    list; otherwise it is the number of validation results with [is_met],
    divided by the number of requirements, times 100, the division and the
    multiplication being those of floats, so that 1 met out of 2 gives
    exactly 50.0.  The validation results are one per requirement id: when
    the ids are distinct their count is the count of requirements that the
    plan meets. *)
Theorem get_requirement_progress_percentage
    plan courses (requirements : list Requirement.t) :
  ∃ pr,
    Utils.get_requirement_progress plan courses requirements = Ok pr ∧
    Utils.total_requirements pr = length requirements ∧
    Utils.met_requirements pr =
      length (filter (λ res, Utils.is_met res)
                (PyDict.values (Utils.validate_requirements plan courses requirements))) ∧
    (requirements = [] → Utils.progress_percentage pr = 0%float) ∧
    (requirements ≠ [] →
       Utils.progress_percentage pr =
         (Utils.float_of_int (Utils.met_requirements pr)
            / Utils.float_of_int (Utils.total_requirements pr)
            * Utils.float_of_int 100)%float) ∧
    (Utils.met_requirements pr = 1%nat → Utils.total_requirements pr = 2%nat →
       Utils.progress_percentage pr = 50%float) ∧
    (NoDup (Requirement.id <$> requirements) →
       Utils.met_requirements pr = Spec.met_count plan courses requirements).
Proof.
  unfold Utils.get_requirement_progress.
  destruct requirements as [|r rs].
  - eexists. split; [done|]. simpl. split_and!; done.
  - cbn [length Nat.ltb Nat.leb]. rewrite truediv_positive. cbn [mbind result_bind].
    eexists. split; [done|]. cbn [Utils.total_requirements Utils.met_requirements
      Utils.progress_percentage length].
    split_and!; [done | done | done | done | |].
    + intros -> [= ->]. reflexivity.
    + apply met_results_distinct.
Qed.

End progress_facts.

(** ** The scenario, checked through the theorems above *)

(** Two satisfying courses of 6 credits in different semesters meet the
    12 credits of [bible]. *)
Lemma validate_requirements_correct_witness :
  ∃ res,
    PyDict.get "bible"
      (Utils.validate_requirements Scenario.plan Scenario.catalog Scenario.requirements)
      = Some res ∧
    length (Utils.selected_courses res) = 2%nat ∧
    Utils.total_credits res = 12%float ∧
    Utils.is_met res = true ∧
    Utils.deficit res = 0%float.
Proof.
  destruct (validate_requirements_correct
              Scenario.plan Scenario.catalog Scenario.requirements Scenario.bible)
    as (res & Hget & _).
  { apply list_elem_of_here. }
  exists res. split; [exact Hget|].
  vm_compute in Hget. injection Hget as <-.
  split_and!; vm_compute; done.
Defined.

(** One course of 6 credits selected in both semesters is listed twice and
    counts for 12 credits, in the validation and in the plan total. *)
Lemma course_in_two_semesters_witness :
  ∃ res,
    PyDict.get "bible"
      (Utils.validate_requirements Scenario.repeated Scenario.catalog Scenario.requirements)
      = Some res ∧
    Utils.selected_courses res = [Scenario.bibl101; Scenario.bibl101] ∧
    Utils.total_credits res = 12%float ∧
    Utils.calculate_total_credits Scenario.repeated Scenario.catalog None = 12%float.
Proof.
  destruct (course_in_two_semesters_counted_twice
              Scenario.repeated Scenario.catalog Scenario.requirements
              Scenario.bible Scenario.bibl101 "BIBL101_Fall2025_Smith"
              "Fall 2025" "Spring 2026"
              ["BIBL101_Fall2025_Smith"] ["BIBL101_Fall2025_Smith"])
    as (_ & (res & Hget & _) & _).
  - apply list_elem_of_here.
  - reflexivity.
  - vm_compute. reflexivity.
  - discriminate.
  - reflexivity.
  - apply list_elem_of_here.
  - reflexivity.
  - apply list_elem_of_here.
  - exists res. split; [exact Hget|].
    vm_compute in Hget. injection Hget as <-.
    split_and!; vm_compute; done.
Defined.

(** The arithmetic is that of the code, not that of the rationals.  With
    0.1 and then 0.7 credits the total is the float below 0.8 and the
    minimum of 0.8 is not met, by a deficit of about 1.1e-16. *)
Lemma validate_requirements_rounds :
  ∃ res,
    PyDict.get "reading"
      (Utils.validate_requirements Scenario.fractions Scenario.reading_catalog
         [Scenario.reading]) = Some res ∧
    Utils.total_credits res = (0 + 1 / 10 + 7 / 10)%float ∧
    (Utils.total_credits res <? 8 / 10)%float = true ∧
    Utils.is_met res = false ∧
    Utils.deficit res = (8 / 10 - (0 + 1 / 10 + 7 / 10))%float ∧
    (0 <? Utils.deficit res)%float = true.
Proof. eexists. split; [by vm_compute|]. split_and!; by vm_compute. Qed.

(** The order of the additions shows: 0.1, 1.1 and 0.1 credits add up to
    the float above 1.3, which twice 0.1 plus 1.1 does not give. *)
Lemma calculate_total_credits_rounds :
  Utils.calculate_total_credits Scenario.fractions_repeated Scenario.reading_catalog None
    = (0 + 1 / 10 + 11 / 10 + 1 / 10)%float ∧
  (13 / 10 <? Utils.calculate_total_credits Scenario.fractions_repeated
                Scenario.reading_catalog None)%float = true ∧
  (2 * (1 / 10) + 11 / 10 =? 13 / 10)%float = true.
Proof. split_and!; by vm_compute. Qed.

(** 11 results met out of 20 give the float above 55. *)
Lemma progress_percentage_rounds :
  (55 <? Utils.float_of_int 11 / Utils.float_of_int 20 * Utils.float_of_int 100)%float
  = true.
Proof. by vm_compute. Qed.

(** ** The column mapping *)

Section column_facts.
Implicit Types (header : list string) (mapping : gmap string nat)
  (cell canonical : string).

Lemma find_first {A} (P : A → bool) (l : list A) (x : A) :
  List.find P l = Some x ↔
  ∃ k, l !! k = Some x ∧ P x = true ∧
       ∀ k' y, (k' < k)%nat → l !! k' = Some y → P y = false.
Proof.
  induction l as [|a l IH]; simpl.
  - split; [done | by intros (k & ? & _)].
  - destruct (P a) eqn:Ha.
    + split.
      * intros [= ->]. exists 0%nat. split_and!; [done | done |]. intros; lia.
      * intros ([|k] & Hk & Hx & Hmin); [by injection Hk as -> |].
        specialize (Hmin 0%nat a (Nat.lt_0_succ k) eq_refl). congruence.
    + rewrite IH. split.
      * intros (k & Hk & Hx & Hmin). exists (S k). split_and!; [done | done |].
        intros [|k'] y Hlt Hy; [by injection Hy as <- |].
        apply (Hmin k' y); [lia | done].
      * intros ([|k] & Hk & Hx & Hmin); [injection Hk as ->; congruence |].
        exists k. split_and!; [done | done |].
        intros k' y Hlt Hy. apply (Hmin (S k') y); [lia | done].
Qed.

(** The inner loop stops at the first keyword that occurs in the cell. *)
Lemma first_keyword_names cell canonical :
  ScriptsParsers.first_keyword (Str.lower (Str.strip cell)) = Some canonical ↔
  Spec.cell_names cell canonical.
Proof.
  unfold ScriptsParsers.first_keyword, Spec.cell_names.
  rewrite fmap_Some. split.
  - intros ([key cn] & Hfind & ->). apply find_first in Hfind as (k & Hk & HP & Hmin).
    exists k, key. done.
  - intros (k & key & Hk & HP & Hmin). exists (key, canonical). split; [|done].
    apply find_first. exists k. done.
Qed.

Lemma build_mapping_snoc header cell :
  ScriptsParsers.build_mapping (header ++ [cell]) =
  match ScriptsParsers.first_keyword (Str.lower (Str.strip cell)) with
  | Some canonical => <[canonical := length header]> (ScriptsParsers.build_mapping header)
  | None => ScriptsParsers.build_mapping header
  end.
Proof.
  unfold ScriptsParsers.build_mapping. rewrite imap_app, foldl_app. simpl.
  by rewrite Nat.add_0_r.
Qed.

(** What the outer loop leaves under a canonical name: the position of the
    last cell that names it, and nothing when no cell does. *)
Lemma build_mapping_lookup header canonical :
  match ScriptsParsers.build_mapping header !! canonical with
  | Some i =>
      (∃ cell, header !! i = Some cell ∧ Spec.cell_names cell canonical) ∧
      ∀ j cell, header !! j = Some cell → Spec.cell_names cell canonical → (j ≤ i)%nat
  | None => ∀ j cell, header !! j = Some cell → ¬ Spec.cell_names cell canonical
  end.
Proof.
  induction header as [|x header IH] using rev_ind.
  - unfold ScriptsParsers.build_mapping. simpl. rewrite lookup_empty.
    intros j cell Hj. done.
  - rewrite build_mapping_snoc.
    assert (∀ j cell, (header ++ [x]) !! j = Some cell →
              (j < length header)%nat ∧ header !! j = Some cell ∨
              j = length header ∧ cell = x) as Hsplit.
    { intros j cell Hj. apply lookup_snoc_Some in Hj as [?|[? ?]]; [by left | by right]. }
    destruct (ScriptsParsers.first_keyword (Str.lower (Str.strip x))) as [cn|] eqn:Hx.
    + rewrite lookup_insert. destruct (decide (cn = canonical)) as [->|Hne].
      * split.
        -- exists x. split; [by apply list_lookup_middle | by apply first_keyword_names].
        -- intros j cell Hj _. apply lookup_lt_Some in Hj.
           rewrite length_app in Hj. simpl in Hj. lia.
      * destruct (ScriptsParsers.build_mapping header !! canonical) as [i|].
        -- destruct IH as [(cell & Hi & Hn) Hlast]. split.
           ++ exists cell. split; [|done]. by apply lookup_app_l_Some.
           ++ intros j c Hj Hc. destruct (Hsplit _ _ Hj) as [[_ Hj']|[-> ->]].
              ** by apply (Hlast j c).
              ** apply first_keyword_names in Hc. congruence.
        -- intros j c Hj Hc. destruct (Hsplit _ _ Hj) as [[_ Hj']|[-> ->]].
           ++ by apply (IH j c).
           ++ apply first_keyword_names in Hc. congruence.
    + destruct (ScriptsParsers.build_mapping header !! canonical) as [i|].
      * destruct IH as [(cell & Hi & Hn) Hlast]. split.
        -- exists cell. split; [|done]. by apply lookup_app_l_Some.
        -- intros j c Hj Hc. destruct (Hsplit _ _ Hj) as [[_ Hj']|[-> ->]].
           ++ by apply (Hlast j c).
           ++ apply first_keyword_names in Hc. congruence.
      * intros j c Hj Hc. destruct (Hsplit _ _ Hj) as [[_ Hj']|[-> ->]].
        -- by apply (IH j c).
        -- apply first_keyword_names in Hc. congruence.
Qed.

Lemma build_col_index_Ok header mapping :
  ScriptsParsers._build_col_index header = Ok mapping →
  mapping = ScriptsParsers.build_mapping header ∧
  is_Some (mapping !! "Course Code") ∧
  is_Some (mapping !! "Course Title") ∧
  is_Some (mapping !! "Credits").
Proof.
  unfold ScriptsParsers._build_col_index. simpl.
  repeat case_bool_decide; try done.
  intros [= <-]. split_and!; [done | | |]; by apply not_eq_None_Some.
Qed.

(** C5, as the code has it.  When [_build_col_index] returns a mapping,
    every mapped field points at a header cell that names it, where a cell
    names the field of the first keyword of the table that occurs in it
    (compared in lower case, blanks stripped); an unmapped field is named by
    no cell; and when several cells name one field the last of them is the
    one mapped: a later matching cell overwrites the earlier mapping. *)
Theorem build_col_index_last_cell_wins header mapping :
  ScriptsParsers._build_col_index header = Ok mapping →
  (∀ canonical i,
     mapping !! canonical = Some i →
     ∃ cell, header !! i = Some cell ∧ Spec.cell_names cell canonical) ∧
  (∀ canonical,
     mapping !! canonical = None →
     ∀ j cell, header !! j = Some cell → ¬ Spec.cell_names cell canonical) ∧
  Spec.last_cell_wins header mapping.
Proof.
  intros [-> _]%build_col_index_Ok. split_and!.
  - intros canonical i Hi. pose proof (build_mapping_lookup header canonical) as H.
    rewrite Hi in H. apply H.
  - intros canonical Hnone. pose proof (build_mapping_lookup header canonical) as H.
    by rewrite Hnone in H.
  - intros canonical i j cell Hi Hj Hn.
    pose proof (build_mapping_lookup header canonical) as H.
    rewrite Hi in H. by apply (proj2 H j cell).
Qed.

Lemma build_col_index_last_cell_wins_witness :
  Spec.last_cell_wins Scenario.header_two_credits
    (ScriptsParsers.build_mapping Scenario.header_two_credits).
Proof.
  apply (build_col_index_last_cell_wins Scenario.header_two_credits
           (ScriptsParsers.build_mapping Scenario.header_two_credits)).
  vm_compute. reflexivity.
Defined.

(** C5, as stated, fails: with two cells naming [Credits], at positions 2
    and 3, the mapping holds 3, so the first cell does not win. *)
Lemma build_col_index_first_cell_overwritten :
  ∃ mapping,
    ScriptsParsers._build_col_index Scenario.header_two_credits = Ok mapping ∧
    mapping !! "Credits" = Some 3%nat ∧
    ¬ Spec.first_cell_wins Scenario.header_two_credits mapping.
Proof.
  exists (ScriptsParsers.build_mapping Scenario.header_two_credits).
  split_and!; [by vm_compute | by vm_compute |].
  intros Hfirst.
  assert (Spec.cell_names "Credits" "Credits") as Hn.
  { apply first_keyword_names. by vm_compute. }
  specialize (Hfirst "Credits" 3%nat 2%nat "Credits" eq_refl eq_refl Hn). lia.
Qed.

End column_facts.

(** ** Credits of a row *)

Section credits_facts.
Implicit Types (env : ScriptsParsers.Env) (row : list string)
  (col_index : gmap string nat).

(** C4, as the code has it.  [row_to_course] reads the credits from the
    first token of the Credits cell, split at whitespace.  An absent or
    empty cell gives 0.  A token that the number reader accepts gives its
    value.  A token that the reader rejects makes [row_to_course] raise
    [ValueError]: the value does not degrade to 0. *)
Theorem row_to_course_credits env row col_index :
  (ScriptsParsers._get row col_index "Credits" = EmptyString →
     ∃ c, ScriptsParsers.row_to_course env row col_index = Ok c ∧
          ScriptsParsers.credits c = 0%Q) ∧
  (∀ token rest q,
     ScriptsParsers._get row col_index "Credits" ≠ EmptyString →
     Str.re_split_space (ScriptsParsers._get row col_index "Credits") = token :: rest →
     ScriptsParsers.float_of_string env token = Some q →
     ∃ c, ScriptsParsers.row_to_course env row col_index = Ok c ∧
          ScriptsParsers.credits c = q) ∧
  (∀ token rest,
     ScriptsParsers._get row col_index "Credits" ≠ EmptyString →
     Str.re_split_space (ScriptsParsers._get row col_index "Credits") = token :: rest →
     ScriptsParsers.float_of_string env token = None →
     ScriptsParsers.row_to_course env row col_index =
       Raise (ValueError ("could not convert string to float: " ++ token)%string)).
Proof.
  unfold ScriptsParsers.row_to_course, ScriptsParsers.float. split_and!.
  - intros ->. rewrite bool_decide_eq_true_2 by done. by eexists.
  - intros token rest q Hne -> Hq. rewrite bool_decide_eq_false_2 by done.
    simpl. rewrite Hq. by eexists.
  - intros token rest Hne -> Hq. rewrite bool_decide_eq_false_2 by done.
    simpl. by rewrite Hq.
Qed.

(** The row [BIBL 101 | Intro to Biblical Studies | TBD] is not turned into
    a course with 0 credits: the call raises. *)
Lemma row_to_course_tbd_raises :
  ScriptsParsers.row_to_course Scenario.env_tbd Scenario.row_tbd Scenario.col_index =
    Raise (ValueError "could not convert string to float: TBD").
Proof.
  destruct (row_to_course_credits Scenario.env_tbd Scenario.row_tbd Scenario.col_index)
    as (_ & _ & Hraise).
  apply (Hraise "TBD" []); by vm_compute.
Defined.

(** And [parse_file] loses the whole file, the well formed rows included. *)
Lemma parse_file_tbd_raises :
  ScriptsParsers.parse_file Scenario.env_tbd "fall.pdf" =
    Raise (ValueError "could not convert string to float: TBD").
Proof. by vm_compute. Qed.

(** The positional variant of [backend/parse_courses.py] reads the same
    row as a course with 0 credits. *)
Lemma backend_row_to_course_tbd :
  ∃ c, ParseCourses.row_to_course Str.decimal Scenario.row_tbd = Ok c ∧
       ParseCourses.credits c = 0%Q.
Proof. eexists. split; by vm_compute. Qed.

End credits_facts.

(** ** The lookup prefix *)

Section prefix_facts.

(** C3 at the code [SW501].  The leading alphabetic run is [SW], a key of
    the static map; the code looks up the first whitespace delimited token,
    [SW501], finds nothing, tags the course with no category and adds its
    credits to no total.  For [BIBL 101] the two prefixes agree. *)
Theorem tagger_prefix_is_first_token :
  Spec.alpha_prefix "SW501" = "SW" ∧
  PyDict.get "SW" ScriptsParsers.REQ_MAP = Some ["MSSW Core Courses"] ∧
  ScriptsParsers.prefix_of "SW501" = Ok "SW501" ∧
  ScriptsParsers.tag_and_tally [Scenario.scraped "SW501" 3] [] =
    Ok ([Scenario.scraped "SW501" 3], []) ∧
  PyDict.get "SW" ParseCourses.REQ_MAP = Some ["Social Work"] ∧
  ParseCourses.prefix_of "SW501" = Ok "SW501" ∧
  ParseCourses.assign_fields_and_tally
    [Scenario.scraped_backend "SW501" 3] ParseCourses.REQ_MAP =
    Ok ([Scenario.scraped_backend "SW501" 3], []) ∧
  Spec.alpha_prefix "BIBL 101" = "BIBL" ∧
  ScriptsParsers.prefix_of "BIBL 101" = Ok "BIBL" ∧
  ScriptsParsers.tag_and_tally [Scenario.scraped "BIBL 101" 3] [] =
    Ok ([ScriptsParsers.with_fields ["Bible/Sacred Texts"] (Scenario.scraped "BIBL 101" 3)],
        [("Bible/Sacred Texts", (0 + 3)%Q)]).
Proof. split_and!; by vm_compute. Qed.

End prefix_facts.

(** *** The positional variant never tags a course it accepts *)

Section backend_prefix_facts.

Lemma capital_not_space c : ParseCourses.is_capital c = true → Str.is_space c = false.
Proof.
  unfold ParseCourses.is_capital, Str.is_space.
  generalize (nat_of_ascii c). intros n.
  rewrite andb_true_iff, !Nat.leb_le. intros [H1 H2].
  apply orb_false_iff. split; apply andb_false_iff; right; apply Nat.leb_gt; lia.
Qed.

Lemma digit_not_space c : Str.is_digit c = true → Str.is_space c = false.
Proof.
  unfold Str.is_digit, Str.is_space.
  generalize (nat_of_ascii c). intros n.
  rewrite andb_true_iff, !Nat.leb_le. intros [H1 H2].
  apply orb_false_iff. split; apply andb_false_iff; right; apply Nat.leb_gt; lia.
Qed.

(** The first token of a string that starts with a character other than
    whitespace starts with that character. *)
Lemma split_cons_token c (s : string) :
  Str.is_space c = false →
  ∃ t ts, Str.split (String c s) = String c t :: ts.
Proof.
  intros Hc. cbn [Str.split]. rewrite Hc. destruct s as [|c' s']; [by eexists _, _|].
  destruct (Str.is_space c'); [by eexists _, _|].
  destruct (Str.split (String c' s')); by eexists _, _.
Qed.

Lemma split_cons_cons c c' (s t : string) ts :
  Str.is_space c = false → Str.is_space c' = false →
  Str.split (String c' s) = t :: ts →
  Str.split (String c (String c' s)) = String c t :: ts.
Proof.
  intros Hc Hc' Hs. cbn [Str.split] in *. rewrite Hc, Hc' in *. by rewrite Hs.
Qed.

(** A string that [looks_like_course_code] has a first token with a digit
    in it. *)
Lemma capitals_then_digits_token n (s : string) :
  ParseCourses.capitals_then_digits n s = true →
  ∃ c s' t ts, s = String c s' ∧ Str.is_space c = false ∧
               Str.split s = t :: ts ∧ Spec.has_digit t = true.
Proof.
  revert n. induction s as [|c s IH]; intros n; [done|].
  cbn [ParseCourses.capitals_then_digits].
  destruct (ParseCourses.is_capital c) eqn:Hcap.
  - intros H. assert (ParseCourses.capitals_then_digits (S n) s = true) as H'.
    { by destruct n as [|[|[|[|n]]]]. }
    destruct (IH _ H') as (c' & s' & t & ts & -> & Hc' & Hsplit & Hd).
    exists c, (String c' s'), (String c t), ts.
    pose proof (capital_not_space _ Hcap) as Hc.
    split_and!; [done | done | by apply split_cons_cons |].
    simpl. rewrite Hd. apply orb_true_r.
  - intros [[_ Hdig]%andb_true_iff _]%andb_true_iff.
    pose proof (digit_not_space _ Hdig) as Hc.
    destruct (split_cons_token c s Hc) as (t & ts & Hsplit).
    exists c, s, (String c t), ts. split_and!; [done | done | done |].
    simpl. by rewrite Hdig.
Qed.

(** No key of the static map holds a digit. *)
Lemma backend_REQ_MAP_alphabetic (token : string) :
  Spec.has_digit token = true → PyDict.get token ParseCourses.REQ_MAP = None.
Proof.
  intros Hd. unfold ParseCourses.REQ_MAP. cbn [PyDict.get].
  repeat (destruct (decide _) as [->|_]; [by vm_compute in Hd|]). done.
Qed.

(** Whatever row [parse_pdf_to_json] takes for a course, its code, capitals
    followed by digits without a blank, is looked up as a whole, is no key
    of [REQ_MAP], and the course gets no category and adds to no total. *)
Lemma backend_accepted_code_untagged (c : ParseCourses.CourseDict) :
  ParseCourses.looks_like_course_code (ParseCourses.code c) = true →
  ParseCourses.assign_fields_and_tally [c] ParseCourses.REQ_MAP =
    Ok ([ParseCourses.with_fields [] c], []).
Proof.
  intros Hcode. unfold ParseCourses.looks_like_course_code in Hcode.
  destruct (capitals_then_digits_token _ _ Hcode)
    as (a & s' & t & ts & Hs & _ & Hsplit & Hd).
  unfold ParseCourses.assign_fields_and_tally. cbn [ParseCourses.tally].
  unfold ParseCourses.prefix_of. rewrite Hs, bool_decide_eq_false_2 by done.
  rewrite <- Hs, Hsplit. cbn [item0 mbind result_bind].
  by rewrite (backend_REQ_MAP_alphabetic _ Hd).
Qed.

End backend_prefix_facts.

(** ** Paths and failures *)

Section path_facts.
Implicit Types (env : ScriptsParsers.Env) (path : string).

Lemma split_at_nonempty sep (s : string) : Str.split_at sep s ≠ [].
Proof.
  destruct s as [|c s]; simpl; [done|].
  destruct (sep c); [done|]. by destruct (Str.split_at sep s).
Qed.

(** No part of a split holds a separator. *)
Lemma split_at_parts sep (s part : string) :
  part ∈ Str.split_at sep s →
  ∀ c, c ∈ list_ascii_of_string part → sep c = false.
Proof.
  revert part. induction s as [|a s IH]; simpl; intros part.
  - intros ->%list_elem_of_singleton c. simpl. by intros ?%elem_of_nil.
  - destruct (sep a) eqn:Ha.
    + intros [->|Hin]%elem_of_cons c; [simpl; by intros ?%elem_of_nil | by apply (IH part)].
    + destruct (Str.split_at sep s) as [|p ps] eqn:Hs.
      * intros ->%list_elem_of_singleton c. simpl.
        by intros ->%list_elem_of_singleton.
      * intros [->|Hin]%elem_of_cons c.
        -- simpl. intros [->|Hc]%elem_of_cons; [done|].
           apply (IH p); [apply list_elem_of_here | done].
        -- apply (IH part). by apply list_elem_of_further.
Qed.

Lemma last_elem {A} (l : list A) (d : A) : l ≠ [] → List.last l d ∈ l.
Proof.
  induction l as [|x l IH]; [done|]. intros _. destruct l as [|y l].
  - apply list_elem_of_here.
  - apply list_elem_of_further. by apply IH.
Qed.

(** The base name holds no slash: it is a single path component. *)
Lemma basename_no_slash path :
  "/"%char ∉ list_ascii_of_string (Str.basename path).
Proof.
  intros Hin. unfold Str.basename in Hin.
  pose proof (split_at_parts _ path _
                (last_elem _ EmptyString (split_at_nonempty _ path)) _ Hin) as H.
  simpl in H. done.
Qed.

(** Splitting a string without a separator yields the string. *)
Lemma split_at_none sep (s : string) :
  (∀ c, c ∈ list_ascii_of_string s → sep c = false) →
  Str.split_at sep s = [s].
Proof.
  induction s as [|a s IH]; simpl; [done|]. intros H.
  rewrite (H a) by apply list_elem_of_here.
  rewrite IH; [done|]. intros c Hc. apply H. by apply list_elem_of_further.
Qed.

Lemma basename_idemp path : Str.basename (Str.basename path) = Str.basename path.
Proof.
  unfold Str.basename at 1. rewrite split_at_none; [done|].
  intros c Hc. apply bool_decide_eq_false_2. intros ->.
  by apply (basename_no_slash path).
Qed.

Lemma resolve_basename env path :
  ScriptsParsers.resolve env (Str.basename path) = ScriptsParsers.resolve env path.
Proof. unfold ScriptsParsers.resolve. by rewrite basename_idemp. Qed.

(** Resolving is idempotent whatever the data directory is: the resolved
    path has the base name it was built from. *)
Lemma extract_rows_basename env path :
  ScriptsParsers.extract_rows env (Str.basename path) =
  ScriptsParsers.extract_rows env path.
Proof.
  unfold ScriptsParsers.extract_rows. by rewrite resolve_basename.
Qed.

(** [extract_rows] consults the environment at the resolved path only. *)
Lemma extract_rows_frame env env' path :
  ScriptsParsers.DATA_DIR env = ScriptsParsers.DATA_DIR env' →
  ScriptsParsers.striprtf_installed env = ScriptsParsers.striprtf_installed env' →
  ScriptsParsers.path_exists env (ScriptsParsers.resolve env path) =
    ScriptsParsers.path_exists env' (ScriptsParsers.resolve env path) →
  ScriptsParsers.pdf_pages env (ScriptsParsers.resolve env path) =
    ScriptsParsers.pdf_pages env' (ScriptsParsers.resolve env path) →
  ScriptsParsers.rtf_text env (ScriptsParsers.resolve env path) =
    ScriptsParsers.rtf_text env' (ScriptsParsers.resolve env path) →
  ScriptsParsers.extract_rows env path = ScriptsParsers.extract_rows env' path.
Proof.
  intros Hdir Hrtf Hex Hpdf Htext.
  unfold ScriptsParsers.extract_rows, ScriptsParsers._table_rows_from_pdf.
  assert (ScriptsParsers.resolve env' path = ScriptsParsers.resolve env path) as ->.
  { unfold ScriptsParsers.resolve. by rewrite Hdir. }
  by rewrite Hex, Hpdf, Htext, Hrtf.
Qed.


Lemma chars_app (x y : string) :
  list_ascii_of_string (x ++ y)%string =
  list_ascii_of_string x ++ list_ascii_of_string y.
Proof. induction x as [|c x IH]; simpl; [done | by rewrite IH]. Qed.

Lemma map_chars_app f (x y : string) :
  Str.map_chars f (x ++ y)%string = (Str.map_chars f x ++ Str.map_chars f y)%string.
Proof. induction x as [|c x IH]; simpl; [done | by rewrite IH]. Qed.

Lemma endswith_cons c (s suffix : string) :
  Str.endswith (String c s) suffix =
  String.eqb (String c s) suffix || Str.endswith s suffix.
Proof. done. Qed.

Lemma endswith_app_r (x y suffix : string) :
  Str.endswith y suffix = true → Str.endswith (x ++ y)%string suffix = true.
Proof.
  intros Hy. induction x as [|c x IH]; [done|].
  change (String c x ++ y)%string with (String c (x ++ y)%string).
  rewrite endswith_cons, IH. apply orb_true_r.
Qed.

(** A suffix of [x ++ y] is a suffix of [y] or reaches into [x]. *)
Lemma endswith_app_inv (x y suffix : string) :
  Str.endswith (x ++ y)%string suffix = true →
  Str.endswith y suffix = true ∨
  ∃ pre mid, mid ≠ EmptyString ∧ x = (pre ++ mid)%string ∧ suffix = (mid ++ y)%string.
Proof.
  induction x as [|c x IH]; [by left|].
  change (String c x ++ y)%string with (String c (x ++ y)%string).
  rewrite endswith_cons. intros [Heq|Hend]%orb_true_iff.
  - apply String.eqb_eq in Heq. right. exists EmptyString, (String c x). done.
  - destruct (IH Hend) as [?|(pre & mid & Hmid & -> & ->)]; [by left|].
    right. exists (String c pre), mid. done.
Qed.

Lemma endswith_slash_elem (s : string) :
  Str.endswith s "/" = true → "/"%char ∈ list_ascii_of_string s.
Proof.
  induction s as [|c s IH]; [done|].
  rewrite endswith_cons. intros [Heq|Hend]%orb_true_iff.
  - apply String.eqb_eq in Heq. injection Heq as -> ->. apply list_elem_of_here.
  - simpl. apply list_elem_of_further. by apply IH.
Qed.

Lemma endswith_slash_suffix (pre mid : string) :
  mid ≠ EmptyString →
  Str.endswith (pre ++ mid)%string "/" = true → Str.endswith mid "/" = true.
Proof.
  intros Hmid. induction pre as [|c pre IH]; [done|].
  change (String c pre ++ mid)%string with (String c (pre ++ mid)%string).
  rewrite endswith_cons. intros [Heq|Hend]%orb_true_iff; [|by apply IH].
  apply String.eqb_eq in Heq. injection Heq as _ Heq.
  destruct pre; [simpl in Heq; done | done].
Qed.

Lemma endswith_slash_lower (s : string) :
  Str.endswith s "/" = true → Str.endswith (Str.lower s) "/" = true.
Proof.
  induction s as [|c s IH]; [done|].
  change (Str.lower (String c s)) with (String (Str.lower_char c) (Str.lower s)).
  rewrite !endswith_cons. intros [Heq|Hend]%orb_true_iff.
  - apply String.eqb_eq in Heq. by injection Heq as -> ->.
  - rewrite (IH Hend). apply orb_true_r.
Qed.

(** [os.path.join] with a single component: the directory part, which is
    empty or ends in a slash, followed by the component. *)
Lemma path_join_component (a b : string) :
  "/"%char ∉ list_ascii_of_string b →
  ∃ a', Str.path_join a b = (a' ++ b)%string ∧
        (a' = EmptyString ∨ Str.endswith a' "/" = true).
Proof.
  intros Hb. unfold Str.path_join.
  assert (String.prefix "/" b = false) as ->.
  { destruct b as [|c b]; [done|].
    change (String.prefix "/" (String c b))
      with (if ascii_dec "/" c then String.prefix EmptyString b else false).
    destruct (ascii_dec "/" c) as [<-|?]; [|done].
    exfalso. apply Hb. apply list_elem_of_here. }
  destruct (bool_decide (a = EmptyString) || Str.endswith a "/") eqn:Ha.
  - exists a. split; [done|]. apply orb_true_iff in Ha as [Ha|Ha]; [|by right].
    left. by apply bool_decide_eq_true in Ha.
  - exists (a ++ "/")%string. split.
    + clear. induction a as [|c a IH]; [done|].
      change (String c (a ++ "/" ++ b)%string = String c ((a ++ "/") ++ b)%string).
      by rewrite IH.
    + right. by apply endswith_app_r.
Qed.

(** The extension test on the resolved path is a test on the component,
    for an extension without a slash. *)
Lemma endswith_path_join (a b suffix : string) :
  "/"%char ∉ list_ascii_of_string b →
  "/"%char ∉ list_ascii_of_string suffix →
  Str.endswith (Str.lower (Str.path_join a b)) suffix =
  Str.endswith (Str.lower b) suffix.
Proof.
  intros Hb Hsuf. destruct (path_join_component a b Hb) as (a' & -> & Ha').
  unfold Str.lower. rewrite map_chars_app.
  destruct (Str.endswith (Str.map_chars Str.lower_char b) suffix) eqn:Hend.
  - by apply endswith_app_r.
  - apply not_true_is_false. intros Happ.
    apply endswith_app_inv in Happ as [?|(pre & mid & Hmid & Hx & ->)]; [congruence|].
    destruct Ha' as [->|Ha'].
    + destruct pre; simpl in Hx; [by subst | done].
    + apply endswith_slash_lower in Ha'. unfold Str.lower in Ha'.
      rewrite Hx in Ha'. apply endswith_slash_suffix in Ha'; [|done].
      apply Hsuf. rewrite chars_app. apply elem_of_app. left.
      by apply endswith_slash_elem.
Qed.

Lemma resolved_extension env path (suffix : string) :
  "/"%char ∉ list_ascii_of_string suffix →
  Str.endswith (Str.lower (ScriptsParsers.resolve env path)) suffix =
  Str.endswith (Str.lower (Str.basename path)) suffix.
Proof.
  intros Hsuf. apply endswith_path_join; [apply basename_no_slash | done].
Qed.


(** *** The directory loop *)

Lemma parse_each_foldl env directory (names : list string) (data : list ScriptsParsers.Parsed) :
  foldl (λ data fname,
           if Str.endswith (Str.lower fname) ".pdf"
              || Str.endswith (Str.lower fname) ".rtf"
           then match ScriptsParsers.parse_file env (Str.path_join directory fname) with
                | Ok d => data ++ [d]
                | Raise _ => data
                end
           else data) data names
  = data ++ ScriptsParsers.parse_each env directory names.
Proof.
  unfold ScriptsParsers.parse_each. revert data.
  induction names as [|fname names IH] using rev_ind; intros data.
  - by rewrite app_nil_r.
  - rewrite !foldl_app. cbn [foldl]. rewrite (IH data), (IH []). simpl.
    destruct (_ || _); [|done].
    destruct (ScriptsParsers.parse_file _ _); [|done]. by rewrite app_assoc.
Qed.

Lemma parse_each_app env directory (l1 l2 : list string) :
  ScriptsParsers.parse_each env directory (l1 ++ l2) =
  ScriptsParsers.parse_each env directory l1 ++ ScriptsParsers.parse_each env directory l2.
Proof.
  unfold ScriptsParsers.parse_each at 1. rewrite foldl_app.
  fold (ScriptsParsers.parse_each env directory l1). apply parse_each_foldl.
Qed.

(** A file whose parse raises leaves no trace in the collected data. *)
Lemma parse_each_skip env directory (l1 l2 : list string) fname e :
  ScriptsParsers.parse_file env (Str.path_join directory fname) = Raise e →
  ScriptsParsers.parse_each env directory (l1 ++ fname :: l2) =
  ScriptsParsers.parse_each env directory (l1 ++ l2).
Proof.
  intros He. rewrite !parse_each_app. f_equal.
  change (fname :: l2) with ([fname] ++ l2). rewrite parse_each_app.
  unfold ScriptsParsers.parse_each at 1. simpl. rewrite He.
  by destruct (_ || _).
Qed.

(** A file whose parse returns is part of the collected data. *)
Lemma parse_each_elem env directory (names : list string) fname d :
  fname ∈ names →
  Str.endswith (Str.lower fname) ".pdf" || Str.endswith (Str.lower fname) ".rtf" = true →
  ScriptsParsers.parse_file env (Str.path_join directory fname) = Ok d →
  d ∈ ScriptsParsers.parse_each env directory names.
Proof.
  intros (l1 & l2 & ->)%list_elem_of_split Hext Hd.
  change (fname :: l2) with ([fname] ++ l2). rewrite !parse_each_app.
  apply elem_of_app. right. apply elem_of_app. left.
  unfold ScriptsParsers.parse_each. simpl. rewrite Hext, Hd.
  apply list_elem_of_here.
Qed.

Lemma elem_of_concat_2 {A} (x : A) (l : list A) (ls : list (list A)) :
  x ∈ l → l ∈ ls → x ∈ concat ls.
Proof.
  intros Hx. induction ls as [|l' ls IH]; [by intros ?%elem_of_nil|].
  simpl. intros [->|Hl]%elem_of_cons; apply elem_of_app; [by left | right; by apply IH].
Qed.

Lemma aggregate_courses (data : list ScriptsParsers.Parsed) :
  ScriptsParsers.courses (ScriptsParsers.aggregate data) =
  concat (ScriptsParsers.courses <$> data).
Proof.
  unfold ScriptsParsers.aggregate.
  induction data as [|d data IH] using rev_ind; [done|].
  rewrite foldl_app, fmap_app, concat_app. simpl. by rewrite IH, app_nil_r.
Qed.

(** C6.  In every environment:
    - [extract_rows] works on the base name of its argument joined to the
      data directory; the base name holds no slash, and two paths with the
      same base name are treated alike, so directory parts of the argument,
      [..] included, are ignored;
    - the environment is consulted at the resolved path only;
    - a missing file raises [FileNotFoundError];
    - an existing file whose name ends, case apart, neither in [.pdf] nor
      in [.rtf] raises [ValueError] (unsupported format); rows are returned
      only for an existing file with one of the two extensions;
    - in [parse_directory] a file whose parse raises is skipped: the
      collected data are those of the listing without it, the call returns
      whenever the listing does, and the courses of every file that parsed
      are in the result. *)
Theorem extract_rows_failures env :
  (∀ path,
     ScriptsParsers.resolve env path =
       Str.path_join (ScriptsParsers.DATA_DIR env) (Str.basename path) ∧
     ("/"%char ∉ list_ascii_of_string (Str.basename path)) ∧
     ScriptsParsers.extract_rows env (Str.basename path) =
       ScriptsParsers.extract_rows env path) ∧
  (∀ env' path,
     ScriptsParsers.DATA_DIR env = ScriptsParsers.DATA_DIR env' →
     ScriptsParsers.striprtf_installed env = ScriptsParsers.striprtf_installed env' →
     ScriptsParsers.path_exists env (ScriptsParsers.resolve env path) =
       ScriptsParsers.path_exists env' (ScriptsParsers.resolve env path) →
     ScriptsParsers.pdf_pages env (ScriptsParsers.resolve env path) =
       ScriptsParsers.pdf_pages env' (ScriptsParsers.resolve env path) →
     ScriptsParsers.rtf_text env (ScriptsParsers.resolve env path) =
       ScriptsParsers.rtf_text env' (ScriptsParsers.resolve env path) →
     ScriptsParsers.extract_rows env path = ScriptsParsers.extract_rows env' path) ∧
  (∀ path,
     ScriptsParsers.path_exists env (ScriptsParsers.resolve env path) = false →
     ScriptsParsers.extract_rows env path =
       Raise (FileNotFoundError (ScriptsParsers.resolve env path))) ∧
  (∀ path,
     ScriptsParsers.path_exists env (ScriptsParsers.resolve env path) = true →
     Str.endswith (Str.lower (Str.basename path)) ".pdf" = false →
     Str.endswith (Str.lower (Str.basename path)) ".rtf" = false →
     ScriptsParsers.extract_rows env path =
       Raise (ValueError ("Unsupported file format: "
                            ++ ScriptsParsers.resolve env path)%string)) ∧
  (∀ path rows,
     ScriptsParsers.extract_rows env path = Ok rows →
     ScriptsParsers.path_exists env (ScriptsParsers.resolve env path) = true ∧
     (Str.endswith (Str.lower (Str.basename path)) ".pdf" = true ∨
      Str.endswith (Str.lower (Str.basename path)) ".rtf" = true)) ∧
  (∀ directory l1 fname l2 e,
     ScriptsParsers.parse_file env (Str.path_join directory fname) = Raise e →
     ScriptsParsers.parse_each env directory (l1 ++ fname :: l2) =
     ScriptsParsers.parse_each env directory (l1 ++ l2)) ∧
  (∀ directory dir names,
     dir = match directory with
           | Some (String a s) => String a s
           | _ => ScriptsParsers.DATA_DIR env
           end →
     ScriptsParsers.listdir env dir = Ok names →
     ∃ parsed,
       ScriptsParsers.parse_directory env directory = Ok parsed ∧
       ∀ fname d c,
         fname ∈ names →
         Str.endswith (Str.lower fname) ".pdf"
           || Str.endswith (Str.lower fname) ".rtf" = true →
         ScriptsParsers.parse_file env (Str.path_join dir fname) = Ok d →
         c ∈ ScriptsParsers.courses d → c ∈ ScriptsParsers.courses parsed).
Proof.
  assert (∀ suffix : string, suffix = ".pdf" ∨ suffix = ".rtf" →
            "/"%char ∉ list_ascii_of_string suffix) as Hsuf.
  { intros suffix [->| ->]; by apply (bool_decide_unpack _). }
  split_and!.
  - intros path. split_and!;
      [done | apply basename_no_slash | apply extract_rows_basename].
  - intros env' path. apply extract_rows_frame.
  - intros path Hex. unfold ScriptsParsers.extract_rows.
    by rewrite Hex.
  - intros path Hex Hpdf Hrtf. unfold ScriptsParsers.extract_rows.
    rewrite Hex. simpl.
    rewrite !resolved_extension, Hpdf, Hrtf by (apply Hsuf; auto). done.
  - intros path rows. unfold ScriptsParsers.extract_rows.
    destruct (ScriptsParsers.path_exists env _); simpl; [|done].
    rewrite !resolved_extension by (apply Hsuf; auto).
    destruct (Str.endswith (Str.lower (Str.basename path)) ".pdf"); [by auto|].
    destruct (Str.endswith (Str.lower (Str.basename path)) ".rtf"); [by auto|].
    done.
  - intros directory l1 fname l2 e. apply parse_each_skip.
  - intros directory dir names -> Hls. unfold ScriptsParsers.parse_directory.
    rewrite Hls. simpl.
    eexists. split; [done|]. intros fname d c Hin Hext Hd Hc.
    rewrite aggregate_courses. apply (elem_of_concat_2 _ (ScriptsParsers.courses d)); [done|].
    apply list_elem_of_fmap_2. by eapply parse_each_elem.
Qed.

End path_facts.

(** In the worked directory the parse of [fall.pdf] raises [ValueError],
    that of [gone.rtf] raises [FileNotFoundError], [notes.txt] is not
    looked at; the result is that of [spring.pdf] alone.  A path that
    climbs out of the data directory is resolved inside it. *)
Lemma parse_directory_skips_failures :
  ScriptsParsers.parse_file Scenario.env_dir "./_context/fall.pdf" =
    Raise (ValueError "could not convert string to float: TBD") ∧
  ScriptsParsers.parse_file Scenario.env_dir "./_context/gone.rtf" =
    Raise (FileNotFoundError "./_context/gone.rtf") ∧
  ScriptsParsers.extract_rows Scenario.env_dir "notes.txt" =
    Raise (ValueError "Unsupported file format: ./_context/notes.txt") ∧
  ScriptsParsers.extract_rows Scenario.env_dir "../../etc/passwd" =
    Raise (FileNotFoundError "./_context/passwd") ∧
  ScriptsParsers.parse_directory Scenario.env_dir None =
    Ok (ScriptsParsers.mkParsed
          [ScriptsParsers.mkCourseDict "CH 101" "Church History" 3 "" "" ""
             ["Historical Studies"]]
          [("Historical Studies", (0 + 3)%Q)]).
Proof. split_and!; by vm_compute. Qed.

(** ** The keyword based tagger *)

Section tagger_facts.
Implicit Types (c : Course.t) (r : Requirement.t) (courses : list Course.t)
  (requirements : list Requirement.t) (text rid cid : string)
  (entries : list (string * list string)).

(** With distinct ids [add_to_first] reaches every requirement that
    carries the id: the [break] skips nothing. *)
Lemma add_to_first_distinct rid cid requirements :
  NoDup (Requirement.id <$> requirements) →
  Parsers.add_to_first rid cid requirements =
  (λ r, if decide (Requirement.id r = rid)
        then Requirement.add_satisfied_by cid r else r) <$> requirements.
Proof.
  induction requirements as [|r rs IH]; [done|].
  rewrite fmap_cons. intros [Hnotin Hnd]%NoDup_cons. simpl.
  destruct (decide (Requirement.id r = rid)) as [Heq|Hne].
  - f_equal. clear IH Hnd. induction rs as [|r' rs IH]; [done|].
    rewrite fmap_cons in Hnotin. apply not_elem_of_cons in Hnotin as [Hne Hnotin].
    simpl. rewrite decide_False by congruence. f_equal. by apply IH.
  - f_equal. by apply IH.
Qed.

Lemma add_to_first_ids rid cid requirements :
  Requirement.id <$> Parsers.add_to_first rid cid requirements =
  Requirement.id <$> requirements.
Proof.
  induction requirements as [|r rs IH]; [done|]. cbn [Parsers.add_to_first].
  destruct (decide (Requirement.id r = rid)); rewrite !fmap_cons; [done | by rewrite IH].
Qed.

Lemma link_entry_eq text c rs rid kws :
  Parsers.link_entry text (c, rs) (rid, kws) =
  if Parsers.any_keyword text kws
  then (Course.add_satisfies rid c, Parsers.add_to_first rid (Course.id c) rs)
  else (c, rs).
Proof. done. Qed.

Lemma keyword_match_cons entries text rid kws rid' :
  Spec.keyword_match ((rid, kws) :: entries) text rid' ↔
  (rid' = rid ∧ Parsers.any_keyword text kws = true) ∨
  Spec.keyword_match entries text rid'.
Proof.
  unfold Spec.keyword_match. split.
  - intros (kws' & [Heq|Hin]%elem_of_cons & Hk).
    + injection Heq as -> ->. by left.
    + right. by exists kws'.
  - intros [[-> Hk]|(kws' & Hin & Hk)].
    + exists kws. split; [apply list_elem_of_here | done].
    + exists kws'. split; [by apply list_elem_of_further | done].
Qed.

Lemma keyword_match_nil text rid : ¬ Spec.keyword_match [] text rid.
Proof. intros (kws & Hin & _). by apply elem_of_nil in Hin. Qed.

(** The state of the loop over the mapping, from a state [(c, rs)] with
    distinct requirement ids, after the entries [entries]. *)
Lemma link_entries_spec text entries c rs c' rs' :
  NoDup (Requirement.id <$> rs) →
  foldl (Parsers.link_entry text) (c, rs) entries = (c', rs') →
  Spec.same_course c c' ∧
  (∀ rid, rid ∈ Course.satisfies c' ↔
          rid ∈ Course.satisfies c ∨ Spec.keyword_match entries text rid) ∧
  Forall2 (λ r r',
             Requirement.id r' = Requirement.id r ∧
             ∀ x, x ∈ Requirement.satisfied_by r' ↔
                  x ∈ Requirement.satisfied_by r ∨
                  (x = Course.id c ∧ Spec.keyword_match entries text (Requirement.id r)))
          rs rs'.
Proof.
  revert c rs. induction entries as [|[rid kws] entries IH]; intros c rs Hnd.
  - intros [= <- <-]. split_and!; [done | |].
    + intros rid. pose proof (keyword_match_nil text rid). tauto.
    + apply Forall2_same_length_lookup_2; [done|].
      intros i r r' Hr Hr'. assert (r' = r) as -> by congruence. split; [done|].
      intros x. pose proof (keyword_match_nil text (Requirement.id r)). tauto.
  - cbn [foldl]. rewrite link_entry_eq.
    destruct (Parsers.any_keyword text kws) eqn:Hany; intros Hfold.
    + apply IH in Hfold as ((Hid & Htext) & Hsat & Hreqs);
        [|by rewrite add_to_first_ids].
      split_and!; [done | |].
      * intros rid'. rewrite Hsat, keyword_match_cons, Hany.
        cbn [Course.satisfies Course.add_satisfies].
        rewrite elem_of_union, elem_of_singleton. tauto.
      * rewrite (add_to_first_distinct _ _ _ Hnd) in Hreqs.
        apply Forall2_fmap_l in Hreqs. eapply Forall2_impl; [exact Hreqs|].
        intros r r' [Hid' Hx]. cbn beta in Hid', Hx.
        destruct (decide (Requirement.id r = rid)) as [Heq|Hne].
        -- split; [done|]. intros x. rewrite Hx, keyword_match_cons, Hany.
           cbn [Requirement.satisfied_by Requirement.add_satisfied_by
                Requirement.id Course.id Course.add_satisfies].
           rewrite elem_of_union, elem_of_singleton. tauto.
        -- split; [done|]. intros x. rewrite Hx, keyword_match_cons.
           cbn [Course.id Course.add_satisfies]. tauto.
    + apply IH in Hfold as (Hsame & Hsat & Hreqs); [|done].
      split_and!; [done | |].
      * intros rid'. rewrite Hsat, keyword_match_cons, Hany.
        split; [tauto|]. intros [?|[[_ ?]|?]]; [tauto | done | tauto].
      * eapply Forall2_impl; [exact Hreqs|]. intros r r' [Hid' Hx]. split; [done|].
        intros x. rewrite Hx, keyword_match_cons, Hany.
        split; [tauto|]. intros [?|[? [[_ ?]|?]]]; [tauto | done | tauto].
Qed.

Lemma Forall2_chain {A B C} (P : A → B → Prop) (Q : B → C → Prop) (R : A → C → Prop)
    (l1 : list A) (l2 : list B) (l3 : list C) :
  (∀ x y z, P x y → Q y z → R x z) →
  Forall2 P l1 l2 → Forall2 Q l2 l3 → Forall2 R l1 l3.
Proof.
  intros HR H12. revert l3. induction H12 as [|x y l1 l2 Hxy _ IH]; intros l3 H23.
  - inversion H23. constructor.
  - inversion H23 as [|y' z l2' l3' Hyz H23']; subst. constructor; [by eapply HR | by apply IH].
Qed.

Lemma Forall2_ids (P : Requirement.t → Requirement.t → Prop) rs rs' :
  Forall2 (λ r r', Requirement.id r' = Requirement.id r ∧ P r r') rs rs' →
  Requirement.id <$> rs' = Requirement.id <$> rs.
Proof.
  induction 1 as [|r r' rs rs' [Hid _] _ IH]; [done|].
  by rewrite !fmap_cons, Hid, IH.
Qed.

(** The two lists after the loop over the courses. *)
Lemma link_courses_spec courses acc rs cs' rs' :
  NoDup (Requirement.id <$> rs) →
  foldl (λ st course,
           let '(course', requirements') := Parsers.link_course course st.2 in
           (st.1 ++ [course'], requirements'))
        (acc, rs) courses = (cs', rs') →
  ∃ tagged,
    cs' = acc ++ tagged ∧
    Forall2 (λ c c',
               Spec.same_course c c' ∧
               ∀ rid, rid ∈ Course.satisfies c' ↔
                      rid ∈ Course.satisfies c ∨
                      Spec.keyword_match Parsers.mapping (Parsers.course_text c) rid)
            courses tagged ∧
    Forall2 (λ r r',
               Requirement.id r' = Requirement.id r ∧
               ∀ x, x ∈ Requirement.satisfied_by r' ↔
                    x ∈ Requirement.satisfied_by r ∨
                    ∃ c, c ∈ courses ∧ x = Course.id c ∧
                         Spec.keyword_match Parsers.mapping (Parsers.course_text c)
                                            (Requirement.id r))
            rs rs'.
Proof.
  revert acc rs. induction courses as [|c courses IH]; intros acc rs Hnd.
  - intros [= <- <-]. exists []. split_and!; [by rewrite app_nil_r | constructor |].
    apply Forall2_same_length_lookup_2; [done|].
    intros i r r' Hr Hr'. assert (r' = r) as -> by congruence. split; [done|].
    intros x. split; [by left|]. intros [?|(c & Hc & _)]; [done|].
    by apply elem_of_nil in Hc.
  - cbn [foldl]. cbn [fst snd].
    destruct (Parsers.link_course c rs) as [c1 rs1] eqn:Hlink.
    unfold Parsers.link_course in Hlink.
    apply link_entries_spec in Hlink as (Hsame & Hsat & Hreqs); [|done].
    intros Hfold. apply IH in Hfold as (tagged & -> & Hcs & Hrs);
      [|by rewrite (Forall2_ids _ _ _ Hreqs)].
    exists (c1 :: tagged). split_and!.
    + by rewrite <- app_assoc.
    + by constructor.
    + eapply Forall2_chain; [|exact Hreqs|exact Hrs].
      intros r r1 r' [Hid1 Hx1] [Hid' Hx']. split; [congruence|].
      intros x. rewrite Hx', Hx1, Hid1. split.
      * intros [[?|[-> Hm]]|(c0 & Hc0 & -> & Hm)]; [by left | right | right].
        -- exists c. split; [apply list_elem_of_here | done].
        -- exists c0. split; [by apply list_elem_of_further | done].
      * intros [?|(c0 & [->|Hc0]%elem_of_cons & -> & Hm)];
          [by left; left | by left; right | right].
        by exists c0.
Qed.

(** C2, as the code has it.  Let the course ids be pairwise distinct and
    the requirement ids be pairwise distinct, and let every [satisfies] and
    [satisfied_by] set be empty.  After [link_courses_to_requirements] the
    two sides agree: for every course and every requirement of the lists,
    the course id is in the requirement's [satisfied_by] exactly when the
    requirement id is in the course's [satisfies]. *)
Theorem link_consistent_distinct_ids courses requirements :
  NoDup (Course.id <$> courses) →
  NoDup (Requirement.id <$> requirements) →
  Spec.untagged courses requirements →
  Spec.consistent
    (Parsers.link_courses_to_requirements courses requirements).1
    (Parsers.link_courses_to_requirements courses requirements).2.
Proof.
  intros Hcnd Hrnd [Hc0 Hr0]. unfold Parsers.link_courses_to_requirements.
  destruct (foldl _ _ courses) as [cs' rs'] eqn:Hfold.
  apply link_courses_spec in Hfold as (tagged & -> & Hcs & Hrs); [|done].
  cbn [fst snd app]. intros c' r' Hc' Hr'.
  apply list_elem_of_lookup in Hc' as [i Hi]. apply list_elem_of_lookup in Hr' as [j Hj].
  destruct (Forall2_lookup_r _ _ _ _ _ Hcs Hi) as (c & Hc & [Hid Htext] & Hsat).
  destruct (Forall2_lookup_r _ _ _ _ _ Hrs Hj) as (r & Hr & Hrid & Hby).
  rewrite Hby, Hsat, Hrid, Hid.
  rewrite (Hc0 c) by by eapply list_elem_of_lookup_2.
  rewrite (Hr0 r) by by eapply list_elem_of_lookup_2.
  split.
  - intros [?%not_elem_of_empty|(c0 & Hin0 & Heq & Hm)]; [done|]. right.
    apply list_elem_of_lookup in Hin0 as [k Hk].
    assert (k = i) as ->.
    { eapply NoDup_lookup; [exact Hcnd | |].
      - by rewrite list_lookup_fmap, Hk.
      - rewrite list_lookup_fmap, Hc. simpl. by rewrite Heq. }
    assert (c0 = c) as -> by congruence. done.
  - intros [?%not_elem_of_empty|Hm]; [done|]. right. exists c.
    split_and!; [by eapply list_elem_of_lookup_2 | done | done].
Qed.

Lemma untagged_Forall courses requirements :
  Forall (λ c, Course.satisfies c = ∅) courses →
  Forall (λ r, Requirement.satisfied_by r = ∅) requirements →
  Spec.untagged courses requirements.
Proof. rewrite !Forall_forall. by split. Qed.

(** Two courses and two requirements with distinct ids end up consistent. *)
Lemma link_consistent_distinct_ids_witness :
  Spec.consistent
    (Parsers.link_courses_to_requirements
       [Scenario.intro_bible; Scenario.topics_a]
       [Scenario.bible; Scenario.practical]).1
    (Parsers.link_courses_to_requirements
       [Scenario.intro_bible; Scenario.topics_a]
       [Scenario.bible; Scenario.practical]).2.
Proof.
  apply (link_consistent_distinct_ids
           [Scenario.intro_bible; Scenario.topics_a]
           [Scenario.bible; Scenario.practical]).
  - apply (bool_decide_unpack _). vm_compute. exact I.
  - apply (bool_decide_unpack _). vm_compute. exact I.
  - apply untagged_Forall; repeat constructor.
Defined.

(** C2, as stated, fails on repeated ids.  With two requirements of id
    [bible] the loop stops at the first: the course holds [bible] in
    [satisfies], the second requirement does not hold the course.  With two
    courses of one id and different titles, [practical] holds the shared id
    for the first course, and the second course does not hold [practical]. *)
Lemma link_one_sided_on_repeated_ids :
  (Spec.untagged [Scenario.intro_bible] [Scenario.bible; Scenario.bible_again] ∧
   ¬ Spec.consistent
       (Parsers.link_courses_to_requirements
          [Scenario.intro_bible] [Scenario.bible; Scenario.bible_again]).1
       (Parsers.link_courses_to_requirements
          [Scenario.intro_bible] [Scenario.bible; Scenario.bible_again]).2) ∧
  (Spec.untagged [Scenario.topics_a; Scenario.topics_b] [Scenario.practical] ∧
   ¬ Spec.consistent
       (Parsers.link_courses_to_requirements
          [Scenario.topics_a; Scenario.topics_b] [Scenario.practical]).1
       (Parsers.link_courses_to_requirements
          [Scenario.topics_a; Scenario.topics_b] [Scenario.practical]).2).
Proof.
  split; (split; [apply untagged_Forall; repeat constructor|]).
  - assert (Parsers.link_courses_to_requirements
              [Scenario.intro_bible] [Scenario.bible; Scenario.bible_again] =
            ([Course.add_satisfies "bible" Scenario.intro_bible],
             [Requirement.add_satisfied_by "BIBL 101_Fall 2025_Dr." Scenario.bible;
              Scenario.bible_again])) as -> by by vm_compute.
    intros H.
    destruct (H (Course.add_satisfies "bible" Scenario.intro_bible)
                Scenario.bible_again) as [_ H2].
    + apply list_elem_of_here.
    + apply list_elem_of_further, list_elem_of_here.
    + apply (not_elem_of_empty (C:=gset string) "BIBL 101_Fall 2025_Dr."). apply H2.
      apply elem_of_union_l. by apply elem_of_singleton.
  - assert (Parsers.link_courses_to_requirements
              [Scenario.topics_a; Scenario.topics_b] [Scenario.practical] =
            ([Course.add_satisfies "practical" Scenario.topics_a; Scenario.topics_b],
             [Requirement.add_satisfied_by "TS 300_Fall 2025_Dr." Scenario.practical]))
      as -> by by vm_compute.
    intros H.
    destruct (H Scenario.topics_b
                (Requirement.add_satisfied_by "TS 300_Fall 2025_Dr." Scenario.practical))
      as [H1 _].
    + apply list_elem_of_further, list_elem_of_here.
    + apply list_elem_of_here.
    + apply (not_elem_of_empty (C:=gset string) "practical"). apply H1.
      apply elem_of_union_l. by apply elem_of_singleton.
Qed.

(** The linking loop of [create_sample_data] has no [break]: it serves
    every requirement, repeated ids included. *)
Lemma link_sample_data_spec courses requirements :
  Forall2 (λ r r',
             Requirement.id r' = Requirement.id r ∧
             ∀ x, x ∈ Requirement.satisfied_by r' ↔
                  x ∈ Requirement.satisfied_by r ∨
                  ∃ c, c ∈ courses ∧ x = Course.id c ∧
                       Requirement.id r ∈ Course.satisfies c)
          requirements (Utils.link_sample_data courses requirements).
Proof.
  unfold Utils.link_sample_data. revert requirements.
  induction courses as [|c courses IH]; intros rs.
  - simpl. apply Forall2_same_length_lookup_2; [done|].
    intros i r r' Hr Hr'. assert (r' = r) as -> by congruence. split; [done|].
    intros x. split; [by left|]. intros [?|(c & Hc & _)]; [done|].
    by apply elem_of_nil in Hc.
  - cbn [foldl].
    set (f := λ req, if decide (Requirement.id req ∈ Course.satisfies c)
                     then Requirement.add_satisfied_by (Course.id c) req else req).
    eapply (Forall2_chain (λ r r1, r1 = f r)); [| | apply IH];
      [| by apply Forall2_fmap_r, Forall_Forall2_diag, Forall_forall].
    intros r r1 r' -> [Hid Hx]. unfold f in Hid, Hx. clear f.
    destruct (decide (Requirement.id r ∈ Course.satisfies c)) as [Hin|Hnin].
    + split; [done|]. intros x. rewrite Hx.
      cbn [Requirement.satisfied_by Requirement.add_satisfied_by Requirement.id].
      rewrite elem_of_union, elem_of_singleton. split.
      * intros [[->|?]|(c0 & Hc0 & -> & Hm)]; [right | by left | right].
        -- exists c. split; [apply list_elem_of_here | done].
        -- exists c0. split; [by apply list_elem_of_further | done].
      * intros [?|(c0 & [->|Hc0]%elem_of_cons & -> & Hm)];
          [by left; right | by left; left | right].
        by exists c0.
    + split; [done|]. intros x. rewrite Hx. split.
      * intros [?|(c0 & Hc0 & -> & Hm)]; [by left | right].
        exists c0. split; [by apply list_elem_of_further | done].
      * intros [?|(c0 & [->|Hc0]%elem_of_cons & -> & Hm)]; [by left | done | right].
        by exists c0.
Qed.

Lemma link_sample_data_consistent courses requirements :
  NoDup (Course.id <$> courses) →
  (∀ r, r ∈ requirements → Requirement.satisfied_by r = ∅) →
  Spec.consistent courses (Utils.link_sample_data courses requirements).
Proof.
  intros Hnd Hr0 c r' Hc Hr'.
  apply list_elem_of_lookup in Hr' as [j Hj].
  destruct (Forall2_lookup_r _ _ _ _ _ (link_sample_data_spec courses requirements) Hj)
    as (r & Hr & Hid & Hx).
  rewrite Hx, Hid, (Hr0 r) by by eapply list_elem_of_lookup_2. split.
  - intros [?%not_elem_of_empty|(c0 & Hin0 & Heq & Hm)]; [done|].
    apply list_elem_of_lookup in Hin0 as [k Hk]. apply list_elem_of_lookup in Hc as [i Hi].
    assert (k = i) as ->.
    { eapply NoDup_lookup; [exact Hnd | |].
      - by rewrite list_lookup_fmap, Hk.
      - rewrite list_lookup_fmap, Hi. simpl. by rewrite Heq. }
    assert (c0 = c) as -> by congruence. done.
  - intros Hm. right. by exists c.
Qed.

End tagger_facts.

(** ** Further worked examples *)

(** Adding [course1] twice to a fresh plan: one entry, the timestamp of the
    first call. *)
Lemma add_course_idempotent_witness :
  ∃ p1,
    Plan.add_course 1%Z "Fall 2025" "course1" (Plan.fresh 0%Z) = Ok p1 ∧
    Plan.add_course 2%Z "Fall 2025" "course1" p1 = Ok p1 ∧
    Plan.selections p1 = [("Fall 2025", ["course1"])] ∧
    Plan.updated_at p1 = 1%Z.
Proof.
  destruct (add_course_idempotent 1%Z 2%Z "Fall 2025" "course1" (Plan.fresh 0%Z))
    as (p1 & H1 & _ & H2 & _).
  exists p1. split; [exact H1|]. split; [exact H2|].
  vm_compute in H1. injection H1 as <-. done.
Defined.

(** Removing an id that is not selected, from a present and from an absent
    semester, returns the plan as it was. *)
Lemma remove_course_absent_noop_witness :
  Plan.remove_course 5%Z "Fall 2025" "nonexistent" Scenario.plan = Ok Scenario.plan ∧
  Plan.remove_course 5%Z "Summer 2026" "BIBL101_Fall2025_Smith" Scenario.plan
    = Ok Scenario.plan.
Proof.
  split.
  - destruct (remove_course_absent_noop 5%Z "Fall 2025" "nonexistent" Scenario.plan)
      as (p' & Hrem & Hnoop & _).
    rewrite Hrem, Hnoop; [done|].
    intros (ids & Hids & Hin). vm_compute in Hids. injection Hids as <-.
    by apply list_elem_of_singleton in Hin.
  - destruct (remove_course_absent_noop 5%Z "Summer 2026" "BIBL101_Fall2025_Smith"
                Scenario.plan) as (p' & Hrem & Hnoop & _).
    rewrite Hrem, Hnoop; [done|].
    intros (ids & Hids & Hin). vm_compute in Hids. done.
Defined.

(** In the scenario [bible] is met and [historical] is not: 1 of 2, 50. *)
Lemma get_requirement_progress_witness :
  ∃ pr,
    Utils.get_requirement_progress Scenario.plan Scenario.catalog Scenario.requirements
      = Ok pr ∧
    Utils.met_requirements pr = 1%nat ∧
    Utils.total_requirements pr = 2%nat ∧
    Utils.progress_percentage pr = 50%float.
Proof.
  destruct (get_requirement_progress_percentage
              Scenario.plan Scenario.catalog Scenario.requirements)
    as (pr & Hget & Htot & _ & _ & _ & H50 & Hmet).
  assert (Utils.met_requirements pr = 1%nat) as H1.
  { rewrite Hmet; [by vm_compute|]. apply (bool_decide_unpack _). by vm_compute. }
  exists pr. split_and!; [done | done | done | by apply H50].
Defined.

(** A listed file that is missing, named through a path that climbs out of
    the data directory, is looked for inside it and reported as not found. *)
Lemma extract_rows_failures_witness :
  ScriptsParsers.extract_rows Scenario.env_dir "../../backup/gone.rtf" =
    Raise (FileNotFoundError "./_context/gone.rtf").
Proof.
  destruct (extract_rows_failures Scenario.env_dir) as (_ & _ & Hmissing & _).
  apply (Hmissing "../../backup/gone.rtf"). by vm_compute.
Defined.

(** *** What the tagger does with the prefix it derives *)

Section tally_facts.

(** [totals[f] += credits] for every category of a course: each of its
    categories gains the credits, the other totals stay. *)
Lemma add_credits_get (credits : Q) (fs : list string) (totals : PyDict.dict Q) f :
  NoDup fs →
  PyDict.get f (ScriptsParsers.add_credits credits totals fs) =
  if decide (f ∈ fs)
  then Some (default 0%Q (PyDict.get f totals) + credits)%Q
  else PyDict.get f totals.
Proof.
  unfold ScriptsParsers.add_credits. intros Hnd. revert totals.
  induction Hnd as [|x fs Hx _ IH]; intros totals; [done|].
  cbn [foldl]. rewrite IH. destruct (decide (f = x)) as [->|Hne].
  - rewrite decide_False by done. rewrite decide_True by apply list_elem_of_here.
    apply dict_get_set_eq.
  - rewrite dict_get_set_ne by done. destruct (decide (f ∈ fs)) as [Hin|Hnin].
    + rewrite decide_True by by apply list_elem_of_further. done.
    + rewrite decide_False; [done|]. by intros [?|?]%elem_of_cons.
Qed.

(** The tally loop of [parse_file] always returns: every course is tagged
    with the categories of the first whitespace delimited token of its code,
    and its credits are added to their totals, course after course. *)
Lemma tag_and_tally_spec (courses : list ScriptsParsers.CourseDict)
    (totals : PyDict.dict Q) :
  ScriptsParsers.tag_and_tally courses totals =
  Ok ((λ c, ScriptsParsers.with_fields
              (default [] (PyDict.get
                 (hd EmptyString (Str.re_split_space (ScriptsParsers.code c)))
                 ScriptsParsers.REQ_MAP)) c) <$> courses,
      foldl (λ totals c,
               ScriptsParsers.add_credits (ScriptsParsers.credits c) totals
                 (default [] (PyDict.get
                    (hd EmptyString (Str.re_split_space (ScriptsParsers.code c)))
                    ScriptsParsers.REQ_MAP)))
            totals courses).
Proof.
  revert totals. induction courses as [|c courses IH]; intros totals; [done|].
  cbn [ScriptsParsers.tag_and_tally]. unfold ScriptsParsers.prefix_of, Str.re_split_space.
  pose proof (split_at_nonempty Str.is_space (ScriptsParsers.code c)) as Hne.
  destruct (Str.split_at Str.is_space (ScriptsParsers.code c)) as [|token rest] eqn:Hs;
    [done|].
  cbn [item0 mbind result_bind hd]. rewrite IH. cbn [mbind result_bind].
  rewrite fmap_cons. cbn [foldl]. unfold Str.re_split_space. by rewrite Hs.
Qed.

End tally_facts.

(** * Part III: further properties of the code *)

(** ** models.py: dictionaries and back *)

Section dict_round_trips.

(** [Requirement.from_dict] undoes [Requirement.to_dict]. *)
Theorem requirement_dict_round_trip (r : Requirement.t) :
  Requirement.from_dict (Requirement.to_dict r) = Ok r.
Proof.
  destruct r as [i l m s]. unfold Requirement.from_dict, Requirement.to_dict. simpl.
  by rewrite list_to_set_elements_L.
Qed.

(** [Requirement.from_dict] raises only [KeyError], for the first of [id],
    [label], [min_credits] that is absent; an absent [satisfied_by] is an
    empty set.  When it returns, the set holds the ids of the list, and
    [to_dict] lists each of them once, however often the list repeats it. *)
Theorem requirement_from_dict_cases (data : Requirement.Dict) :
  match Requirement.from_dict data with
  | Ok r =>
      Requirement.d_id data = Some (Requirement.id r) ∧
      Requirement.d_label data = Some (Requirement.label r) ∧
      Requirement.d_min_credits data = Some (Requirement.min_credits r) ∧
      (∀ x, x ∈ Requirement.satisfied_by r ↔
            x ∈ default [] (Requirement.d_satisfied_by data)) ∧
      ∃ l, Requirement.d_satisfied_by (Requirement.to_dict r) = Some l ∧
           NoDup l ∧
           ∀ x, x ∈ l ↔ x ∈ default [] (Requirement.d_satisfied_by data)
  | Raise e =>
      (Requirement.d_id data = None ∧ e = KeyError "id") ∨
      (is_Some (Requirement.d_id data) ∧
       Requirement.d_label data = None ∧ e = KeyError "label") ∨
      (is_Some (Requirement.d_id data) ∧ is_Some (Requirement.d_label data) ∧
       Requirement.d_min_credits data = None ∧ e = KeyError "min_credits")
  end.
Proof.
  destruct data as [[i|] [l|] [m|] s]; unfold Requirement.from_dict; simpl;
    try (by left); try (by right; left); try (by right; right).
  split_and!; [done | done | done | intros x; apply elem_of_list_to_set |].
  eexists. split_and!; [done | apply NoDup_elements |].
  intros x. by rewrite elem_of_elements, elem_of_list_to_set.
Qed.

(** [Course.from_dict] undoes [Course.to_dict]. *)
Theorem course_dict_round_trip (c : Course.t) :
  Course.from_dict (Course.to_dict c) = Ok c.
Proof.
  destruct c. unfold Course.from_dict, Course.to_dict. simpl.
  by rewrite list_to_set_elements_L.
Qed.

(** [Plan.from_dict] undoes [Plan.to_dict] when [fromisoformat] reads back
    the two time stamps that [isoformat] wrote; whatever it reads, a plan
    that comes back has the selections and the notes of the original. *)
Theorem plan_dict_round_trip (isoformat : datetime → string)
    (fromisoformat : string → result datetime) (now1 now2 : datetime) (p : Plan.t) :
  fromisoformat (isoformat (Plan.created_at p)) = Ok (Plan.created_at p) →
  fromisoformat (isoformat (Plan.updated_at p)) = Ok (Plan.updated_at p) →
  Plan.from_dict isoformat fromisoformat now1 now2 (Plan.to_dict isoformat p) = Ok p.
Proof.
  intros Hc Hu. destruct p as [sel notes c u]. unfold Plan.from_dict, Plan.to_dict.
  simpl in *. by rewrite Hc, Hu.
Qed.

Lemma plan_dict_round_trip_witness :
  Plan.from_dict (λ _, "1970-01-01T00:00:00") (λ _, Ok 0%Z) 7%Z 8%Z
    (Plan.to_dict (λ _, "1970-01-01T00:00:00") Scenario.plan) = Ok Scenario.plan.
Proof.
  apply (plan_dict_round_trip (λ _, "1970-01-01T00:00:00") (λ _, Ok 0%Z) 7%Z 8%Z
           Scenario.plan); reflexivity.
Defined.

End dict_round_trips.

(** ** models.py: how the plan operations compose *)

Section plan_composition.
Implicit Types (p : Plan.t) (ids : list string).

Lemma dict_keys_set {V} k (v : V) (d : PyDict.dict V) :
  PyDict.keys (PyDict.set k v d) =
  if PyDict.mem k d then PyDict.keys d else PyDict.keys d ++ [k].
Proof.
  unfold PyDict.keys, PyDict.mem. induction d as [|[k0 v0] d IH]; [done|].
  cbn [PyDict.set PyDict.get]. destruct (decide (k = k0)) as [->|Hne]; [done|].
  rewrite !fmap_cons, IH. by destruct (PyDict.get k d).
Qed.

Lemma dict_set_same {V} k (v : V) (d : PyDict.dict V) :
  PyDict.get k d = Some v → PyDict.set k v d = d.
Proof.
  induction d as [|[k0 v0] d IH]; [done|]. cbn [PyDict.set PyDict.get].
  destruct (decide (k = k0)) as [->|Hne]; [by intros [= ->]|].
  intros H. by rewrite IH.
Qed.

(** [add_course] works on its semester only: notes, creation stamp and the
    other semesters stay; the sequence of the semester is the old one, with
    the id appended when it was not there; a semester that is new becomes
    the last key of [selections], an old one keeps its place. *)
Theorem add_course_frame (now : datetime) (sem cid : string) p :
  ∃ p1,
    Plan.add_course now sem cid p = Ok p1 ∧
    Plan.notes p1 = Plan.notes p ∧
    Plan.created_at p1 = Plan.created_at p ∧
    (∀ sem', sem' ≠ sem →
       PyDict.get sem' (Plan.selections p1) = PyDict.get sem' (Plan.selections p)) ∧
    Plan.get_courses_for_semester p1 sem =
      (if decide (cid ∈ Plan.get_courses_for_semester p sem)
       then Plan.get_courses_for_semester p sem
       else Plan.get_courses_for_semester p sem ++ [cid]) ∧
    PyDict.keys (Plan.selections p1) =
      (if PyDict.mem sem (Plan.selections p)
       then PyDict.keys (Plan.selections p)
       else PyDict.keys (Plan.selections p) ++ [sem]).
Proof.
  unfold Plan.get_courses_for_semester.
  destruct (add_course_cases now sem cid p) as [[(ids & Hids & Hin) ->]|[Hn ->]].
  - exists p. rewrite Hids. simpl. rewrite decide_True by done.
    split_and!; try done. unfold PyDict.mem. by rewrite Hids.
  - eexists. split; [done|]. simpl. split_and!; [done | done | | |].
    + intros sem' Hne. by apply dict_get_set_ne.
    + rewrite dict_get_set_eq. simpl. rewrite decide_False; [done|].
      intros Hin. apply Hn. unfold Spec.selected.
      destruct (PyDict.get sem (Plan.selections p)) as [ids|]; [by exists ids|].
      by apply elem_of_nil in Hin.
    + apply dict_keys_set.
Qed.

(** Adding an id that is not selected and removing it again gives back the
    selections, except that a semester created by the addition stays
    behind, empty, as the last key. *)
Theorem remove_after_add (now1 now2 : datetime) (sem cid : string) p :
  ¬ Spec.selected p sem cid →
  ∃ p1 p2,
    Plan.add_course now1 sem cid p = Ok p1 ∧
    Plan.remove_course now2 sem cid p1 = Ok p2 ∧
    Plan.selections p2 =
      (if PyDict.mem sem (Plan.selections p)
       then Plan.selections p
       else Plan.selections p ++ [(sem, [])]) ∧
    Plan.updated_at p2 = now2.
Proof.
  intros Hn. destruct (add_course_cases now1 sem cid p) as [[Hsel _]|[_ Hadd]]; [done|].
  eexists. rewrite Hadd.
  destruct (remove_course_cases now2 sem cid
              (Plan.mk (PyDict.set sem
                          (default [] (PyDict.get sem (Plan.selections p)) ++ [cid])
                          (Plan.selections p))
                       (Plan.notes p) (Plan.created_at p) now1))
    as [[Hn1 _]|(l1 & l2 & Hget & Hl1 & ->)].
  - exfalso. apply Hn1. eexists. simpl. rewrite dict_get_set_eq. split; [done|].
    apply elem_of_app. right. by apply list_elem_of_singleton.
  - eexists. split_and!; [done | done | | done]. simpl in *.
    rewrite dict_get_set_eq in Hget. injection Hget as Hget.
    assert (cid ∉ default [] (PyDict.get sem (Plan.selections p))) as Hnin.
    { intros Hin. apply Hn. unfold Spec.selected.
      destruct (PyDict.get sem (Plan.selections p)) as [ids|]; [by exists ids|].
      by apply elem_of_nil in Hin. }
    assert (l1 = default [] (PyDict.get sem (Plan.selections p)) ∧ l2 = []) as [-> ->].
    { revert Hget Hl1 Hnin. generalize (default [] (PyDict.get sem (Plan.selections p))).
      intros ids. revert ids. induction l1 as [|x l1 IH]; intros [|y ids]; simpl.
      - intros [= <-]. done.
      - intros [= -> Hrest] _ Hy. exfalso. apply Hy. apply list_elem_of_here.
      - intros [= <- Hrest] Hx. exfalso. apply Hx. apply list_elem_of_here.
      - intros [= -> Hrest] Hx Hy. apply not_elem_of_cons in Hx as [_ Hx].
        apply not_elem_of_cons in Hy as [_ Hy].
        destruct (IH ids Hrest Hx Hy) as [-> ->]. done. }
    rewrite app_nil_r, dict_set_set. unfold PyDict.mem.
    destruct (PyDict.get sem (Plan.selections p)) as [ids|] eqn:Hids; simpl.
    + by apply dict_set_same.
    + by apply dict_set_fresh.
Qed.

Lemma remove_after_add_witness :
  ∃ p1 p2,
    Plan.add_course 1%Z "Summer 2026" "course1" Scenario.plan = Ok p1 ∧
    Plan.remove_course 2%Z "Summer 2026" "course1" p1 = Ok p2 ∧
    Plan.selections p2 = Plan.selections Scenario.plan ++ [("Summer 2026", [])].
Proof.
  destruct (remove_after_add 1%Z 2%Z "Summer 2026" "course1" Scenario.plan)
    as (p1 & p2 & H1 & H2 & Hsel & _).
  { intros (ids & Hids & _). by vm_compute in Hids. }
  by exists p1, p2.
Defined.

Lemma occurrences_not_elem cid ids : cid ∉ ids → Spec.occurrences cid ids = 0%nat.
Proof.
  induction ids as [|x ids IH]; [done|]. intros [Hne Hnin]%not_elem_of_cons.
  rewrite occurrences_cons, decide_False by done. by apply IH.
Qed.

(** [remove_course] takes away one occurrence of the id, the first, and no
    other id; in a plan without repeated ids the id is then no longer
    selected, in a plan that repeats it (read from a dictionary, say) it
    still is. *)
Theorem remove_course_occurrences (now : datetime) (sem cid : string) p :
  ∃ p',
    Plan.remove_course now sem cid p = Ok p' ∧
    (∀ x, Spec.occurrences x (Plan.get_courses_for_semester p' sem) =
          if decide (x = cid)
          then pred (Spec.occurrences x (Plan.get_courses_for_semester p sem))
          else Spec.occurrences x (Plan.get_courses_for_semester p sem)) ∧
    (Spec.no_duplicates p → ¬ Spec.selected p' sem cid) ∧
    ((2 ≤ Spec.occurrences cid (Plan.get_courses_for_semester p sem))%nat →
       Spec.selected p' sem cid).
Proof.
  unfold Plan.get_courses_for_semester.
  destruct (remove_course_cases now sem cid p)
    as [[Hn ->]|(l1 & l2 & Hget & Hl1 & ->)].
  - exists p. assert (cid ∉ default [] (PyDict.get sem (Plan.selections p))) as Hnin.
    { intros Hin. apply Hn. unfold Spec.selected.
      destruct (PyDict.get sem (Plan.selections p)) as [ids|]; [by exists ids|].
      by apply elem_of_nil in Hin. }
    split_and!; [done | | done |].
    + intros x. destruct (decide (x = cid)) as [->|]; [|done].
      by rewrite occurrences_not_elem.
    + rewrite occurrences_not_elem by done. lia.
  - eexists. split; [done|]. simpl. rewrite dict_get_set_eq, Hget. simpl.
    split_and!.
    + intros x. rewrite !occurrences_app, occurrences_cons.
      destruct (decide (x = cid)) as [->|Hne].
      * rewrite decide_True by done. lia.
      * by rewrite decide_False by congruence.
    + intros Hnd (ids & Hids & Hin). simpl in Hids.
      rewrite dict_get_set_eq in Hids.
      injection Hids as <-. specialize (Hnd _ _ Hget).
      apply NoDup_app in Hnd as (_ & Hdisj & [Hcid _]%NoDup_cons).
      apply elem_of_app in Hin as [Hin|Hin]; [|done].
      apply (Hdisj cid Hin). apply list_elem_of_here.
    + rewrite occurrences_app, occurrences_cons, decide_True by done.
      rewrite (occurrences_not_elem cid l1) by done. intros Hocc.
      exists (l1 ++ l2). simpl. rewrite dict_get_set_eq. split; [done|].
      apply elem_of_app. right.
      destruct (decide (cid ∈ l2)) as [?|Hnin]; [done|].
      rewrite (occurrences_not_elem cid l2) in Hocc by done. lia.
Qed.

End plan_composition.

(** ** utils.py: validation and totals along the plan operations *)

Section validation_dynamics.
Implicit Types (plan : Plan.t) (courses : list Course.t)
  (requirements : list Requirement.t).

(** The entry of a key in the dictionary the validation loop builds is the
    one of the last requirement that carries the key. *)
Lemma validate_loop_last {V} (f : Requirement.t → V) (rs : list Requirement.t) k :
  PyDict.get k (foldl (λ d x, PyDict.set (Requirement.id x) (f x) d) [] rs) =
  f <$> List.find (λ x, bool_decide (Requirement.id x = k)) (reverse rs).
Proof.
  induction rs as [|x rs IH] using rev_ind; [done|].
  rewrite foldl_snoc, reverse_snoc, dict_get_set. cbn [List.find].
  destruct (decide (Requirement.id x = k)) as [Heq|Hne].
  - by rewrite bool_decide_eq_true_2.
  - by rewrite bool_decide_eq_false_2.
Qed.

Lemma find_last_elem (rs : list Requirement.t) r :
  r ∈ rs →
  ∃ r', List.find (λ x, bool_decide (Requirement.id x = Requirement.id r)) (reverse rs)
        = Some r'.
Proof.
  intros Hin. apply elem_of_reverse in Hin. revert Hin.
  generalize (reverse rs). intros l. induction l as [|x l IH].
  - by intros ?%elem_of_nil.
  - intros [->|Hin]%elem_of_cons; cbn [List.find].
    + rewrite bool_decide_eq_true_2 by done. by eexists.
    + destruct (bool_decide _); [by eexists | by apply IH].
Qed.

Lemma selected_ids_set (sem x : string) (d : PyDict.dict (list string)) :
  concat (PyDict.values (PyDict.set sem (default [] (PyDict.get sem d) ++ [x]) d))
  ≡ₚ x :: concat (PyDict.values d).
Proof.
  unfold PyDict.values. induction d as [|[k v] d IH]; [done|].
  cbn [PyDict.set PyDict.get]. destruct (decide (sem = k)) as [->|Hne].
  - rewrite !fmap_cons. cbn [concat snd default].
    rewrite <- app_assoc. symmetry. apply Permutation_middle.
  - rewrite !fmap_cons. cbn [concat snd]. rewrite IH. symmetry. apply Permutation_middle.
Qed.

(** Selecting a course that was not selected in the semester changes the
    validation entry of a requirement by that course alone: when the
    catalog knows the id and the course carries the requirement id, the
    entry lists the course once more; otherwise it lists the same courses.
    The requirement and the minimum of the entry stay, and the total is
    again the float sum over the listed courses in the order of the
    selections. *)
Theorem validate_requirements_after_add
    (now : datetime) (sem cid : string) plan courses requirements r :
  ¬ Spec.selected plan sem cid →
  r ∈ requirements →
  ∃ plan' res res',
    Plan.add_course now sem cid plan = Ok plan' ∧
    PyDict.get (Requirement.id r)
               (Utils.validate_requirements plan courses requirements) = Some res ∧
    PyDict.get (Requirement.id r)
               (Utils.validate_requirements plan' courses requirements) = Some res' ∧
    Utils.requirement res' = Utils.requirement res ∧
    Utils.min_credits res' = Utils.min_credits res ∧
    Utils.selected_courses res' ≡ₚ
      Utils.selected_courses res ++
      match Spec.catalog_course courses cid with
      | Some c => if decide (Requirement.id r ∈ Course.satisfies c) then [c] else []
      | None => []
      end ∧
    Utils.total_credits res' = Spec.sum_credits (Utils.selected_courses res').
Proof.
  intros Hn Hr.
  destruct (add_course_cases now sem cid plan) as [[Hsel _]|[_ Hadd]]; [done|].
  destruct (find_last_elem requirements r Hr) as [r' Hfind].
  assert (Requirement.id r' = Requirement.id r) as Hid.
  { apply find_some in Hfind as [_ Hid]. by apply bool_decide_eq_true in Hid. }
  eexists _, _, _. split; [exact Hadd|].
  unfold Utils.validate_requirements. rewrite !validate_loop_last, Hfind. simpl.
  split; [done|]. split; [done|].
  set (plan' := Plan.mk _ _ _ _).
  destruct (validate_one_spec plan courses r') as (Hreq & Hmin & Hsel & Htot).
  destruct (validate_one_spec plan' courses r') as (Hreq' & Hmin' & Hsel' & Htot').
  assert (Spec.selected_ids plan' ≡ₚ cid :: Spec.selected_ids plan) as Hperm.
  { unfold Spec.selected_ids, plan'. simpl. apply selected_ids_set. }
  split_and!.
  - by rewrite Hreq, Hreq'.
  - by rewrite Hmin, Hmin'.
  - rewrite Hsel', Hsel, Hid.
    transitivity (Spec.counted courses (Requirement.id r) (cid :: Spec.selected_ids plan)).
    { unfold Spec.counted. by rewrite Hperm. }
    rewrite counted_cons.
    destruct (Spec.catalog_course courses cid) as [c|]; [|by rewrite app_nil_r].
    destruct (decide _); [|by rewrite app_nil_r].
    by rewrite <- Permutation_cons_append.
  - by rewrite Htot', Hsel'.
Qed.

Lemma validate_requirements_after_add_witness :
  ∃ plan' res res',
    Plan.add_course 1%Z "Fall 2025" "BIBL201_Spring2026_Smith" Scenario.plan = Ok plan' ∧
    PyDict.get "bible"
      (Utils.validate_requirements Scenario.plan Scenario.catalog
         Scenario.requirements) = Some res ∧
    PyDict.get "bible"
      (Utils.validate_requirements plan' Scenario.catalog Scenario.requirements)
      = Some res' ∧
    Utils.selected_courses res' ≡ₚ
      Utils.selected_courses res ++
      match Spec.catalog_course Scenario.catalog "BIBL201_Spring2026_Smith" with
      | Some c => if decide ("bible" ∈ Course.satisfies c) then [c] else []
      | None => []
      end.
Proof.
  destruct (validate_requirements_after_add 1%Z "Fall 2025" "BIBL201_Spring2026_Smith"
              Scenario.plan Scenario.catalog Scenario.requirements Scenario.bible)
    as (plan' & res & res' & Hadd & Hres & Hres' & _ & _ & Hgain & _).
  - intros (ids & Hids & Hin). vm_compute in Hids. injection Hids as <-.
    revert Hin. by apply (bool_decide_unpack _).
  - apply list_elem_of_here.
  - by exists plan', res, res'.
Defined.

End validation_dynamics.

(** ** utils.py: progress, totals per semester, catalog queries *)

Section progress_and_totals.
Implicit Types (plan : Plan.t) (courses : list Course.t)
  (requirements : list Requirement.t).

Lemma dict_set_length {V} k (v : V) (d : PyDict.dict V) :
  (length (PyDict.set k v d) ≤ S (length d))%nat.
Proof.
  induction d as [|[k0 v0] d IH]; [done|]. cbn [PyDict.set].
  destruct (decide (k = k0)); simpl; lia.
Qed.

Lemma validate_loop_length {V} (f : Requirement.t → V) (rs : list Requirement.t) acc :
  (length (foldl (λ d x, PyDict.set (Requirement.id x) (f x) d) acc rs)
   ≤ length acc + length rs)%nat.
Proof.
  revert acc. induction rs as [|x rs IH]; intros acc; simpl; [lia|].
  etrans; [apply IH|]. pose proof (dict_set_length (Requirement.id x) (f x) acc). lia.
Qed.

(** The progress summary never counts more requirements as met than the
    validation holds results, and these are never more than the
    requirements: requirements that share an id share a result, so they
    can lower the count of met requirements and never raise it above the
    total. *)
Theorem get_requirement_progress_bounds plan courses requirements :
  ∃ pr,
    Utils.get_requirement_progress plan courses requirements = Ok pr ∧
    (Utils.met_requirements pr ≤ length (Utils.validation_results pr))%nat ∧
    (length (Utils.validation_results pr) ≤ Utils.total_requirements pr)%nat ∧
    Utils.validation_results pr =
      Utils.validate_requirements plan courses requirements.
Proof.
  unfold Utils.get_requirement_progress.
  set (validation := Utils.validate_requirements plan courses requirements).
  assert (length validation ≤ length requirements)%nat as Hlen.
  { unfold validation, Utils.validate_requirements.
    etrans; [apply validate_loop_length|]. simpl. lia. }
  assert (length (filter (λ r, Utils.is_met r) (PyDict.values validation))
          ≤ length validation)%nat as Hmet.
  { etrans; [apply length_filter|]. unfold PyDict.values. by rewrite length_fmap. }
  destruct requirements as [|r rs].
  - eexists. split; [done|]. simpl in *. split_and!; [lia | lia | done].
  - cbn [length Nat.ltb Nat.leb]. rewrite truediv_positive. cbn [mbind result_bind].
    eexists. split; [done|].
    cbn [Utils.total_requirements Utils.met_requirements Utils.validation_results].
    split_and!; [exact Hmet | exact Hlen | done].
Qed.

(** The courses a validation entry lists are courses that
    [get_courses_by_requirement] returns for the id of the entry, and
    exactly those of them whose id is selected in the plan and which stand
    for their id in the catalog (the last course of an id does). *)
Theorem selected_courses_by_requirement plan courses requirements r :
  r ∈ requirements →
  ∃ res,
    PyDict.get (Requirement.id r)
               (Utils.validate_requirements plan courses requirements) = Some res ∧
    ∀ c, c ∈ Utils.selected_courses res ↔
         c ∈ Utils.get_courses_by_requirement courses (Requirement.id r) ∧
         Course.id c ∈ Spec.selected_ids plan ∧
         Spec.catalog_course courses (Course.id c) = Some c.
Proof.
  intros Hr.
  destruct (validate_requirements_get plan courses requirements r Hr)
    as (r' & _ & Hid & Hget & _).
  eexists. split; [exact Hget|]. intros c.
  destruct (validate_one_spec plan courses r') as (_ & _ & -> & _).
  rewrite Hid, elem_of_counted. unfold Utils.get_courses_by_requirement.
  rewrite list_elem_of_filter. split.
  - intros (cid & Hin & Hc & Hsat).
    destruct (catalog_course_Some _ _ _ Hc) as [<- Hcat]. done.
  - intros ([Hsat _] & Hin & Hc). by exists (Course.id c).
Qed.

Lemma selected_courses_by_requirement_witness :
  ∃ res,
    PyDict.get "bible"
      (Utils.validate_requirements Scenario.plan Scenario.catalog
         Scenario.requirements) = Some res ∧
    ∀ c, c ∈ Utils.selected_courses res ↔
         c ∈ Utils.get_courses_by_requirement Scenario.catalog "bible" ∧
         Course.id c ∈ Spec.selected_ids Scenario.plan ∧
         Spec.catalog_course Scenario.catalog (Course.id c) = Some c.
Proof.
  apply (selected_courses_by_requirement Scenario.plan Scenario.catalog
           Scenario.requirements Scenario.bible).
  apply list_elem_of_here.
Defined.

(** After the linking loop of [create_sample_data], run on requirements
    whose [satisfied_by] sets are empty, the [satisfied_by] set of every
    requirement holds exactly the ids of the courses that
    [get_courses_by_requirement] returns for it. *)
Theorem sample_links_by_requirement courses requirements :
  (∀ r, r ∈ requirements → Requirement.satisfied_by r = ∅) →
  ∀ r', r' ∈ Utils.link_sample_data courses requirements →
    ∀ x, x ∈ Requirement.satisfied_by r' ↔
         x ∈ Course.id <$> Utils.get_courses_by_requirement courses (Requirement.id r').
Proof.
  intros Hempty r' Hr' x.
  pose proof (link_sample_data_spec courses requirements) as Hspec.
  apply list_elem_of_lookup in Hr' as [i Hi].
  destruct (Forall2_lookup_r _ _ _ _ _ Hspec Hi) as (r & Hr & Hid & Hsat).
  rewrite Hsat, Hid, (Hempty r) by (by eapply list_elem_of_lookup_2).
  rewrite list_elem_of_fmap. unfold Utils.get_courses_by_requirement. split.
  - intros [Hx|(c & Hc & -> & Hin)]; [by apply not_elem_of_empty in Hx|].
    exists c. split; [done|]. by apply list_elem_of_filter.
  - intros (c & -> & [Hin Hc]%list_elem_of_filter). right. by exists c.
Qed.

Lemma sample_links_by_requirement_witness :
  ∀ r', r' ∈ Utils.link_sample_data Scenario.catalog
                [Requirement.mk "bible" "Bible" 12%float ∅] →
    ∀ x, x ∈ Requirement.satisfied_by r' ↔
         x ∈ Course.id <$>
               Utils.get_courses_by_requirement Scenario.catalog (Requirement.id r').
Proof.
  apply (sample_links_by_requirement Scenario.catalog
           [Requirement.mk "bible" "Bible" 12%float ∅]).
  by intros r ->%list_elem_of_singleton.
Defined.

End progress_and_totals.

(** ** utils.py: the display helpers *)

Section display_facts.
Implicit Types (s t : string) (c : ascii).

Lemma rstrip_cons c s :
  Str.rstrip s ≠ EmptyString → Str.rstrip (String c s) = String c (Str.rstrip s).
Proof. intros Hne. cbn [Str.rstrip]. by destruct (Str.rstrip s). Qed.

Lemma rstrip_app_keep s t :
  Str.rstrip t ≠ EmptyString → Str.rstrip (s ++ t) = (s ++ Str.rstrip t)%string.
Proof.
  intros Hne. induction s as [|c s IH]; [done|].
  change (String c s ++ t)%string with (String c (s ++ t)).
  rewrite rstrip_cons; rewrite IH; [done|]. by destruct s.
Qed.

Lemma rstrip_app_drop s t :
  Str.rstrip t = EmptyString → Str.rstrip (s ++ t) = Str.rstrip s.
Proof.
  intros Ht. induction s as [|c s IH]; [done|].
  change (String c s ++ t)%string with (String c (s ++ t)).
  cbn [Str.rstrip]. by rewrite IH.
Qed.

Lemma rstrip_idemp s : Str.rstrip (Str.rstrip s) = Str.rstrip s.
Proof.
  induction s as [|c s IH]; [done|]. cbn [Str.rstrip].
  destruct (Str.rstrip s) as [|c' r] eqn:Hr.
  - destruct (Str.is_space c) eqn:Hc; [done|]. cbn [Str.rstrip]. by rewrite Hc.
  - by rewrite rstrip_cons; rewrite IH.
Qed.

Lemma rstrip_lstrip s : Str.rstrip s = s → Str.rstrip (Str.lstrip s) = Str.lstrip s.
Proof.
  induction s as [|c s IH]; [done|]. intros Hs. cbn [Str.lstrip].
  destruct (Str.is_space c) eqn:Hc; [|done]. apply IH.
  cbn [Str.rstrip] in Hs. rewrite Hc in Hs.
  destruct (Str.rstrip s); [done|]. by injection Hs.
Qed.

Lemma lstrip_idemp s : Str.lstrip (Str.lstrip s) = Str.lstrip s.
Proof.
  induction s as [|c s IH]; [done|]. cbn [Str.lstrip].
  destruct (Str.is_space c) eqn:Hc; [done|]. cbn [Str.lstrip]. by rewrite Hc.
Qed.

Lemma strip_rstrip s : Str.rstrip (Str.strip s) = Str.strip s.
Proof. apply rstrip_lstrip, rstrip_idemp. Qed.

Lemma strip_lstrip s : Str.lstrip (Str.strip s) = Str.strip s.
Proof. apply lstrip_idemp. Qed.

Lemma strip_fixed s : Str.lstrip s = s → Str.rstrip s = s → Str.strip s = s.
Proof. intros Hl Hr. unfold Str.strip. by rewrite Hr. Qed.

Lemma strip_idemp s : Str.strip (Str.strip s) = Str.strip s.
Proof. apply strip_fixed; [apply strip_lstrip | apply strip_rstrip]. Qed.

Lemma lstrip_app_keep s t :
  s ≠ EmptyString → Str.lstrip s = s → Str.lstrip (s ++ t) = (s ++ t)%string.
Proof.
  destruct s as [|c s]; [done|]. intros _. cbn [Str.lstrip].
  change (String c s ++ t)%string with (String c (s ++ t)). cbn [Str.lstrip].
  destruct (Str.is_space c); [|done]. intros Hs.
  assert (String.length (Str.lstrip s) ≤ String.length s)%nat as Hlen.
  { clear. induction s as [|c s IH]; [done|]. cbn [Str.lstrip].
    destruct (Str.is_space c); simpl; lia. }
  rewrite Hs in Hlen. simpl in Hlen. lia.
Qed.

Lemma chars_lstrip s c :
  c ∈ list_ascii_of_string (Str.lstrip s) → c ∈ list_ascii_of_string s.
Proof.
  induction s as [|c' s IH]; [done|]. cbn [Str.lstrip].
  destruct (Str.is_space c'); [|done]. intros Hin. simpl.
  apply list_elem_of_further. by apply IH.
Qed.

Lemma chars_rstrip s c :
  c ∈ list_ascii_of_string (Str.rstrip s) → c ∈ list_ascii_of_string s.
Proof.
  induction s as [|c' s IH]; [done|]. cbn [Str.rstrip].
  destruct (Str.rstrip s) as [|c'' r].
  - destruct (Str.is_space c'); [by intros ?%elem_of_nil|].
    simpl. intros ->%list_elem_of_singleton. apply list_elem_of_here.
  - simpl in *. intros [->|Hin]%elem_of_cons; [apply list_elem_of_here|].
    apply list_elem_of_further. by apply IH.
Qed.

Lemma chars_strip s c :
  c ∈ list_ascii_of_string (Str.strip s) → c ∈ list_ascii_of_string s.
Proof. intros Hin. by apply chars_rstrip, chars_lstrip. Qed.

Lemma contains_char c s :
  Str.contains (String c EmptyString) s = true ↔ c ∈ list_ascii_of_string s.
Proof.
  induction s as [|c' s IH].
  - simpl. split; [done | by intros ?%elem_of_nil].
  - cbn [Str.contains]. rewrite orb_true_iff, IH. simpl.
    rewrite elem_of_cons. split.
    + intros [Hp|?]; [|by right]. left. destruct (ascii_dec c c'); [done|].
      simpl in Hp. by destruct (ascii_dec c c').
    + intros [->|?]; [|by right]. left. simpl.
      destruct (ascii_dec c' c'); [by destruct s | done].
Qed.

Lemma split1_app c s t :
  c ∉ list_ascii_of_string s → Str.split1 c (s ++ String c t) = [s; t].
Proof.
  induction s as [|c' s IH]; intros Hnin.
  - simpl. by rewrite bool_decide_eq_true_2.
  - simpl in *. apply not_elem_of_cons in Hnin as [Hne Hnin].
    rewrite bool_decide_eq_false_2 by done. by rewrite IH.
Qed.

Lemma split1_contains c s :
  c ∈ list_ascii_of_string s →
  ∃ a b, s = (a ++ String c b)%string ∧ c ∉ list_ascii_of_string a.
Proof.
  induction s as [|c' s IH]; [by intros ?%elem_of_nil|]. simpl.
  destruct (decide (c' = c)) as [->|Hne].
  - intros _. exists EmptyString, s. split; [done|]. apply not_elem_of_nil.
  - intros [->|Hin]%elem_of_cons; [done|].
    destruct (IH Hin) as (a & b & -> & Hnin). exists (String c' a), b.
    split; [done|]. simpl. apply not_elem_of_cons. split; [congruence | done].
Qed.

Lemma string_app_assoc s t u : ((s ++ t) ++ u = s ++ (t ++ u))%string.
Proof.
  induction s as [|c s IH]; [done|].
  change (String c ((s ++ t) ++ u) = String c (s ++ (t ++ u)))%string.
  by rewrite IH.
Qed.

Lemma string_app_nil s t :
  (s ++ t)%string = EmptyString → s = EmptyString ∧ t = EmptyString.
Proof.
  destruct s as [|c s]; [done|].
  change (String c s ++ t)%string with (String c (s ++ t)). done.
Qed.

(** [format_time_slot] never raises.  Its result is empty exactly for a
    text of blanks only, which is displayed as nothing and not as [TBD];
    every other result is left as it is by a second formatting. *)
Theorem format_time_slot_idempotent s :
  ∃ t,
    Utils.format_time_slot s = Ok t ∧
    (t = EmptyString ↔ s ≠ EmptyString ∧ Str.strip s = EmptyString) ∧
    (t ≠ EmptyString → Utils.format_time_slot t = Ok t).
Proof.
  destruct s as [|c0 s0]; [by exists "TBD"; split_and!; [|split; [|intros []]|]|].
  cbn [Utils.format_time_slot]. set (s := Str.strip (String c0 s0)).
  assert (Str.strip s = s) as Hs by apply strip_idemp.
  destruct (Str.contains "-" s) eqn:Hdash.
  - apply contains_char in Hdash.
    destruct (split1_contains _ _ Hdash) as (a & b & Hab & Hnin).
    rewrite Hab, split1_app by done.
    set (A := Str.strip a). set (B := Str.strip b).
    assert (Str.lstrip A = A ∧ Str.rstrip A = A) as [HAl HAr]
      by (split; [apply strip_lstrip | apply strip_rstrip]).
    assert (Str.lstrip B = B ∧ Str.rstrip B = B) as [HBl HBr]
      by (split; [apply strip_lstrip | apply strip_rstrip]).
    assert ("-"%char ∉ list_ascii_of_string A) as HA
      by (intros Hin; by apply Hnin, chars_strip).
    eexists. split; [done|]. split.
    { split.
      - by intros [_ [? _]%string_app_nil]%string_app_nil.
      - intros [_ Hempty]. by apply string_app_nil in Hempty as [_ ?]. }
    intros _.
    set (A' := if decide (A = EmptyString) then EmptyString else (A ++ " ")%string).
    set (B' := if decide (B = EmptyString) then EmptyString else (" " ++ B)%string).
    assert (Str.strip (A ++ " - " ++ B) = (A' ++ String "-" B')%string) as Hstrip.
    { unfold Str.strip, A', B'.
      assert (Str.rstrip (A ++ " - " ++ B) = (A ++ " -" ++ B')%string) as ->.
      { unfold B'. destruct (decide (B = EmptyString)) as [->|HB].
        - change (A ++ " - " ++ EmptyString)%string with (A ++ " - ")%string.
          by rewrite rstrip_app_keep.
        - assert (Str.rstrip (" - " ++ B) = (" - " ++ B)%string) as HB3
            by (rewrite rstrip_app_keep; rewrite HBr; done).
          rewrite rstrip_app_keep; rewrite HB3; [done|].
          by intros [? _]%string_app_nil. }
      fold B'. destruct (decide (A = EmptyString)) as [->|HAne]; [done|].
      rewrite lstrip_app_keep by done.
      rewrite string_app_assoc. done. }
    assert ("-"%char ∉ list_ascii_of_string A') as HA'.
    { unfold A'. destruct (decide (A = EmptyString)); [apply not_elem_of_nil|].
      rewrite chars_app. intros [?|Hin]%elem_of_app; [done|].
      simpl in Hin. by apply list_elem_of_singleton in Hin. }
    assert (Str.strip A' = A) as HsA.
    { unfold A'. destruct (decide (A = EmptyString)) as [->|HAne]; [done|].
      unfold Str.strip. rewrite rstrip_app_drop by done. by rewrite HAr. }
    assert (Str.strip B' = B) as HsB.
    { unfold B'. destruct (decide (B = EmptyString)) as [->|HBne]; [done|].
      unfold Str.strip. change (" " ++ B)%string with (String " " B).
      rewrite rstrip_cons by (by rewrite HBr). rewrite HBr. done. }
    destruct (A ++ " - " ++ B)%string as [|c1 s1] eqn:Ht; [by destruct A|].
    cbn [Utils.format_time_slot]. rewrite Hstrip.
    assert (Str.contains "-" (A' ++ String "-" B') = true) as ->.
    { apply contains_char. rewrite chars_app. apply elem_of_app. right.
      apply list_elem_of_here. }
    rewrite split1_app by done. by rewrite HsA, HsB, Ht.
  - exists s. split; [done|]. split.
    { split; [by intros ->|by intros [_ ?]]. }
    intros Hne. destruct s as [|c1 s1] eqn:Hs1; [done|].
    cbn [Utils.format_time_slot]. rewrite Hs. by rewrite Hdash.
Qed.

Lemma day_name_Some c n :
  Utils.day_name c = Some n ↔ (c, n) ∈ Utils.day_map.
Proof.
  split.
  - unfold Utils.day_name. destruct (List.find _ _) as [[c' n']|] eqn:Hfind; [|done].
    apply find_some in Hfind as [Hin Hc]. apply bool_decide_eq_true in Hc.
    simpl in *. intros [= <-]. subst c'. by apply list_elem_of_In.
  - unfold Utils.day_map. intros Hin.
    repeat (apply elem_of_cons in Hin as [[= -> ->]|Hin]; [done|]).
    by apply elem_of_nil in Hin.
Qed.

Lemma day_names_cases (N : list string) :
  Forall (λ n, n ∈ Utils.day_map.*2) N →
  N ≠ [] →
  Str.rstrip (Str.join ", " N) = Str.join ", " N ∧
  Str.lstrip (Str.join ", " N) = Str.join ", " N ∧
  Str.join ", " N ≠ EmptyString ∧
  omap Utils.day_name (list_ascii_of_string (Str.join ", " N)) = Spec.second_pass <$> N ∧
  (Str.join ", " (Spec.second_pass <$> N) = Str.join ", " N ↔ "Thu" ∉ N).
Proof.
  unfold Str.join. induction 1 as [|n N Hn HN IH]; [done|]. intros _.
  assert (Str.rstrip n = n ∧ Str.lstrip n = n ∧ n ≠ EmptyString ∧
          omap Utils.day_name (list_ascii_of_string n) = [Spec.second_pass n] ∧
          (∀ t, Str.lstrip (n ++ t) = (n ++ t)%string) ∧
          (∀ t u, (Spec.second_pass n ++ t = n ++ u)%string → n ≠ "Thu" ∧ t = u)) as Hname.
  { simpl in Hn.
    repeat (apply elem_of_cons in Hn as [->|Hn];
            [split_and!; try done; intros t u [= ?]; done|]).
    by apply elem_of_nil in Hn. }
  destruct Hname as (Hr & Hl & Hne & Hmap & Hlapp & Hinj).
  destruct N as [|n' N'].
  - cbn [String.concat fmap list_fmap]. split_and!; try done.
    rewrite list_elem_of_singleton. split.
    + intros Heq Hthu. subst n. done.
    + intros Hthu. unfold Spec.second_pass. by rewrite decide_False by congruence.
  - destruct (IH ltac:(done)) as (IHr & IHl & IHne & IHmap & IHiff).
    change (String.concat ", " (n :: n' :: N'))
      with (n ++ ", " ++ String.concat ", " (n' :: N'))%string.
    change (String.concat ", " (Spec.second_pass <$> n :: n' :: N'))
      with (Spec.second_pass n ++ ", " ++
            String.concat ", " (Spec.second_pass <$> n' :: N'))%string.
    assert (Str.rstrip (", " ++ String.concat ", " (n' :: N'))
            = (", " ++ String.concat ", " (n' :: N'))%string) as Hr2
      by (rewrite rstrip_app_keep; rewrite IHr; done).
    split_and!.
    + rewrite rstrip_app_keep; rewrite Hr2; [done|].
      by intros [? _]%string_app_nil.
    + apply Hlapp.
    + by intros [? _]%string_app_nil.
    + rewrite !chars_app, !omap_app, Hmap, IHmap. done.
    + rewrite elem_of_cons. split.
      * intros [Hthu Htail]%Hinj. intros [?|Hin]; [done|].
        change (", " ++ ?x)%string with (String "," (String " " x)) in Htail.
        injection Htail as Htail. by apply IHiff in Htail.
      * intros Hnin. apply Decidable.not_or in Hnin as [Hthu Hnin].
        apply IHiff in Hnin. rewrite Hnin. unfold Spec.second_pass.
        by rewrite decide_False by congruence.
Qed.

(** [format_days] never returns the empty text.  A second pass changes the
    result in two cases only: [TBD], the answer for the empty text, becomes
    [Tue]; and so does every [Thu], because of its first letter.  So
    formatting twice is formatting once exactly for the texts that are not
    empty and hold no [R]. *)
Theorem format_days_twice s :
  Utils.format_days s ≠ EmptyString ∧
  (Utils.format_days (Utils.format_days s) = Utils.format_days s ↔
   s ≠ EmptyString ∧ "R"%char ∉ list_ascii_of_string (Str.strip s)).
Proof.
  destruct s as [|c0 s0].
  { split; [done|]. split; [done | by intros [? _]]. }
  cbn [Utils.format_days].
  remember (omap Utils.day_name (list_ascii_of_string (Str.strip (String c0 s0))))
    as N eqn:HN.
  assert ("Thu" ∈ N ↔ "R"%char ∈ list_ascii_of_string (Str.strip (String c0 s0)))
    as Hthu.
  { rewrite HN, list_elem_of_omap. split.
    - intros (c & Hc & Hname). apply day_name_Some in Hname.
      unfold Utils.day_map in Hname.
      repeat (apply elem_of_cons in Hname as [Heq|Hname]; [by simplify_eq|]).
      by apply elem_of_nil in Hname.
    - intros Hin. by exists "R"%char. }
  assert (Forall (λ n, n ∈ Utils.day_map.*2) N) as Hall.
  { apply Forall_forall. intros n. rewrite HN.
    intros (c & _ & Hname)%list_elem_of_omap.
    apply day_name_Some in Hname.
    apply list_elem_of_fmap. by exists (c, n). }
  destruct N as [|n N'].
  - split; [done|]. cbn [Utils.format_days]. rewrite <- HN.
    split; [|done]. intros _. split; [done|].
    rewrite <- Hthu. apply not_elem_of_nil.
  - destruct (day_names_cases (n :: N') Hall ltac:(done))
      as (Hr & Hl & Hne & Hmap & Hiff).
    split; [done|].
    destruct (Str.join ", " (n :: N')) as [|c1 s1] eqn:Hjoin; [done|].
    cbn [Utils.format_days]. unfold Str.strip. rewrite Hr, Hl, Hmap.
    cbn [fmap list_fmap]. change (Spec.second_pass n :: list_fmap _ _ Spec.second_pass N')
      with (Spec.second_pass <$> n :: N').
    rewrite Hiff, Hthu. split; [by intros ? | by intros [_ ?]].
Qed.

End display_facts.

(** ** parsers.py: what the tagger does on any two lists *)

Section tagger_frame.
Implicit Types (c : Course.t) (r : Requirement.t) (courses : list Course.t)
  (requirements rs : list Requirement.t).

Lemma link_entries_fst text entries c rs :
  (foldl (Parsers.link_entry text) (c, rs) entries).1 =
  foldl (Spec.tag_entry text) c entries.
Proof.
  revert c rs. induction entries as [|[rid kws] entries IH]; intros c rs; [done|].
  cbn [foldl]. rewrite link_entry_eq. unfold Spec.tag_entry at 2. cbn [fst snd].
  destruct (Parsers.any_keyword text kws); apply IH.
Qed.

Lemma tag_entries_fields text entries c :
  let c' := foldl (Spec.tag_entry text) c entries in
  Course.id c' = Course.id c ∧ Course.code c' = Course.code c ∧
  Course.title c' = Course.title c ∧ Course.semester c' = Course.semester c ∧
  Course.credits c' = Course.credits c ∧
  Course.description c' = Course.description c ∧
  Course.faculty c' = Course.faculty c ∧
  ∀ rid, rid ∈ Course.satisfies c' ↔
         rid ∈ Course.satisfies c ∨ Spec.keyword_match entries text rid.
Proof.
  revert c. induction entries as [|[rid kws] entries IH]; intros c.
  - simpl. split_and!; try done. intros rid. split; [by left|].
    intros [?|?%keyword_match_nil]; done.
  - cbn [foldl]. destruct (IH (Spec.tag_entry text c (rid, kws)))
      as (Hid & Hcode & Htitle & Hsem & Hcred & Hdesc & Hfac & Hsat).
    cbv zeta. rewrite Hid, Hcode, Htitle, Hsem, Hcred, Hdesc, Hfac.
    unfold Spec.tag_entry at 1 2 3 4 5 6 7. cbn [fst snd].
    split_and!; try by destruct (Parsers.any_keyword text kws).
    intros rid'. rewrite Hsat, keyword_match_cons. unfold Spec.tag_entry. cbn [fst snd].
    destruct (Parsers.any_keyword text kws) eqn:Hany; simpl.
    + rewrite elem_of_union, elem_of_singleton. tauto.
    + split; [tauto|]. intros [?|[[_ ?]|?]]; [tauto | congruence | tauto].
Qed.

Lemma link_courses_fst courses acc rs :
  (foldl (λ st course,
            let '(course', requirements') := Parsers.link_course course st.2 in
            (st.1 ++ [course'], requirements'))
         (acc, rs) courses).1 =
  acc ++ ((λ c, foldl (Spec.tag_entry (Parsers.course_text c)) c Parsers.mapping) <$> courses).
Proof.
  revert acc rs. induction courses as [|c courses IH]; intros acc rs.
  - simpl. by rewrite app_nil_r.
  - cbn [foldl fst snd]. rewrite fmap_cons.
    pose proof (link_entries_fst (Parsers.course_text c) Parsers.mapping c rs) as Hfst.
    unfold Parsers.link_course.
    destruct (foldl (Parsers.link_entry (Parsers.course_text c)) (c, rs) Parsers.mapping)
      as [c' rs'].
    rewrite IH. simpl in Hfst. rewrite Hfst, <- app_assoc. done.
Qed.

(** Every course is tagged on its own: what [link_courses_to_requirements]
    makes of the course list depends neither on the requirement list, which
    may lack the requirement of a tag or repeat an id, nor on the other
    courses. *)
Theorem link_tags_independent courses requirements :
  (Parsers.link_courses_to_requirements courses requirements).1 =
  (λ c, (Parsers.link_course c []).1) <$> courses.
Proof.
  unfold Parsers.link_courses_to_requirements. rewrite link_courses_fst.
  cbn [app]. apply list_fmap_ext. intros _ c _.
  unfold Parsers.link_course. by rewrite link_entries_fst.
Qed.

Lemma grown_refl S rs : Forall2 (Spec.grown S) rs rs.
Proof. apply Forall2_same_length_lookup_2; [done|]. intros i r r' Hr Hr'.
  assert (r' = r) as -> by congruence. unfold Spec.grown. split_and!; try done.
  intros x ?. by left.
Qed.

Lemma grown_trans S rs1 rs2 rs3 :
  Forall2 (Spec.grown S) rs1 rs2 → Forall2 (Spec.grown S) rs2 rs3 → Forall2 (Spec.grown S) rs1 rs3.
Proof.
  apply Forall2_chain. intros r1 r2 r3 (Hid & Hl & Hm & Hsub & Hsat)
    (Hid' & Hl' & Hm' & Hsub' & Hsat').
  unfold Spec.grown. split_and!; try congruence; [set_solver|].
  intros x Hx. destruct (Hsat' x Hx) as [Hx2|HS].
  - by apply Hsat.
  - right. by rewrite <- Hid.
Qed.

Lemma grown_mono (S S' : string → string → Prop) rs rs' :
  (∀ x rid, S x rid → S' x rid) →
  Forall2 (Spec.grown S) rs rs' → Forall2 (Spec.grown S') rs rs'.
Proof.
  intros HS Hrs. eapply Forall2_impl; [exact Hrs|].
  intros r r' (Hid & Hl & Hm & Hsub & Hsat).
  unfold Spec.grown. split_and!; try done. intros x Hx.
  destruct (Hsat x Hx) as [?|?]; [by left | right; by apply HS].
Qed.

Lemma add_to_first_grown rid cid rs :
  Forall2 (Spec.grown (λ x rid', x = cid ∧ rid' = rid)) rs (Parsers.add_to_first rid cid rs).
Proof.
  induction rs as [|r rs IH]; [constructor|]. cbn [Parsers.add_to_first].
  destruct (decide (Requirement.id r = rid)) as [Heq|Hne].
  - constructor; [|apply grown_refl]. unfold Spec.grown. simpl.
    split_and!; try done; [set_solver|].
    intros x [->%elem_of_singleton|Hx]%elem_of_union; [by right | by left].
  - constructor; [|done]. unfold Spec.grown. split_and!; try done. intros x ?. by left.
Qed.

Lemma link_entries_grown text entries c rs :
  Forall2 (Spec.grown (λ x rid, x = Course.id c ∧ Spec.keyword_match entries text rid))
          rs (foldl (Parsers.link_entry text) (c, rs) entries).2.
Proof.
  revert c rs. induction entries as [|[rid kws] entries IH]; intros c rs.
  - apply grown_refl.
  - cbn [foldl]. rewrite link_entry_eq.
    destruct (Parsers.any_keyword text kws) eqn:Hany.
    + eapply grown_trans.
      * eapply grown_mono; [|apply (add_to_first_grown rid (Course.id c))].
        intros x rid' [-> ->]. split; [done|]. apply keyword_match_cons. by left.
      * eapply grown_mono; [|apply IH]. simpl. intros x rid' [-> Hm].
        split; [done|]. apply keyword_match_cons. by right.
    + eapply grown_mono; [|apply IH]. intros x rid' [-> Hm].
      split; [done|]. apply keyword_match_cons. by right.
Qed.

Lemma link_courses_grown courses acc rs :
  Forall2 (Spec.grown (λ x rid, ∃ c, c ∈ courses ∧ x = Course.id c ∧
                     Spec.keyword_match Parsers.mapping (Parsers.course_text c) rid))
          rs
          (foldl (λ st course,
                    let '(course', requirements') := Parsers.link_course course st.2 in
                    (st.1 ++ [course'], requirements'))
                 (acc, rs) courses).2.
Proof.
  revert acc rs. induction courses as [|c courses IH]; intros acc rs.
  - apply grown_refl.
  - cbn [foldl fst snd].
    pose proof (link_entries_grown (Parsers.course_text c) Parsers.mapping c rs) as Hc.
    unfold Parsers.link_course.
    destruct (foldl (Parsers.link_entry (Parsers.course_text c)) (c, rs) Parsers.mapping)
      as [c' rs'].
    eapply grown_trans.
    + eapply grown_mono; [|exact Hc]. intros x rid [-> Hm]. exists c.
      split; [apply list_elem_of_here | done].
    + eapply grown_mono; [|apply IH]. intros x rid (c0 & Hin & -> & Hm).
      exists c0. split; [by apply list_elem_of_further | done].
Qed.

(** Whatever the lists, with repeated ids or not:
    [link_courses_to_requirements] keeps the requirements in place with
    their id, label and minimum, never takes a course id out of a
    [satisfied_by] set, and puts in only ids of courses of the list whose
    text holds a keyword of the requirement; a requirement whose id is no
    key of the mapping, as [electives], is left as it was. *)
Theorem link_requirements_frame courses requirements :
  Forall2 (λ r r',
             Requirement.id r' = Requirement.id r ∧
             Requirement.label r' = Requirement.label r ∧
             Requirement.min_credits r' = Requirement.min_credits r ∧
             Requirement.satisfied_by r ⊆ Requirement.satisfied_by r' ∧
             (∀ x, x ∈ Requirement.satisfied_by r' →
                   x ∈ Requirement.satisfied_by r ∨
                   ∃ c, c ∈ courses ∧ x = Course.id c ∧
                        Spec.keyword_match Parsers.mapping (Parsers.course_text c)
                                           (Requirement.id r)) ∧
             (Requirement.id r ∉ Parsers.mapping.*1 → r' = r))
          requirements
          (Parsers.link_courses_to_requirements courses requirements).2.
Proof.
  unfold Parsers.link_courses_to_requirements.
  eapply Forall2_impl; [apply link_courses_grown|].
  intros r r' (Hid & Hl & Hm & Hsub & Hsat). split_and!; try done.
  destruct r as [i l m s], r' as [i' l' m' s']. simpl in Hid, Hl, Hm, Hsub, Hsat.
  intros Hkey. subst. f_equal. apply set_eq. intros x. split; [|by apply Hsub].
  intros Hx. destruct (Hsat x Hx) as [?|(c & _ & _ & kws & Hin & _)]; [done|].
  exfalso. apply Hkey. apply list_elem_of_fmap. by exists (i, kws).
Qed.

End tagger_frame.

(** ** parsers.py: the lists [parse_all_data] builds *)

Section parse_all_data_facts.
Implicit Types (E : Parsers.Engine) (rs : list Requirement.t).

Lemma append_default_ids req_id label credits rs :
  Requirement.id <$> Parsers.append_default req_id label credits rs =
  if decide (req_id ∈ Requirement.id <$> rs)
  then Requirement.id <$> rs else (Requirement.id <$> rs) ++ [req_id].
Proof.
  unfold Parsers.append_default.
  destruct (existsb _ rs) eqn:Hex.
  - rewrite decide_True; [done|]. apply existsb_exists in Hex as (r & Hin & Hr).
    apply bool_decide_eq_true in Hr as <-. apply list_elem_of_fmap.
    exists r. split; [done|]. by apply list_elem_of_In.
  - rewrite decide_False; [by rewrite fmap_app|].
    intros (r & Hr & Hin)%list_elem_of_fmap.
    assert (existsb (λ r, bool_decide (Requirement.id r = req_id)) rs = true) as Htrue.
    { apply existsb_exists. exists r. split; [by apply list_elem_of_In|].
      by apply bool_decide_eq_true. }
    congruence.
Qed.

Lemma core_iteration_ids E text rs req_id label credits rs' :
  req_id ∉ Requirement.id <$> rs →
  Parsers.core_iteration E text rs (req_id, label, credits) = Some rs' →
  Requirement.id <$> rs' = (Requirement.id <$> rs) ++ [req_id].
Proof.
  intros Hnin. unfold Parsers.core_iteration.
  destruct (if decide (req_id ∈ Parsers.requirement_patterns) then _ else _)
    as [[match_start match_end]|].
  - destruct (match Parsers.credit_search E _ with Some _ => _ | None => _ end)
      as [found|]; [|done].
    simpl. intros [= <-]. rewrite append_default_ids, fmap_app. simpl.
    rewrite decide_True; [done|]. apply elem_of_app. right. apply list_elem_of_here.
  - intros [= <-]. rewrite append_default_ids. by rewrite decide_False.
Qed.

Lemma core_iteration_total E text rs core :
  (∀ context group, Parsers.credit_search E context = Some group →
                    is_Some (Parsers.float_of_string E group)) →
  is_Some (Parsers.core_iteration E text rs core).
Proof.
  intros Hfloat. destruct core as [[req_id label] credits].
  unfold Parsers.core_iteration.
  destruct (if decide (req_id ∈ Parsers.requirement_patterns) then _ else _)
    as [[match_start match_end]|]; [|done].
  destruct (Parsers.credit_search E _) as [group|] eqn:Hsearch; [|done].
  destruct (Hfloat _ _ Hsearch) as [q ->]. done.
Qed.

Lemma core_loop_ids E text rs cores :
  NoDup ((Requirement.id <$> rs) ++ cores.*1.*1) →
  ∃ k, Requirement.id <$> Parsers.core_loop E text rs cores =
         (Requirement.id <$> rs) ++ take k cores.*1.*1 ∧
       ((∀ context group, Parsers.credit_search E context = Some group →
                          is_Some (Parsers.float_of_string E group)) →
        k = length cores).
Proof.
  revert rs. induction cores as [|[[req_id label] credits] cores IH]; intros rs Hnd.
  - exists 0%nat. simpl. by rewrite app_nil_r.
  - cbn [Parsers.core_loop]. rewrite !fmap_cons in Hnd. cbn [fst] in Hnd.
    destruct (Parsers.core_iteration E text rs (req_id, label, credits))
      as [rs'|] eqn:Hiter.
    + apply core_iteration_ids in Hiter as Hids.
      2:{ apply NoDup_app in Hnd as (_ & Hdisj & _). intros Hin.
          apply (Hdisj _ Hin). apply list_elem_of_here. }
      destruct (IH rs') as (k & Hk & Hfull).
      { rewrite Hids, <- app_assoc. done. }
      exists (S k). rewrite Hk, Hids, <- app_assoc. rewrite !fmap_cons. cbn [fst take].
      split; [done|]. intros Hfloat. simpl. f_equal. by apply Hfull.
    + exists 0%nat. simpl. rewrite app_nil_r. split; [done|]. intros Hfloat.
      destruct (core_iteration_total E text rs (req_id, label, credits) Hfloat)
        as [? Hsome]. congruence.
Qed.

Lemma link_courses_ids courses rs :
  Requirement.id <$> (Parsers.link_courses_to_requirements courses rs).2 =
  Requirement.id <$> rs.
Proof.
  unfold Parsers.link_courses_to_requirements.
  pose proof (link_courses_grown courses [] rs) as Hgrown.
  induction Hgrown as [|r r' l l' (Hid & _) _ IH]; [done|].
  by rewrite !fmap_cons, Hid, IH.
Qed.

(** The requirement list of [parse_all_data] never repeats an id, whatever
    the files hold: its ids are the core ids up to the first credit figure
    that [float] refuses (all seven when it refuses none and the program
    guide can be read, none when it cannot), followed by the five MSSW ids
    when the dual-degree planner can be read. *)
Theorem parse_all_data_requirement_ids E fall spring mdiv dual :
  let ids := Requirement.id <$> (Parsers.parse_all_data E fall spring mdiv dual).2 in
  NoDup ids ∧
  ∃ k, ids = take k Parsers.core_requirements.*1.*1 ++
             match Parsers.read_text dual with
             | Some _ => Parsers.mssw_requirements.*1.*1
             | None => []
             end ∧
       (Parsers.read_text mdiv = None → k = 0%nat) ∧
       ((∀ context group, Parsers.credit_search E context = Some group →
                          is_Some (Parsers.float_of_string E group)) →
        is_Some (Parsers.read_text mdiv) → k = 7%nat).
Proof.
  cbv zeta. unfold Parsers.parse_all_data. rewrite link_courses_ids, fmap_app.
  assert (Requirement.id <$> Parsers.parse_dual_degree_requirements dual =
          match Parsers.read_text dual with
          | Some _ => Parsers.mssw_requirements.*1.*1
          | None => []
          end) as ->.
  { unfold Parsers.parse_dual_degree_requirements.
    by destruct (Parsers.read_text dual). }
  assert (∃ k, Requirement.id <$> Parsers.parse_mdiv_requirements E mdiv =
                 take k Parsers.core_requirements.*1.*1 ∧
               (k ≤ 7)%nat ∧
               (Parsers.read_text mdiv = None → k = 0%nat) ∧
               ((∀ context group, Parsers.credit_search E context = Some group →
                                  is_Some (Parsers.float_of_string E group)) →
                is_Some (Parsers.read_text mdiv) → k = 7%nat))
    as (k & -> & Hk & Hnone & Hfull).
  { unfold Parsers.parse_mdiv_requirements.
    destruct (Parsers.read_text mdiv) as [text|].
    - destruct (core_loop_ids E text [] Parsers.core_requirements) as (k & Hids & Hfull).
      { by apply (bool_decide_unpack _). }
      exists (k `min` 7)%nat. split_and!.
      + rewrite Hids. cbn [fmap list_fmap app].
        destruct (decide (k ≤ 7)%nat); [by rewrite Nat.min_l|].
        rewrite Nat.min_r by lia. rewrite !take_ge; [done|simpl; lia..].
      + lia.
      + done.
      + intros Hfloat _. rewrite (Hfull Hfloat). done.
    - exists 0%nat. split_and!; [done|lia|done|]. by intros _ [? ?]. }
  split; [|by exists k].
  clear Hnone Hfull.
  destruct (Parsers.read_text dual);
    do 8 (destruct k as [|k]; [by apply (bool_decide_unpack _)|]); lia.
Qed.

Lemma substring_length n s : (String.length (String.substring 0 n s) ≤ n)%nat.
Proof.
  revert s. induction n as [|n IH]; intros [|c s]; simpl; try lia.
  specialize (IH s). lia.
Qed.

Lemma course_of_match_fields E semester m c :
  Parsers.course_of_match E semester m = Some c →
  Course.semester c = semester ∧ Course.satisfies c = ∅ ∧
  (String.length (Course.description c) ≤ 200)%nat ∧
  Str.split (Course.faculty c) ≠ [].
Proof.
  unfold Parsers.course_of_match.
  destruct (Parsers.float_of_string E _) as [credits|]; [|done]. cbn [mbind option_bind].
  destruct (Str.split (Str.strip (Parsers.group3 m))) as [|first rest] eqn:Hsplit; [done|].
  cbn [head mbind option_bind]. intros [= <-]. cbn [Course.semester Course.satisfies
    Course.description Course.faculty]. rewrite Hsplit.
  split_and!; [done | done | apply substring_length | done].
Qed.

Lemma parse_schedule_pdf_fields E pages semester :
  Forall (λ c, Course.semester c = semester ∧ Course.satisfies c = ∅ ∧
               (String.length (Course.description c) ≤ 200)%nat ∧
               Str.split (Course.faculty c) ≠ [])
         (Parsers.parse_schedule_pdf E pages semester).
Proof.
  unfold Parsers.parse_schedule_pdf. destruct (Parsers.read_text pages); [|constructor].
  apply Forall_forall. intros c (m & _ & Hm)%list_elem_of_omap.
  by eapply course_of_match_fields.
Qed.

Lemma filter_semester_all (l : list Course.t) semester :
  Forall (λ c, Course.semester c = semester) l →
  Utils.get_courses_by_semester l semester = l.
Proof.
  unfold Utils.get_courses_by_semester. induction 1 as [|c l Hc _ IH]; [done|].
  by rewrite filter_cons_True, IH.
Qed.

Lemma filter_semester_none (l : list Course.t) semester :
  Forall (λ c, Course.semester c ≠ semester) l →
  Utils.get_courses_by_semester l semester = [].
Proof.
  unfold Utils.get_courses_by_semester. induction 1 as [|c l Hc _ IH]; [done|].
  by rewrite filter_cons_False, IH.
Qed.

(** The course list of [parse_all_data], whatever the files hold: a course
    carries exactly the requirement ids of the mapping of which a keyword
    occurs in its code and title; its description has at most 200
    characters and its faculty text is not blank; and the courses of
    Fall 2025 followed by those of Spring 2026, as [get_courses_by_semester]
    returns them, are the whole list. *)
Theorem parse_all_data_courses E fall spring mdiv dual :
  let courses := (Parsers.parse_all_data E fall spring mdiv dual).1 in
  (∀ c, c ∈ courses →
     (∀ rid, rid ∈ Course.satisfies c ↔
             Spec.keyword_match Parsers.mapping (Parsers.course_text c) rid) ∧
     (String.length (Course.description c) ≤ 200)%nat ∧
     Str.split (Course.faculty c) ≠ []) ∧
  Utils.get_courses_by_semester courses "Fall 2025" ++
  Utils.get_courses_by_semester courses "Spring 2026" = courses.
Proof.
  cbv zeta. unfold Parsers.parse_all_data, Parsers.link_courses_to_requirements.
  rewrite link_courses_fst. cbn [app].
  set (T := λ c, foldl (Spec.tag_entry (Parsers.course_text c)) c Parsers.mapping).
  pose proof (parse_schedule_pdf_fields E fall "Fall 2025") as Hfall.
  pose proof (parse_schedule_pdf_fields E spring "Spring 2026") as Hspring.
  set (F := Parsers.parse_schedule_pdf E fall "Fall 2025") in *.
  set (S := Parsers.parse_schedule_pdf E spring "Spring 2026") in *.
  assert (∀ c, Course.semester (T c) = Course.semester c ∧
               Parsers.course_text (T c) = Parsers.course_text c ∧
               Course.description (T c) = Course.description c ∧
               Course.faculty (T c) = Course.faculty c ∧
               ∀ rid, rid ∈ Course.satisfies (T c) ↔
                      rid ∈ Course.satisfies c ∨
                      Spec.keyword_match Parsers.mapping (Parsers.course_text c) rid)
    as HT.
  { intros c. unfold T.
    destruct (tag_entries_fields (Parsers.course_text c) Parsers.mapping c)
      as (_ & Hcode & Htitle & Hsem & _ & Hdesc & Hfac & Hsat).
    split_and!; try done. revert Hcode Htitle.
    generalize (foldl (Spec.tag_entry (Parsers.course_text c)) c Parsers.mapping).
    intros c' Hcode Htitle. unfold Parsers.course_text. by rewrite Hcode, Htitle. }
  split.
  - intros c' (c & -> & Hc)%list_elem_of_fmap.
    destruct (HT c) as (_ & Htext & Hdesc & Hfac & Hsat).
    assert (Course.satisfies c = ∅ ∧ (String.length (Course.description c) ≤ 200)%nat ∧
            Str.split (Course.faculty c) ≠ []) as (Hempty & Hlen & Hsplit).
    { apply elem_of_app in Hc as [Hc|Hc].
      - by destruct (proj1 (Forall_forall _ _) Hfall c Hc) as (_ & ? & ? & ?).
      - by destruct (proj1 (Forall_forall _ _) Hspring c Hc) as (_ & ? & ? & ?). }
    rewrite Hdesc, Hfac, Htext. split_and!; try done.
    intros rid. rewrite Hsat, Hempty. split; [|by right].
    by intros [?%not_elem_of_empty|?].
  - rewrite fmap_app. unfold Utils.get_courses_by_semester. rewrite !filter_app.
    fold (Utils.get_courses_by_semester (T <$> F) "Fall 2025").
    fold (Utils.get_courses_by_semester (T <$> S) "Fall 2025").
    fold (Utils.get_courses_by_semester (T <$> F) "Spring 2026").
    fold (Utils.get_courses_by_semester (T <$> S) "Spring 2026").
    rewrite (filter_semester_all (T <$> F)), (filter_semester_none (T <$> S)),
      (filter_semester_none (T <$> F)), (filter_semester_all (T <$> S)).
    + by rewrite app_nil_r.
    + apply Forall_fmap. eapply Forall_impl; [exact Hspring|].
      intros c (Hsem & _). simpl. by rewrite (proj1 (HT c)).
    + apply Forall_fmap. eapply Forall_impl; [exact Hfall|].
      intros c (Hsem & _). simpl. rewrite (proj1 (HT c)), Hsem. done.
    + apply Forall_fmap. eapply Forall_impl; [exact Hspring|].
      intros c (Hsem & _). simpl. rewrite (proj1 (HT c)), Hsem. done.
    + apply Forall_fmap. eapply Forall_impl; [exact Hfall|].
      intros c (Hsem & _). simpl. by rewrite (proj1 (HT c)).
Qed.

End parse_all_data_facts.

(** ** scripts/parsers.py: header row and column index *)

Section header_facts.

Lemma find_header_from_spec (i : nat) (rows : list (list string)) :
  match ScriptsParsers.find_header_from i rows with
  | Ok j =>
      ∃ k row, j = (i + k)%nat ∧ rows !! k = Some row ∧
               ScriptsParsers.is_header_row row = true ∧
               ∀ k' row', (k' < k)%nat → rows !! k' = Some row' →
                          ScriptsParsers.is_header_row row' = false
  | Raise e =>
      e = RuntimeError "Header row with 'Course Code' not found." ∧
      Forall (λ row, ScriptsParsers.is_header_row row = false) rows
  end.
Proof.
  revert i. induction rows as [|row rows IH]; intros i; cbn [ScriptsParsers.find_header_from].
  - split; [done | constructor].
  - destruct (ScriptsParsers.is_header_row row) eqn:Hrow.
    + exists 0%nat, row. split_and!; [lia | done | done | intros; lia].
    + specialize (IH (S i)).
      destruct (ScriptsParsers.find_header_from (S i) rows) as [j|e].
      * destruct IH as (k & row0 & -> & Hk & Hhead & Hfirst).
        exists (S k), row0. split_and!; [lia | done | done |].
        intros [|k'] row' Hlt; simpl; [by intros [= <-]|].
        apply Hfirst. lia.
      * destruct IH as [-> Hall]. split; [done|]. by constructor.
Qed.

(** [_find_header_row] returns the position of the first row whose cells,
    in lower case and joined by blanks, hold both [course] and [code]; the
    position is within the rows, so [rows[header_idx]] cannot fail.  It
    raises [RuntimeError] exactly when no row is of that kind. *)
Theorem find_header_row_first (rows : list (list string)) :
  match ScriptsParsers._find_header_row rows with
  | Ok i =>
      ∃ row, rows !! i = Some row ∧
             ScriptsParsers.is_header_row row = true ∧
             ∀ j row', (j < i)%nat → rows !! j = Some row' →
                       ScriptsParsers.is_header_row row' = false
  | Raise e =>
      e = RuntimeError "Header row with 'Course Code' not found." ∧
      Forall (λ row, ScriptsParsers.is_header_row row = false) rows
  end.
Proof.
  unfold ScriptsParsers._find_header_row.
  pose proof (find_header_from_spec 0 rows) as Hspec.
  destruct (ScriptsParsers.find_header_from 0 rows) as [i|e]; [|done].
  destruct Hspec as (k & row & -> & Hk & Hhead & Hfirst). by exists row.
Qed.

(** [_build_col_index] either returns a mapping or raises [RuntimeError]
    for the first of [Course Code], [Course Title], [Credits] that no cell
    of the header names.  A mapping it returns sends canonical names of
    the keyword table, the three required ones among them, to positions
    within the header row. *)
Theorem build_col_index_cases (header_row : list string) :
  match ScriptsParsers._build_col_index header_row with
  | Ok mapping =>
      (∀ req, req ∈ ["Course Code"; "Course Title"; "Credits"] →
              is_Some (mapping !! req)) ∧
      (∀ canonical idx, mapping !! canonical = Some idx →
         canonical ∈ ScriptsParsers._HEADER_KEYWORDS.*2 ∧
         ∃ cell, header_row !! idx = Some cell ∧ Spec.cell_names cell canonical)
  | Raise e =>
      ∃ k req,
        ["Course Code"; "Course Title"; "Credits"] !! k = Some req ∧
        e = RuntimeError ("Required column '" ++ req ++ "' missing from header.")%string ∧
        (∀ cell, cell ∈ header_row → ¬ Spec.cell_names cell req) ∧
        ∀ k' req', (k' < k)%nat →
                   ["Course Code"; "Course Title"; "Credits"] !! k' = Some req' →
                   ∃ cell, cell ∈ header_row ∧ Spec.cell_names cell req'
  end.
Proof.
  unfold ScriptsParsers._build_col_index.
  destruct (List.find _ _) as [req|] eqn:Hfind.
  - apply find_first in Hfind as (k & Hk & Hnone & Hfirst).
    apply bool_decide_eq_true in Hnone.
    exists k, req. split_and!; [done | done | |].
    + intros cell (j & Hj)%list_elem_of_lookup.
      pose proof (build_mapping_lookup header_row req) as Hlook.
      rewrite Hnone in Hlook. by eapply Hlook.
    + intros k' req' Hlt Hk'. specialize (Hfirst k' req' Hlt Hk').
      apply bool_decide_eq_false in Hfirst.
      pose proof (build_mapping_lookup header_row req') as Hlook.
      destruct (ScriptsParsers.build_mapping header_row !! req') as [i|]; [|done].
      destruct Hlook as [(cell & Hcell & Hnames) _]. exists cell.
      split; [by eapply list_elem_of_lookup_2 | done].
  - split.
    + intros req Hreq. apply list_elem_of_In in Hreq.
      pose proof (find_none _ _ Hfind req Hreq) as Hsome.
      apply bool_decide_eq_false in Hsome.
      by destruct (ScriptsParsers.build_mapping header_row !! req).
    + intros canonical idx Hidx.
      pose proof (build_mapping_lookup header_row canonical) as Hlook.
      rewrite Hidx in Hlook. destruct Hlook as [(cell & Hcell & Hnames) _].
      split; [|by exists cell].
      destruct Hnames as (k & key & Hk & _). apply list_elem_of_fmap.
      exists (key, canonical). split; [done|]. by eapply list_elem_of_lookup_2.
Qed.

End header_facts.

(** ** scripts/parsers.py: the rows [extract_rows] returns *)

Section row_facts.

Lemma fallback_rows_clean text :
  Forall (λ row, Spec.clean_row row ∧ Forall (λ cell, cell ≠ EmptyString) row)
         (ScriptsParsers._fallback_rows_from_text text).
Proof.
  apply Forall_forall. intros row. unfold ScriptsParsers._fallback_rows_from_text.
  intros (raw_line & Hrow & _)%list_elem_of_bind.
  set (parts := Str.strip <$> filter _ _) in Hrow.
  assert (Forall (λ cell, cell ≠ EmptyString ∧ Str.strip cell = cell) parts) as Hparts.
  { apply Forall_fmap, Forall_forall. intros p [Hp _]%list_elem_of_filter. simpl.
    split; [done | apply strip_idemp]. }
  destruct parts as [|cell parts'] eqn:Heq; [by apply elem_of_nil in Hrow|].
  apply list_elem_of_singleton in Hrow as ->.
  split; [split|].
  - exists cell. split; [apply list_elem_of_here|].
    by apply Forall_cons in Hparts as [[? _] _].
  - eapply Forall_impl; [exact Hparts|]. by intros ? [_ ?].
  - eapply Forall_impl; [exact Hparts|]. by intros ? [? _].
Qed.

Lemma table_rows_clean env path :
  Forall Spec.clean_row (ScriptsParsers._table_rows_from_pdf env path).
Proof.
  apply Forall_forall. intros row. unfold ScriptsParsers._table_rows_from_pdf.
  destruct (ScriptsParsers.pdf_pages env path) as [pages|]; [|by intros ?%elem_of_nil].
  intros (page & (tbl & (r & Hrow & _)%list_elem_of_bind & _)%list_elem_of_bind & _)
    %list_elem_of_bind.
  destruct (existsb ScriptsParsers.cell_filled r) eqn:Hex; [|by apply elem_of_nil in Hrow].
  apply list_elem_of_singleton in Hrow as ->. split.
  - apply existsb_exists in Hex as ([s|] & Hin & Hfilled); [|done].
    exists (Str.strip s). split.
    + apply list_elem_of_fmap. exists (Some s). split; [done | by apply list_elem_of_In].
    + simpl in Hfilled. apply negb_true_iff, bool_decide_eq_false in Hfilled. done.
  - apply Forall_fmap, Forall_forall. intros [s|] _; simpl; [apply strip_idemp | done].
Qed.

(** Every row that [extract_rows] returns, by tables or by text lines,
    has a cell that is not empty, and no cell of it begins or ends with a
    blank.  So no row is empty, and the test [if not raw_row] of
    [parse_file] never holds. *)
Theorem extract_rows_clean env path rows :
  ScriptsParsers.extract_rows env path = Ok rows →
  Forall Spec.clean_row rows.
Proof.
  unfold ScriptsParsers.extract_rows.
  destruct (negb _); [done|].
  destruct (Str.endswith _ ".pdf").
  - pose proof (table_rows_clean env (ScriptsParsers.resolve env path)) as Htable.
    destruct (ScriptsParsers._table_rows_from_pdf env _) as [|row rows0].
    + destruct (ScriptsParsers.pdf_pages env _) as [pages|]; [|done].
      simpl. intros [= <-].
      eapply Forall_impl; [apply fallback_rows_clean|]. by intros ? [? _].
    + by intros [= <-].
  - destruct (Str.endswith _ ".rtf"); [|done].
    destruct (negb _); [done|].
    destruct (ScriptsParsers.rtf_text env _) as [text|]; [|done].
    simpl. intros [= <-].
    eapply Forall_impl; [apply fallback_rows_clean|]. by intros ? [? _].
Qed.

Lemma extract_rows_clean_witness :
  ∃ rows, ScriptsParsers.extract_rows Scenario.env_dir "spring.pdf" = Ok rows ∧
          Forall Spec.clean_row rows.
Proof.
  eexists. split; [by vm_compute|].
  apply (extract_rows_clean Scenario.env_dir "spring.pdf"). by vm_compute.
Defined.

End row_facts.

(** ** scripts/parsers.py: courses and totals of a parse *)

Section tally_agreement.
Implicit Types (c : ScriptsParsers.CourseDict) (totals : PyDict.dict Q).

Lemma dict_get_values {V} k (v : V) (d : PyDict.dict V) :
  PyDict.get k d = Some v → v ∈ PyDict.values d.
Proof.
  unfold PyDict.values. induction d as [|[k0 v0] d IH]; [done|]. cbn [PyDict.get].
  rewrite fmap_cons. destruct (decide (k = k0)).
  - intros [= ->]. apply list_elem_of_here.
  - intros ?. apply list_elem_of_further. by apply IH.
Qed.

Lemma fields_of_NoDup c : NoDup (Spec.fields_of c).
Proof.
  unfold Spec.fields_of.
  destruct (PyDict.get _ ScriptsParsers.REQ_MAP) as [fs|] eqn:Hget; [|constructor].
  apply dict_get_values in Hget. revert fs Hget. apply Forall_forall.
  by apply (bool_decide_unpack _).
Qed.

Lemma dict_set_keys_NoDup {V} k (v : V) (d : PyDict.dict V) :
  NoDup (PyDict.keys d) → NoDup (PyDict.keys (PyDict.set k v d)).
Proof.
  intros Hnd. rewrite dict_keys_set. unfold PyDict.mem.
  destruct (PyDict.get k d) eqn:Hget; [done|].
  apply NoDup_app. split_and!; [done | | apply NoDup_singleton].
  intros x Hx ->%list_elem_of_singleton. by apply dict_get_None_keys in Hget.
Qed.

Lemma add_credits_NoDup credits totals fs :
  NoDup (PyDict.keys totals) →
  NoDup (PyDict.keys (ScriptsParsers.add_credits credits totals fs)).
Proof.
  unfold ScriptsParsers.add_credits. revert totals.
  induction fs as [|f fs IH]; intros totals Hnd; [done|].
  cbn [foldl]. by apply IH, dict_set_keys_NoDup.
Qed.

Lemma tally_fold (courses : list ScriptsParsers.CourseDict) totals f :
  let totals' :=
    foldl (λ totals c,
             ScriptsParsers.add_credits (ScriptsParsers.credits c) totals (Spec.fields_of c))
          totals courses in
  (NoDup (PyDict.keys totals) → NoDup (PyDict.keys totals')) ∧
  (is_Some (PyDict.get f totals') ↔
   is_Some (PyDict.get f totals) ∨ ∃ c, c ∈ courses ∧ f ∈ Spec.fields_of c) ∧
  (default 0%Q (PyDict.get f totals') ==
   default 0%Q (PyDict.get f totals) +
   foldr Qplus 0%Q (ScriptsParsers.credits <$> filter (λ c, f ∈ Spec.fields_of c) courses))%Q.
Proof.
  revert totals. induction courses as [|c courses IH]; intros totals.
  - simpl. split_and!; [done | | by rewrite Qplus_0_r].
    split; [by left|]. intros [?|(c & ?%elem_of_nil & _)]; done.
  - cbn [foldl]. cbv zeta.
    destruct (IH (ScriptsParsers.add_credits (ScriptsParsers.credits c) totals
                    (Spec.fields_of c))) as (Hnd & Hsome & Hsum).
    split_and!.
    + intros ?. by apply Hnd, add_credits_NoDup.
    + rewrite Hsome, add_credits_get by apply fields_of_NoDup.
      destruct (decide (f ∈ Spec.fields_of c)) as [Hin|Hnin].
      * split; [|intros _; left; by eexists].
        intros _. right. exists c. split; [apply list_elem_of_here | done].
      * split.
        -- intros [?|(c' & Hc' & Hf)]; [by left|]. right. exists c'.
           split; [by apply list_elem_of_further | done].
        -- intros [?|(c' & [->|Hc']%elem_of_cons & Hf)]; [by left | done |].
           right. by exists c'.
    + rewrite Hsum, add_credits_get by apply fields_of_NoDup.
      destruct (decide (f ∈ Spec.fields_of c)) as [Hin|Hnin].
      * rewrite filter_cons_True by done. rewrite fmap_cons. cbn [foldr default].
        symmetry. rewrite Qplus_assoc. done.
      * by rewrite filter_cons_False by done.
Qed.

Lemma field_credits_tagged f (courses : list ScriptsParsers.CourseDict) :
  Spec.field_credits f ((λ c, ScriptsParsers.with_fields (Spec.fields_of c) c) <$> courses) =
  foldr Qplus 0%Q (ScriptsParsers.credits <$> filter (λ c, f ∈ Spec.fields_of c) courses).
Proof.
  unfold Spec.field_credits. induction courses as [|c courses IH]; [done|].
  rewrite fmap_cons. destruct (decide (f ∈ Spec.fields_of c)) as [Hin|Hnin].
  - rewrite !filter_cons_True by done. rewrite !fmap_cons. cbn [foldr]. by rewrite IH.
  - by rewrite !filter_cons_False by done.
Qed.

(** The tagging and tally step never raises, and the totals it returns
    agree with the fields it gives the courses. *)
Lemma tag_and_tally_agree (courses : list ScriptsParsers.CourseDict) :
  ∃ tagged totals,
    ScriptsParsers.tag_and_tally courses [] = Ok (tagged, totals) ∧
    tagged = (λ c, ScriptsParsers.with_fields (Spec.fields_of c) c) <$> courses ∧
    Spec.totals_agree (ScriptsParsers.mkParsed tagged totals).
Proof.
  eexists _, _. split; [apply tag_and_tally_spec|]. split; [done|].
  unfold Spec.totals_agree. cbn [ScriptsParsers.totals ScriptsParsers.courses].
  split.
  - by apply (tally_fold courses [] EmptyString), NoDup_nil.
  - intros f. destruct (tally_fold courses [] f) as (_ & Hsome & Hsum). split.
    + etrans; [apply Hsome|]. split.
      * intros [[? [=]]|(c & Hc & Hf)].
        exists (ScriptsParsers.with_fields (Spec.fields_of c) c).
        split; [|done]. apply list_elem_of_fmap. by exists c.
      * intros (c' & (c & -> & Hc)%list_elem_of_fmap & Hf). right. by exists c.
    + rewrite field_credits_tagged. etrans; [apply Hsum|]. simpl. apply Qplus_0_l.
Qed.

Lemma alter_last_Forall {A} (P : A → Prop) (f : A → A) (l : list A) :
  (∀ x, P x → P (f x)) → Forall P l → Forall P (ScriptsParsers.alter_last f l).
Proof.
  intros Hf. induction 1 as [|x l Hx Hl IH]; [constructor|].
  destruct l as [|y l]; [by repeat constructor; apply Hf|].
  change (ScriptsParsers.alter_last f (x :: y :: l)) with (x :: ScriptsParsers.alter_last f (y :: l)).
  by constructor.
Qed.

Lemma assemble_codes env col_index (acc : list ScriptsParsers.CourseDict) rows cs :
  Forall (λ c, ScriptsParsers.code c ≠ EmptyString ∧
               Str.strip (ScriptsParsers.code c) = ScriptsParsers.code c) acc →
  ScriptsParsers.assemble env col_index acc rows = Ok cs →
  Forall (λ c, ScriptsParsers.code c ≠ EmptyString ∧
               Str.strip (ScriptsParsers.code c) = ScriptsParsers.code c) cs ∧
  (length cs ≤ length acc + length rows)%nat.
Proof.
  revert acc. induction rows as [|raw_row rows IH]; intros acc Hacc.
  - simpl. intros [= <-]. split; [done | lia].
  - cbn [ScriptsParsers.assemble]. destruct raw_row as [|cell raw_row'].
    { intros Hcs. destruct (IH _ Hacc Hcs). split; [done | simpl; lia]. }
    set (raw_row := cell :: raw_row').
    destruct (col_index !! "Course Code") as [idx|] eqn:Hidx;
      [|by cbn [mbind result_bind]].
    cbn [mbind result_bind].
    destruct (bool_decide (Str.strip (default EmptyString (raw_row !! idx)) = EmptyString))
      eqn:Hblank.
    + intros Hcs.
      pose proof (alter_last_Forall
                    (λ c, ScriptsParsers.code c ≠ EmptyString ∧
                          Str.strip (ScriptsParsers.code c) = ScriptsParsers.code c)
                    (ScriptsParsers.append_description
                       (ScriptsParsers.continuation_text raw_row col_index))
                    acc (λ x H, H) Hacc) as Hacc'.
      destruct (IH _ Hacc' Hcs) as [Hall Hlen].
      split; [done|]. revert Hlen. clear.
      assert (∀ {A} (f : A → A) l, length (ScriptsParsers.alter_last f l) = length l) as Hlen.
      { intros A f l. induction l as [|x [|y l] IH]; [done | done |].
        change (ScriptsParsers.alter_last f (x :: y :: l)) with (x :: ScriptsParsers.alter_last f (y :: l)).
        simpl in *. by rewrite IH. }
      rewrite Hlen. simpl. lia.
    + apply bool_decide_eq_false in Hblank.
      destruct (ScriptsParsers.row_to_course env raw_row col_index) as [course|e] eqn:Hrow;
        [|by cbn [mbind result_bind]].
      cbn [mbind result_bind]. intros Hcs.
      assert (ScriptsParsers.code course =
              Str.strip (default EmptyString (raw_row !! idx))) as Hcode.
      { revert Hrow. unfold ScriptsParsers.row_to_course.
        destruct (if bool_decide _ then _ else _) as [credits|];
          [|by cbn [mbind result_bind]].
        cbn [mbind result_bind]. intros [= <-]. simpl. unfold ScriptsParsers._get. by rewrite Hidx. }
      destruct (IH (acc ++ [course])) as [Hall Hlen]; [|done|].
      * apply Forall_app. split; [done|]. constructor; [|constructor].
        rewrite Hcode. split; [done | apply strip_idemp].
      * split; [done|]. rewrite length_app in Hlen. simpl in *. lia.
Qed.

(** The steps of a successful [parse_file]: the assembled courses, and the
    tagging and tally of them. *)
Lemma parse_file_steps env path parsed :
  ScriptsParsers.parse_file env path = Ok parsed →
  ∃ assembled,
    Forall (λ c, ScriptsParsers.code c ≠ EmptyString ∧
                 Str.strip (ScriptsParsers.code c) = ScriptsParsers.code c) assembled ∧
    ScriptsParsers.tag_and_tally assembled [] =
      Ok (ScriptsParsers.courses parsed, ScriptsParsers.totals parsed).
Proof.
  unfold ScriptsParsers.parse_file.
  destruct (ScriptsParsers.extract_rows env _) as [rows|];
    [|by cbn [mbind result_bind]]. cbn [mbind result_bind].
  destruct (ScriptsParsers._find_header_row rows) as [header_idx|];
    [|by cbn [mbind result_bind]]. cbn [mbind result_bind].
  destruct (rows !! header_idx) as [header|];
    [|by cbn [mbind result_bind]]. cbn [mbind result_bind].
  destruct (ScriptsParsers._build_col_index header) as [col_index|];
    [|by cbn [mbind result_bind]]. cbn [mbind result_bind].
  destruct (ScriptsParsers.assemble env col_index [] _) as [assembled|] eqn:Hasm;
    [|by cbn [mbind result_bind]]. cbn [mbind result_bind].
  apply assemble_codes in Hasm as [Hcodes _]; [|constructor].
  destruct (ScriptsParsers.tag_and_tally assembled []) as [[tagged totals]|] eqn:Htag;
    [|by cbn [mbind result_bind]].
  cbn [mbind result_bind]. intros [= <-]. by exists assembled.
Qed.

(** A successful [parse_file] returns courses whose codes are not empty
    and have no blanks at their ends, and totals that agree with the
    fields of these courses: a label has a total exactly when a course
    carries it, and the total is the sum of the credits of the courses
    that do. *)
Theorem parse_file_totals_agree env path parsed :
  ScriptsParsers.parse_file env path = Ok parsed →
  Forall (λ c, ScriptsParsers.code c ≠ EmptyString ∧
               Str.strip (ScriptsParsers.code c) = ScriptsParsers.code c)
         (ScriptsParsers.courses parsed) ∧
  Spec.totals_agree parsed.
Proof.
  intros (assembled & Hcodes & Htag)%parse_file_steps.
  destruct (tag_and_tally_agree assembled) as (tagged & totals & Htag' & -> & Hagree).
  rewrite Htag' in Htag. injection Htag as Hc Ht. destruct parsed as [cs ts].
  simpl in Hc, Ht. subst cs ts. split; [|done]. cbn [ScriptsParsers.courses].
  apply Forall_fmap. eapply Forall_impl; [exact Hcodes|]. done.
Qed.

Lemma parse_file_totals_agree_witness :
  ∃ parsed,
    ScriptsParsers.parse_file Scenario.env_dir "spring.pdf" = Ok parsed ∧
    Spec.totals_agree parsed.
Proof.
  eexists. split; [by vm_compute|].
  apply (parse_file_totals_agree Scenario.env_dir "spring.pdf"). by vm_compute.
Defined.

End tally_agreement.

(** ** scripts/parsers.py: the directory parse *)

Section directory_facts.
Implicit Types (env : ScriptsParsers.Env) (d agg : ScriptsParsers.Parsed).

Lemma parse_each_from_parse_file env directory (names : list string) :
  Forall (λ d, ∃ fname, fname ∈ names ∧
                        ScriptsParsers.parse_file env (Str.path_join directory fname) = Ok d)
         (ScriptsParsers.parse_each env directory names).
Proof.
  induction names as [|fname names IH] using rev_ind; [constructor|].
  rewrite parse_each_app. apply Forall_app. split.
  - eapply Forall_impl; [exact IH|]. intros d (f & Hf & Hd). exists f.
    split; [|done]. apply elem_of_app. by left.
  - unfold ScriptsParsers.parse_each. cbn [foldl].
    destruct (_ || _); [|constructor].
    destruct (ScriptsParsers.parse_file env _) as [d|] eqn:Hd; [|constructor].
    constructor; [|constructor]. exists fname. split; [|done].
    apply elem_of_app. right. apply list_elem_of_here.
Qed.

Lemma merge_totals (items totals : PyDict.dict Q) f :
  let totals' :=
    foldl (λ agg_totals (item : string * Q),
             PyDict.set item.1
               (default 0%Q (PyDict.get item.1 agg_totals) + item.2)%Q agg_totals)
          totals items in
  NoDup (PyDict.keys items) →
  (NoDup (PyDict.keys totals) → NoDup (PyDict.keys totals')) ∧
  (is_Some (PyDict.get f totals') ↔
   is_Some (PyDict.get f totals) ∨ is_Some (PyDict.get f items)) ∧
  (default 0%Q (PyDict.get f totals') ==
   default 0%Q (PyDict.get f totals) + default 0%Q (PyDict.get f items))%Q.
Proof.
  cbv zeta. revert totals. induction items as [|[k v] items IH]; intros totals Hnd.
  - simpl. split_and!; [done | | by rewrite Qplus_0_r].
    split; [by left | by intros [?|[? [=]]]].
  - unfold PyDict.keys in Hnd. rewrite fmap_cons in Hnd.
    apply NoDup_cons in Hnd as [Hk Hnd]. cbn [foldl fst snd].
    destruct (IH (PyDict.set k (default 0%Q (PyDict.get k totals) + v)%Q totals) Hnd)
      as (Hkeys & Hsome & Hsum).
    split_and!.
    + intros ?. by apply Hkeys, dict_set_keys_NoDup.
    + rewrite Hsome, dict_get_set. cbn [PyDict.get].
      destruct (decide (k = f)) as [->|Hne].
      * rewrite decide_True by done. split; intros _; [right | left]; by eexists.
      * by rewrite decide_False by congruence.
    + rewrite Hsum, dict_get_set. cbn [PyDict.get].
      destruct (decide (k = f)) as [->|Hne].
      * rewrite decide_True by done.
        assert (PyDict.get f items = None) as -> by by apply dict_get_None_keys.
        cbn [default]. by rewrite Qplus_0_r.
      * by rewrite decide_False by congruence.
Qed.

Lemma field_credits_app f (cs1 cs2 : list ScriptsParsers.CourseDict) :
  (Spec.field_credits f (cs1 ++ cs2) ==
   Spec.field_credits f cs1 + Spec.field_credits f cs2)%Q.
Proof.
  unfold Spec.field_credits. rewrite filter_app, fmap_app.
  generalize (ScriptsParsers.credits <$> filter (λ c, f ∈ ScriptsParsers.fields c) cs1).
  intros l. induction l as [|q l IH]; simpl; [by rewrite Qplus_0_l|].
  rewrite IH. apply Qplus_assoc.
Qed.

Lemma aggregate_step_agree agg d :
  Spec.totals_agree agg → Spec.totals_agree d →
  Spec.totals_agree
    (ScriptsParsers.mkParsed
       (ScriptsParsers.courses agg ++ ScriptsParsers.courses d)
       (foldl (λ agg_totals (item : string * Q),
                 PyDict.set item.1
                   (default 0%Q (PyDict.get item.1 agg_totals) + item.2)%Q agg_totals)
              (ScriptsParsers.totals agg) (ScriptsParsers.totals d))).
Proof.
  intros [Hnda Ha] [Hndd Hd]. unfold Spec.totals_agree.
  cbn [ScriptsParsers.courses ScriptsParsers.totals]. split.
  - by apply (merge_totals (ScriptsParsers.totals d) (ScriptsParsers.totals agg)
                EmptyString Hndd).
  - intros f.
    destruct (merge_totals (ScriptsParsers.totals d) (ScriptsParsers.totals agg) f Hndd)
      as (_ & Hsome & Hsum).
    destruct (Ha f) as [Hsa Hca]. destruct (Hd f) as [Hsd Hcd]. split.
    + rewrite Hsome, Hsa, Hsd. split.
      * intros [(c & Hc & Hf)|(c & Hc & Hf)]; exists c;
          (split; [apply elem_of_app; tauto | done]).
      * intros (c & [Hc|Hc]%elem_of_app & Hf); [left|right]; by exists c.
    + by rewrite Hsum, Hca, Hcd, field_credits_app.
Qed.

Lemma aggregate_agree (data : list ScriptsParsers.Parsed) :
  Forall Spec.totals_agree data → Spec.totals_agree (ScriptsParsers.aggregate data).
Proof.
  unfold ScriptsParsers.aggregate.
  assert (Spec.totals_agree (ScriptsParsers.mkParsed [] [])) as Hinit.
  { split; [constructor|]. intros f. split; [|done]. split.
    - by intros [? [=]].
    - by intros (c & ?%elem_of_nil & _). }
  revert Hinit. generalize (ScriptsParsers.mkParsed [] []).
  induction data as [|d data IH]; intros agg Hagg Hall; [done|].
  apply Forall_cons in Hall as [Hd Hall]. cbn [foldl].
  apply IH; [|done]. by apply aggregate_step_agree.
Qed.

(** [parse_directory] raises only when the directory cannot be listed.
    The totals of its result agree with the fields of the courses of the
    result, as those of every parsed file do, and every course comes from
    a listed file whose parse succeeded. *)
Theorem parse_directory_totals_agree env directory :
  match ScriptsParsers.parse_directory env directory with
  | Ok agg =>
      Spec.totals_agree agg ∧
      ∀ c, c ∈ ScriptsParsers.courses agg →
           ∃ path parsed, ScriptsParsers.parse_file env path = Ok parsed ∧
                          c ∈ ScriptsParsers.courses parsed
  | Raise e =>
      ∃ dir, ScriptsParsers.listdir env dir = Raise e ∧
             (dir = default (ScriptsParsers.DATA_DIR env) directory ∨
              (directory = Some EmptyString ∧ dir = ScriptsParsers.DATA_DIR env))
  end.
Proof.
  unfold ScriptsParsers.parse_directory.
  set (dir := match directory with Some (String c s) => String c s
                                 | _ => ScriptsParsers.DATA_DIR env end).
  destruct (ScriptsParsers.listdir env dir) as [names|e] eqn:Hlist;
    cbn [mbind result_bind].
  - pose proof (parse_each_from_parse_file env dir names) as Hfrom. split.
    + apply aggregate_agree. eapply Forall_impl; [exact Hfrom|].
      intros d (fname & _ & (assembled & _ & Htag)%parse_file_steps).
      destruct (tag_and_tally_agree assembled) as (tagged & totals & Htag' & _ & Hagree).
      rewrite Htag' in Htag. injection Htag as Hc Ht. destruct d as [cs ts].
      simpl in Hc, Ht. by subst cs ts.
    + intros c. rewrite aggregate_courses.
      intros Hc. apply list_elem_of_In, in_concat in Hc as (cs & Hcs & Hc).
      apply list_elem_of_In, list_elem_of_fmap in Hcs as (d & -> & Hd).
      destruct (proj1 (Forall_forall _ _) Hfrom d Hd) as (fname & _ & Hparse).
      exists (Str.path_join dir fname), d. split; [done | by apply list_elem_of_In].
  - exists dir. split; [done|]. unfold dir.
    destruct directory as [[|c s]|]; [by right | by left | by left].
Qed.

End directory_facts.

(** ** scripts/parsers.py: which files a directory parse reads *)

Section directory_paths.
Implicit Types (env : ScriptsParsers.Env).

Lemma split_at_snoc (sep : ascii → bool) (a b : string) (c0 : ascii) :
  sep c0 = true →
  (∀ c, c ∈ list_ascii_of_string b → sep c = false) →
  Str.split_at sep (a ++ String c0 b) = Str.split_at sep a ++ [b].
Proof.
  intros Hc0 Hb. induction a as [|c a IH].
  - change (EmptyString ++ String c0 b)%string with (String c0 b).
    cbn [Str.split_at]. rewrite Hc0. by rewrite split_at_none.
  - change (String c a ++ String c0 b)%string with (String c (a ++ String c0 b)).
    cbn [Str.split_at]. rewrite IH. destruct (sep c); [done|].
    pose proof (split_at_nonempty sep a) as Hne.
    by destruct (Str.split_at sep a).
Qed.

Lemma endswith_slash_split (a : string) :
  Str.endswith a "/" = true → ∃ a0, a = (a0 ++ "/")%string.
Proof.
  induction a as [|c a IH]; [done|]. cbn [Str.endswith].
  intros [Heq|Hend]%orb_true_iff.
  - apply String.eqb_eq in Heq. exists EmptyString. done.
  - destruct (IH Hend) as [a0 ->]. by exists (String c a0).
Qed.

Lemma basename_path_join (a b : string) :
  "/"%char ∉ list_ascii_of_string b → Str.basename (Str.path_join a b) = b.
Proof.
  intros Hb.
  assert (∀ c, c ∈ list_ascii_of_string b → bool_decide (c = "/"%char) = false) as Hsep.
  { intros c Hc. apply bool_decide_eq_false. by intros ->. }
  assert (∀ a0, Str.basename (a0 ++ String "/" b) = b) as Hslash.
  { intros a0. unfold Str.basename. rewrite split_at_snoc; [|done|done].
    apply last_last. }
  assert (Str.basename b = b) as Hself.
  { unfold Str.basename. by rewrite split_at_none. }
  unfold Str.path_join.
  assert (String.prefix "/" b = false) as ->.
  { destruct b as [|c b]; [done|]. simpl in Hb. apply not_elem_of_cons in Hb as [Hne _].
    change (String.prefix "/" (String c b))
      with (if ascii_dec "/" c then String.prefix EmptyString b else false).
    destruct (ascii_dec "/" c); [congruence | done]. }
  destruct (bool_decide (a = EmptyString)) eqn:Hempty.
  - apply bool_decide_eq_true in Hempty as ->. exact Hself.
  - cbn [orb]. destruct (Str.endswith a "/") eqn:Hend.
    + apply endswith_slash_split in Hend as [a0 ->].
      rewrite string_app_assoc. apply Hslash.
    + apply Hslash.
Qed.

Lemma parse_file_basename env (p1 p2 : string) :
  Str.basename p1 = Str.basename p2 →
  ScriptsParsers.parse_file env p1 = ScriptsParsers.parse_file env p2.
Proof.
  intros Heq. unfold ScriptsParsers.parse_file, ScriptsParsers.resolve. by rewrite Heq.
Qed.

Lemma parse_each_directory env (d1 d2 : string) (names : list string) :
  (∀ fname, fname ∈ names → "/"%char ∉ list_ascii_of_string fname) →
  ScriptsParsers.parse_each env d1 names = ScriptsParsers.parse_each env d2 names.
Proof.
  intros Hnames. induction names as [|fname names IH] using rev_ind; [done|].
  rewrite !parse_each_app. rewrite IH.
  - f_equal. unfold ScriptsParsers.parse_each. cbn [foldl].
    rewrite (parse_file_basename env (Str.path_join d1 fname) (Str.path_join d2 fname));
      [done|].
    rewrite !basename_path_join; [done|apply Hnames..];
      apply elem_of_app; right; apply list_elem_of_here.
  - intros f Hf. apply Hnames. apply elem_of_app. by left.
Qed.

(** The directory given to [parse_directory] decides which names are
    listed, and nothing else: every listed name is parsed as the file of
    that name in [DATA_DIR], so the result is the one of the same names
    listed in [DATA_DIR].  (The names that [os.listdir] returns hold no
    slash.) *)
Theorem parse_directory_reads_data_dir env (directory : string) (names : list string) :
  directory ≠ EmptyString →
  ScriptsParsers.listdir env directory = Ok names →
  (∀ fname, fname ∈ names → "/"%char ∉ list_ascii_of_string fname) →
  ScriptsParsers.parse_directory env (Some directory) =
    Ok (ScriptsParsers.aggregate
          (ScriptsParsers.parse_each env (ScriptsParsers.DATA_DIR env) names)) ∧
  ∀ fname, fname ∈ names →
    ScriptsParsers.parse_file env (Str.path_join directory fname) =
    ScriptsParsers.parse_file env fname ∧
    ScriptsParsers.resolve env (Str.path_join directory fname) =
      Str.path_join (ScriptsParsers.DATA_DIR env) fname.
Proof.
  intros Hne Hlist Hnames. split.
  - unfold ScriptsParsers.parse_directory. destruct directory as [|c s]; [done|].
    rewrite Hlist. cbn [mbind result_bind]. do 2 f_equal.
    by apply parse_each_directory.
  - intros fname Hf. split.
    + apply parse_file_basename. rewrite basename_path_join by by apply Hnames.
      symmetry. unfold Str.basename. rewrite split_at_none; [done|].
      intros c Hc. apply bool_decide_eq_false. intros ->. by apply (Hnames fname).
    + unfold ScriptsParsers.resolve. by rewrite basename_path_join by by apply Hnames.
Qed.

Lemma parse_directory_reads_data_dir_witness :
  ScriptsParsers.parse_directory Scenario.env_dir (Some "/srv/elsewhere") =
    Ok (ScriptsParsers.aggregate
          (ScriptsParsers.parse_each Scenario.env_dir "./_context"
             ["fall.pdf"; "gone.rtf"; "spring.pdf"; "notes.txt"])).
Proof.
  refine (proj1 (parse_directory_reads_data_dir Scenario.env_dir "/srv/elsewhere"
                   ["fall.pdf"; "gone.rtf"; "spring.pdf"; "notes.txt"] _ _ _)).
  - done.
  - done.
  - intros fname Hf. revert fname Hf. apply Forall_forall.
    by apply (bool_decide_unpack _).
Defined.

End directory_paths.
